(** * World Happiness Meter: the worker's pipeline, embedded and verified

    Shallow embedding of the Cloudflare worker of the repository:
    - [worker/firehose-client.ts]    (stream collection),
    - [worker/sentiment-analyzer.ts] (classifier reply parser),
    - [worker/sentiment-meter.ts]    (aggregation, hour prefixes, range query),
    - [worker/index.ts]              (persisting a run, the HTTP routes),
    and of two helpers outside the worker: [corpus] and [validate] of
    [scripts.ts], and the time label of [src/App.tsx].

    Conventions.
    - A JavaScript string is the list of its UTF-16 code units ([jsstring]);
      [js "..."] turns an ASCII literal into one.
    - A [Date] holds an ECMAScript time value: milliseconds since the epoch,
      an integer.  The worker runs in UTC, so the local-time methods
      ([setMinutes], [getHours], [setHours]) are the UTC ones.
    - JavaScript numbers that hold scores are kept behind the interface
      [Number]; counters are exact integers. *)

From Stdlib Require Import ZArith Lia String Ascii.
From Stdlib Require Import SpecFloat DecimalString.
From stdpp Require Import gmap list sorting.

Local Open Scope Z_scope.

(* ===================================================================== *)
(** * JavaScript strings *)
(* ===================================================================== *)

Definition codeunit := N.
Definition jsstring := list N.

(** An ASCII literal as a JavaScript string. *)
Definition js (s : string) : jsstring :=
  List.map N_of_ascii (list_ascii_of_string s).

(** Comparison of strings by code units, as the relational operators
    [<], [<=], [>=] do on two strings. *)
Fixpoint strCompare (a b : jsstring) : comparison :=
  match a, b with
  | [], [] => Eq
  | [], _ :: _ => Lt
  | _ :: _, [] => Gt
  | x :: a', y :: b' =>
      match N.compare x y with
      | Eq => strCompare a' b'
      | c => c
      end
  end.

Definition strLe (a b : jsstring) : bool :=
  match strCompare a b with Gt => false | _ => true end.
Definition strGe (a b : jsstring) : bool := strLe b a.
Definition strLt (a b : jsstring) : bool :=
  match strCompare a b with Lt => true | _ => false end.

Definition strEq (a b : jsstring) : bool := bool_decide (a = b).

(** [s.startsWith(p)] *)
Fixpoint startsWith (s p : jsstring) {struct p} : bool :=
  match p, s with
  | [], _ => true
  | _ :: _, [] => false
  | y :: p', x :: s' => N.eqb x y && startsWith s' p'
  end.

(** [s.substring(0, n)] *)
Definition substring0 (s : jsstring) (n : nat) : jsstring := take n s.

(** Decimal digits of [n], zero-padded (and truncated) to width [w]. *)
Fixpoint padDigits (w : nat) (n : Z) : jsstring :=
  match w with
  | O => []
  | S w' => padDigits w' (n / 10) ++ [Z.to_N (48 + n mod 10)]
  end.

(* ===================================================================== *)
(** * Dates: ECMAScript time values (ECMA-262, "Date objects") *)
(* ===================================================================== *)

Module Date.

Definition msPerSecond : Z := 1000.
Definition msPerMinute : Z := 60000.
Definition msPerHour : Z := 3600000.
Definition msPerDay : Z := 86400000.

Definition Day (t : Z) : Z := t / msPerDay.
Definition TimeWithinDay (t : Z) : Z := t mod msPerDay.

Definition DaysInYear (y : Z) : Z :=
  if negb (y mod 4 =? 0) then 365
  else if negb (y mod 100 =? 0) then 366
  else if negb (y mod 400 =? 0) then 365
  else 366.

Definition DayFromYear (y : Z) : Z :=
  365 * (y - 1970) + (y - 1969) / 4 - (y - 1901) / 100 + (y - 1601) / 400.

Definition TimeFromYear (y : Z) : Z := msPerDay * DayFromYear y.

(** The year holding day number [d]: the largest [y] with
    [DayFromYear y <= d] (lemma [YearFromDay_spec]); computed from the
    mean year length, then corrected by at most one. *)
Definition YearFromDay (d : Z) : Z :=
  let y := 1970 + (400 * d) / 146097 in
  if d <? DayFromYear y then y - 1
  else if DayFromYear (y + 1) <=? d then y + 1
  else y.

Definition YearFromTime (t : Z) : Z := YearFromDay (Day t).

Definition InLeapYear (t : Z) : Z :=
  if DaysInYear (YearFromTime t) =? 366 then 1 else 0.

Definition DayWithinYear (t : Z) : Z := Day t - DayFromYear (YearFromTime t).

(** Month number, 0 = January. *)
Definition MonthFromTime (t : Z) : Z :=
  let d := DayWithinYear t in
  let l := InLeapYear t in
  if d <? 31 then 0
  else if d <? 59 + l then 1
  else if d <? 90 + l then 2
  else if d <? 120 + l then 3
  else if d <? 151 + l then 4
  else if d <? 181 + l then 5
  else if d <? 212 + l then 6
  else if d <? 243 + l then 7
  else if d <? 273 + l then 8
  else if d <? 304 + l then 9
  else if d <? 334 + l then 10
  else 11.

(** Day of the month, 1-based. *)
Definition DateFromTime (t : Z) : Z :=
  let d := DayWithinYear t in
  let l := InLeapYear t in
  match MonthFromTime t with
  | 0 => d + 1
  | 1 => d - 30
  | 2 => d - 58 - l
  | 3 => d - 89 - l
  | 4 => d - 119 - l
  | 5 => d - 150 - l
  | 6 => d - 180 - l
  | 7 => d - 211 - l
  | 8 => d - 242 - l
  | 9 => d - 272 - l
  | 10 => d - 303 - l
  | _ => d - 333 - l
  end.

Definition HourFromTime (t : Z) : Z := (t / msPerHour) mod 24.
Definition MinFromTime (t : Z) : Z := (t / msPerMinute) mod 60.
Definition SecFromTime (t : Z) : Z := (t / msPerSecond) mod 60.
Definition msFromTime (t : Z) : Z := t mod msPerSecond.

Definition MakeTime (hour min sec ms : Z) : Z :=
  hour * msPerHour + min * msPerMinute + sec * msPerSecond + ms.
Definition MakeDate (day time : Z) : Z := day * msPerDay + time.

(** [d.setMinutes(min, sec, ms)]: the new time value. *)
Definition setMinutes (t min sec ms : Z) : Z :=
  MakeDate (Day t) (MakeTime (HourFromTime t) min sec ms).

(** [d.getHours()] *)
Definition getHours (t : Z) : Z := HourFromTime t.

(** [d.setHours(hour)]: the new time value. *)
Definition setHours (t hour : Z) : Z :=
  MakeDate (Day t)
    (MakeTime hour (MinFromTime t) (SecFromTime t) (msFromTime t)).

(** The year of [toISOString]: four digits for years 0 to 9999, else a
    sign and six digits. *)
Definition isoYear (y : Z) : jsstring :=
  if (0 <=? y) && (y <=? 9999) then padDigits 4 y
  else if y <? 0 then js "-" ++ padDigits 6 (- y)
  else js "+" ++ padDigits 6 y.

(** [d.toISOString()]: [YYYY-MM-DDTHH:mm:ss.sssZ]. *)
Definition toISOString (t : Z) : jsstring :=
  isoYear (YearFromTime t) ++ js "-" ++
  padDigits 2 (MonthFromTime t + 1) ++ js "-" ++
  padDigits 2 (DateFromTime t) ++ js "T" ++
  padDigits 2 (HourFromTime t) ++ js ":" ++
  padDigits 2 (MinFromTime t) ++ js ":" ++
  padDigits 2 (SecFromTime t) ++ js "." ++
  padDigits 3 (msFromTime t) ++ js "Z".

(** Time values whose year has four digits: 0000-01-01T00:00:00.000Z up to
    9999-12-31T23:59:59.999Z. *)
Definition fourDigitYear (t : Z) : Prop :=
  TimeFromYear 0 <= t < TimeFromYear 10000.

End Date.

(* ===================================================================== *)
(** * Numbers *)
(* ===================================================================== *)

(** The arithmetic the pipeline performs on scores.  The engine's numbers
    are IEEE-754 doubles; the development only relies on these operations
    being functions, so it holds for any implementation of them. *)
Class Number (num : Type) := {
  num_zero : num;                      (* the literal [0] *)
  num_add : num -> num -> num;         (* [a + b] *)
  num_div : num -> num -> num;         (* [a / b] *)
  num_of_count : Z -> num;             (* a counter as a number *)
  parseFloat : jsstring -> num         (* the global [parseFloat] *)
}.

Definition isDigit (c : N) : bool := ((48 <=? c) && (c <=? 57))%N.

(** [\s] of regular expressions and the code units [trim] strips:
    WhiteSpace and LineTerminator of ECMA-262. *)
Definition isWhiteSpace (c : N) : bool :=
  ((9 <=? c) && (c <=? 13) || (c =? 32) || (c =? 160) || (c =? 5760)
   || (8192 <=? c) && (c <=? 8202) || (c =? 8232) || (c =? 8233)
   || (c =? 8239) || (c =? 8287) || (c =? 12288) || (c =? 65279))%N.

(** The code units [.] does not match. *)
Definition isLineTerminator (c : N) : bool :=
  ((c =? 10) || (c =? 13) || (c =? 8232) || (c =? 8233))%N.

Section ListScan.
Context {A : Type} (p : A -> bool).

Fixpoint takeWhile (l : list A) : list A :=
  match l with
  | x :: l' => if p x then x :: takeWhile l' else []
  | [] => []
  end.

Fixpoint dropWhile (l : list A) : list A :=
  match l with
  | x :: l' => if p x then dropWhile l' else l
  | [] => []
  end.
End ListScan.

(** ** Doubles

    IEEE-754 binary64 as [spec_float] with precision 53 and [emax] 1024:
    the instance on which the model is run. *)
Module Binary64.

Definition add : spec_float -> spec_float -> spec_float := SFadd 53 1024.
Definition div : spec_float -> spec_float -> spec_float := SFdiv 53 1024.
Definition of_Z (n : Z) : spec_float := binary_normalize 53 1024 n 0 false.

(** The double nearest to [n / d] (ties to even), for [0 <= n], [0 < d]. *)
Definition of_ratio (neg : bool) (n d : Z) : spec_float :=
  match n, d with
  | Z0, Zpos _ => S754_zero neg
  | Zpos pn, Zpos pd => SFdiv 53 1024 (S754_finite neg pn 0) (S754_finite false pd 0)
  | _, _ => S754_nan
  end.

Definition digitsValue (ds : jsstring) : Z :=
  fold_left (fun acc c => 10 * acc + (Z.of_N c - 48)) ds 0.

(** [ExponentPart]: [e] or [E], an optional sign, digits.  The exponent
    read from the front of [s]; 0 when [s] does not start with one. *)
Definition exponentPart (s : jsstring) : Z :=
  match s with
  | c :: s' =>
      if ((c =? 101) || (c =? 69))%N then
        match s' with
        | sg :: s'' =>
            if ((sg =? 43) || (sg =? 45))%N then
              match takeWhile isDigit s'' with
              | [] => 0
              | ds => if (sg =? 45)%N then - digitsValue ds else digitsValue ds
              end
            else digitsValue (takeWhile isDigit s')
        | [] => 0
        end
      else 0
  | [] => 0
  end.

(** [StrUnsignedDecimalLiteral] at the front of [s], with its sign. *)
Definition unsignedDecimal (neg : bool) (s : jsstring) : spec_float :=
  if startsWith s (js "Infinity") then S754_infinity neg
  else
    let ip := takeWhile isDigit s in
    let r := drop (length ip) s in
    let '(fp, r') :=
      match r with
      | 46%N :: r1 => (takeWhile isDigit r1, drop (length (takeWhile isDigit r1)) r1)
      | _ => ([], r)
      end in
    match ip, fp with
    | [], [] => S754_nan
    | _, _ =>
        let e := exponentPart r' - Z.of_nat (length fp) in
        let m := digitsValue (ip ++ fp) in
        if 0 <=? e then of_ratio neg (m * 10 ^ e) 1
        else of_ratio neg m (10 ^ (- e))
    end.

(** [parseFloat]: leading white space is skipped, the longest prefix that
    is a decimal literal is read, [NaN] when there is none. *)
Definition parseFloat (s : jsstring) : spec_float :=
  match dropWhile isWhiteSpace s with
  | 43%N :: s' => unsignedDecimal false s'
  | 45%N :: s' => unsignedDecimal true s'
  | s' => unsignedDecimal false s'
  end.

End Binary64.

#[export] Instance binary64 : Number spec_float := {|
  num_zero := S754_zero false;
  num_add := Binary64.add;
  num_div := Binary64.div;
  num_of_count := Binary64.of_Z;
  parseFloat := Binary64.parseFloat
|}.

(* ===================================================================== *)
(** * The classifier: [worker/sentiment-analyzer.ts] *)
(* ===================================================================== *)

(** [s.trim()] *)
Definition trim (s : jsstring) : jsstring :=
  reverse (dropWhile isWhiteSpace (reverse (dropWhile isWhiteSpace s))).

(** [s.split(sep)] for a one-unit separator: at least one piece. *)
Fixpoint split (sep : N) (s : jsstring) : list jsstring :=
  match s with
  | [] => [[]]
  | c :: s' =>
      if (c =? sep)%N then [] :: split sep s'
      else match split sep s' with
           | piece :: pieces => (c :: piece) :: pieces
           | [] => [[c]]
           end
  end.

(** ** The regular expressions of the parser

    A pattern anchored at the start of a string returns its capture group;
    [search] slides it over the string, as [String.prototype.match] does
    for a pattern without the [g] flag, and returns [match[1]]. *)
Section Regex.
Context {A : Type}.

(** [\s*] followed by [k]: greedy, giving white space back when [k]
    fails further on. *)
Fixpoint skipSpaces (k : jsstring -> option A) (s : jsstring) : option A :=
  match s with
  | c :: s' =>
      if isWhiteSpace c then
        match skipSpaces k s' with
        | Some r => Some r
        | None => k s
        end
      else k s
  | [] => k []
  end.

(** A literal followed by [k]. *)
Definition literal (lit : jsstring) (k : jsstring -> option A)
    (s : jsstring) : option A :=
  if startsWith s lit then k (drop (length lit) s) else None.

(** The leftmost match. *)
Fixpoint search (m : jsstring -> option A) (s : jsstring) : option A :=
  match m s with
  | Some r => Some r
  | None => match s with
            | [] => None
            | _ :: s' => search m s'
            end
  end.
End Regex.

Definition isDigitOrDot (c : N) : bool := isDigit c || (c =? 46)%N.

(** A greedy character class [(c+)] at the end of a pattern: the longest
    run of accepted code units, which must not be empty. *)
Definition run (ok : N -> bool) (s : jsstring) : option jsstring :=
  match takeWhile ok s with
  | [] => None
  | cap => Some cap
  end.

(** [([\d.]+)] *)
Definition digitsDots : jsstring -> option jsstring := run isDigitOrDot.

(** [(.+)]: up to the line terminator. *)
Definition restOfLine : jsstring -> option jsstring :=
  run (fun c => negb (isLineTerminator c)).

(** [content.match(/<label>:\s*([\d.]+)/)], reduced to its group 1. *)
Definition matchScore (label : string) (content : jsstring) : option jsstring :=
  search (literal (js label ++ js ":") (skipSpaces digitsDots)) content.

(** [content.match(/concepts:\s*(.+)/)], reduced to its group 1. *)
Definition matchConcepts (content : jsstring) : option jsstring :=
  search (literal (js "concepts:") (skipSpaces restOfLine)) content.

Section Classifier.
Context {num : Type} `{Number num}.

Record Scores := {
  happiness : num;
  sadness : num;
  anger : num;
  fear : num;
  surprise : num;
  disgust : num;
  concepts : list jsstring
}.

(** [SentimentResult]: the scores, or [{ error }]. *)
Inductive SentimentResult :=
| Success (s : Scores)
| Failure (error : jsstring).

Definition parseSentimentResponse (content : jsstring) : SentimentResult :=
  let happinessMatch := matchScore "happiness" content in
  let sadnessMatch := matchScore "sadness" content in
  let angerMatch := matchScore "anger" content in
  let fearMatch := matchScore "fear" content in
  let surpriseMatch := matchScore "surprise" content in
  let disgustMatch := matchScore "disgust" content in
  let conceptsMatch := matchConcepts content in
  match happinessMatch, sadnessMatch, angerMatch, fearMatch,
        surpriseMatch, disgustMatch, conceptsMatch with
  | Some h, Some s, Some a, Some f, Some su, Some d, Some c =>
      Success {|
        happiness := parseFloat h;
        sadness := parseFloat s;
        anger := parseFloat a;
        fear := parseFloat f;
        surprise := parseFloat su;
        disgust := parseFloat d;
        concepts :=
          List.filter (fun c => (0 <? length c)%nat)
            (List.map trim (split 44 (trim c)))
      |}
  | _, _, _, _, _, _, _ => Failure content
  end.

(** What the provider answers to one request. *)
Inductive ProviderReply :=
| CallThrows (err : jsstring)       (* [fetch] or reading the body throws *)
| HttpError (status : jsstring)     (* [!response.ok], the status printed *)
| Content (content : jsstring).     (* [data.choices[0].message.content] *)

Definition analyzeSentiment (provider : jsstring -> ProviderReply)
    (text apiKey : jsstring) : SentimentResult :=
  match apiKey with
  | [] => Failure (js "OPENROUTER_API_KEY not configured")
  | _ =>
      match provider text with
      | HttpError status => Failure (js "OpenRouter API error: " ++ status)
      | Content content => parseSentimentResponse content
      | CallThrows err => Failure (js "Error calling OpenRouter: " ++ err)
      end
  end.
End Classifier.

Arguments Scores num : clear implicits.
Arguments SentimentResult num : clear implicits.

(* ===================================================================== *)
(** * Objects used as tables *)
(* ===================================================================== *)

(** A stable sort, as [Array.prototype.sort] is: [cmp a b <= 0] keeps [a]
    before [b].  (For a comparator that is not consistent the engine's
    order is implementation-defined; this is one admissible order.) *)
Section Sort.
Context {A : Type} (cmp : A -> A -> Z).

Fixpoint insertBy (x : A) (l : list A) : list A :=
  match l with
  | [] => [x]
  | y :: l' => if cmp x y <=? 0 then x :: y :: l' else y :: insertBy x l'
  end.

Definition sortBy (l : list A) : list A := foldr insertBy [] l.
End Sort.

(** What a property of the concept table can hold: a count, or the string
    that [+ 1] makes out of something that is not a number. *)
Inductive Cell :=
| Count (n : Z)
| Text (s : jsstring).

(** The own properties of an object created by [{}], in creation order. *)
Definition JSObject := list (jsstring * Cell).

Fixpoint getOwn (o : JSObject) (k : jsstring) : option Cell :=
  match o with
  | [] => None
  | (k', v) :: o' => if strEq k' k then Some v else getOwn o' k
  end.

(** Writing an own property: in place when it exists, else appended. *)
Fixpoint setOwn (o : JSObject) (k : jsstring) (v : Cell) : JSObject :=
  match o with
  | [] => [(k, v)]
  | (k', v') :: o' =>
      if strEq k' k then (k', v) :: o' else (k', v') :: setOwn o' k v
  end.

(** The function-valued properties every object inherits from
    [Object.prototype], with the name of the function each one holds. *)
Definition objectPrototypeFunctions : list (jsstring * jsstring) :=
  [ (js "constructor", js "Object");
    (js "__defineGetter__", js "__defineGetter__");
    (js "__defineSetter__", js "__defineSetter__");
    (js "hasOwnProperty", js "hasOwnProperty");
    (js "__lookupGetter__", js "__lookupGetter__");
    (js "__lookupSetter__", js "__lookupSetter__");
    (js "isPrototypeOf", js "isPrototypeOf");
    (js "propertyIsEnumerable", js "propertyIsEnumerable");
    (js "toString", js "toString");
    (js "valueOf", js "valueOf");
    (js "toLocaleString", js "toLocaleString") ].

(** The string an inherited property turns into under [+]: the source
    text of a native function, or [[object Object]] for [__proto__]
    (which reads as [Object.prototype] itself). *)
Definition inheritedText (k : jsstring) : option jsstring :=
  if strEq k (js "__proto__") then Some (js "[object Object]")
  else
    match getOwn (List.map (fun p => (p.1, Text p.2)) objectPrototypeFunctions) k with
    | Some (Text name) =>
        Some (js "function " ++ name ++ js "() { [native code] }")
    | _ => None
    end.

(** The names that collide with an inherited property. *)
Definition inheritedName (k : jsstring) : bool :=
  match inheritedText k with Some _ => true | None => false end.

(** [(o[k] || 0) + 1] *)
Definition incremented (o : JSObject) (k : jsstring) : Cell :=
  match getOwn o k with
  | Some (Count n) => if n =? 0 then Count 1 else Count (n + 1)
  | Some (Text []) => Count 1
  | Some (Text s) => Text (s ++ js "1")
  | None =>
      match inheritedText k with
      | Some text => Text (text ++ js "1")
      | None => Count 1
      end
  end.

(** [o[k] = v]: [__proto__] is an accessor whose setter ignores whatever
    is not an object; any other name becomes (or stays) an own property. *)
Definition assign (o : JSObject) (k : jsstring) (v : Cell) : JSObject :=
  if strEq k (js "__proto__") then o else setOwn o k v.

(** An array index: the canonical decimal string of an integer below
    [2^32 - 1]. *)
Definition arrayIndex (k : jsstring) : option Z :=
  match k with
  | [] => None
  | c :: k' =>
      if forallb isDigit k && (negb (c =? 48)%N || (length k' =? 0)%nat) then
        let n := Binary64.digitsValue k in
        if n <? 4294967295 then Some n else None
      else None
  end.

Definition isArrayIndex (k : jsstring) : bool :=
  match arrayIndex k with Some _ => true | None => false end.

(** [Object.entries(o)]: array indices first, ascending, then the other
    names in creation order. *)
Definition entries (o : JSObject) : list (jsstring * Cell) :=
  sortBy (fun a b => default 0 (arrayIndex a.1) - default 0 (arrayIndex b.1))
    (List.filter (fun p => isArrayIndex p.1) o)
  ++ List.filter (fun p => negb (isArrayIndex p.1)) o.

(** [b - a] on two cells; [None] is [NaN], which a string of the table
    always gives (it is never a numeral). *)
Definition cellMinus (b a : Cell) : option Z :=
  match b, a with
  | Count nb, Count na => Some (nb - na)
  | _, _ => None
  end.

(** The comparator [(a, b) => b[1] - a[1]] as [sort] reads it: [NaN]
    counts as [+0]. *)
Definition byCountDescending (a b : jsstring * Cell) : Z :=
  default 0 (cellMinus b.2 a.2).

(* ===================================================================== *)
(** * The stream collector: [worker/firehose-client.ts] *)
(* ===================================================================== *)

Record FirehosePost := {
  text : jsstring;
  did : jsstring;
  collection : jsstring;
  rkey : jsstring
}.

Section Firehose.
(** [St] is the state the [onPost] callback closes over. *)
Context {St : Type}.

(** [FirehoseOptions].  [onPost] gives the new state of its closure, or
    the error it throws; [onError] tells whether that callback is
    given. *)
Record FirehoseOptions := {
  onPost : FirehosePost -> St -> St + jsstring;
  onError : bool;
  durationMs : option Z;
  eventLimit : option Z
}.

(** What the Jetstream connection and the timer can deliver. *)
Inductive StreamEvent :=
| OnCreate (post : FirehosePost)   (* a new [app.bsky.feed.post] *)
| OnError (err : jsstring)
| OnOpen
| OnClose
| OnTimeout.                       (* the [setTimeout] callback is due *)

(** The variables of one call of [connectToFirehose]. *)
Record Connection := {
  eventCount : Z;
  isClosed : bool;
  timeout : bool;              (* a timer is set and not cleared *)
  calls : list FirehosePost;   (* the calls of [onPost], oldest first *)
  errors : list jsstring;      (* the calls of [onError] *)
  state : St;                  (* the callback's state *)
  resolved : option St         (* the state seen when the promise resolved *)
}.

(** A limit or a duration counts when it is given and not zero. *)
Definition truthy (o : option Z) : bool :=
  match o with
  | Some n => negb (n =? 0)
  | None => false
  end.

Definition cleanup (c : Connection) : Connection :=
  if isClosed c then c
  else {| eventCount := eventCount c;
          isClosed := true;
          timeout := false;
          calls := calls c;
          errors := errors c;
          state := state c;
          resolved := Some (state c) |}.

Definition reportError (options : FirehoseOptions) (err : jsstring)
    (c : Connection) : Connection :=
  if onError options then
    {| eventCount := eventCount c; isClosed := isClosed c;
       timeout := timeout c; calls := calls c;
       errors := errors c ++ [err];
       state := state c; resolved := resolved c |}
  else c.

(** The handler registered with [jetstream.onCreate]. *)
Definition handleCreate (options : FirehoseOptions) (post : FirehosePost)
    (c : Connection) : Connection :=
  let c1 := {| eventCount := eventCount c + 1; isClosed := isClosed c;
               timeout := timeout c; calls := calls c; errors := errors c;
               state := state c; resolved := resolved c |} in
  if truthy (eventLimit options)
     && (default 0 (eventLimit options) <? eventCount c1)
  then cleanup c1
  else
    let c2 := {| eventCount := eventCount c1; isClosed := isClosed c1;
                 timeout := timeout c1; calls := calls c1 ++ [post];
                 errors := errors c1; state := state c1;
                 resolved := resolved c1 |} in
    match onPost options post (state c1) with
    | inl s' =>
        {| eventCount := eventCount c2; isClosed := isClosed c2;
           timeout := timeout c2; calls := calls c2; errors := errors c2;
           state := s'; resolved := resolved c2 |}
    | inr err => reportError options err c2
    end.

Definition handle (options : FirehoseOptions) (c : Connection)
    (ev : StreamEvent) : Connection :=
  match ev with
  | OnCreate post => handleCreate options post c
  | OnError err => reportError options err c
  | OnOpen => c
  | OnClose => cleanup c
  | OnTimeout => if timeout c then cleanup c else c
  end.

(** The connection when [connectToFirehose] has installed its handlers. *)
Definition connect (options : FirehoseOptions) (s : St) : Connection :=
  {| eventCount := 0; isClosed := false;
     timeout := truthy (durationMs options);
     calls := []; errors := []; state := s; resolved := None |}.

(** [connectToFirehose(options)] against a stream of events: the
    connection after the last of them.  Its promise is resolved when
    [resolved] is set. *)
Definition connectToFirehose (options : FirehoseOptions) (s : St)
    (events : list StreamEvent) : Connection :=
  fold_left (handle options) events (connect options s).
End Firehose.

Arguments FirehoseOptions St : clear implicits.
Arguments Connection St : clear implicits.

(* ===================================================================== *)
(** * The aggregator and the store: [worker/sentiment-meter.ts] *)
(* ===================================================================== *)

Section Meter.
Context {num : Type} `{Number num}.
(** [String.prototype.toLowerCase] *)
Context (toLowerCase : jsstring -> jsstring).

(** [SentimentData].  [topConcepts] is absent ([None]) from a record
    that a range query rebuilds from metadata which holds none. *)
Record SentimentData := {
  timestamp : jsstring;
  messageCount : Z;
  happinessAvg : num;
  sadnessAvg : num;
  angerAvg : num;
  fearAvg : num;
  surpriseAvg : num;
  disgustAvg : num;
  topConcepts : option JSObject
}.

(** The variables of phase 2 of [updateMeters]. *)
Record Tally := {
  t_messageCount : Z;
  t_failureCount : Z;
  t_noSentimentCount : Z;
  sum_happiness : num;
  sum_sadness : num;
  sum_anger : num;
  sum_fear : num;
  sum_surprise : num;
  sum_disgust : num;
  conceptCounts : JSObject
}.

Definition emptyTally : Tally :=
  {| t_messageCount := 0; t_failureCount := 0; t_noSentimentCount := 0;
     sum_happiness := num_zero; sum_sadness := num_zero;
     sum_anger := num_zero; sum_fear := num_zero;
     sum_surprise := num_zero; sum_disgust := num_zero;
     conceptCounts := [] |}.

(** [for (const concept of result.concepts) ...] *)
Definition countConcept (counts : JSObject) (concept : jsstring) : JSObject :=
  let lowerConcept := toLowerCase concept in
  assign counts lowerConcept (incremented counts lowerConcept).

Definition countConcepts (counts : JSObject) (cs : list jsstring) : JSObject :=
  fold_left countConcept cs counts.

(** The body of [for (const result of results)]. *)
Definition tally (t : Tally) (result : SentimentResult num) : Tally :=
  match result with
  | Success r =>
      {| t_messageCount := t_messageCount t + 1;
         t_failureCount := t_failureCount t;
         t_noSentimentCount := t_noSentimentCount t;
         sum_happiness := num_add (sum_happiness t) (happiness r);
         sum_sadness := num_add (sum_sadness t) (sadness r);
         sum_anger := num_add (sum_anger t) (anger r);
         sum_fear := num_add (sum_fear t) (fear r);
         sum_surprise := num_add (sum_surprise t) (surprise r);
         sum_disgust := num_add (sum_disgust t) (disgust r);
         conceptCounts := countConcepts (conceptCounts t) (concepts r) |}
  | Failure error =>
      if negb (strEq error (js "NO SENTIMENT")) then
        {| t_messageCount := t_messageCount t;
           t_failureCount := t_failureCount t + 1;
           t_noSentimentCount := t_noSentimentCount t;
           sum_happiness := sum_happiness t; sum_sadness := sum_sadness t;
           sum_anger := sum_anger t; sum_fear := sum_fear t;
           sum_surprise := sum_surprise t; sum_disgust := sum_disgust t;
           conceptCounts := conceptCounts t |}
      else
        {| t_messageCount := t_messageCount t;
           t_failureCount := t_failureCount t;
           t_noSentimentCount := t_noSentimentCount t + 1;
           sum_happiness := sum_happiness t; sum_sadness := sum_sadness t;
           sum_anger := sum_anger t; sum_fear := sum_fear t;
           sum_surprise := sum_surprise t; sum_disgust := sum_disgust t;
           conceptCounts := conceptCounts t |}
  end.

Definition tallyAll (results : list (SentimentResult num)) : Tally :=
  fold_left tally results emptyTally.

(** [Object.entries(conceptCounts).sort(...).slice(0, 200)] *)
Definition sortedConcepts (counts : JSObject) : list (jsstring * Cell) :=
  take 200 (sortBy byCountDescending (entries counts)).

(** [for (const [concept, count] of sortedConcepts) top200Concepts[concept] = count] *)
Definition top200Concepts (counts : JSObject) : JSObject :=
  fold_left (fun o p => assign o p.1 p.2) (sortedConcepts counts) [].

(** Phase 2 of [updateMeters], from the classification results on;
    [now] is the clock read by [new Date()]. *)
Definition aggregate (results : list (SentimentResult num)) (now : Z)
    : option SentimentData :=
  let t := tallyAll results in
  let count := num_of_count (t_messageCount t) in
  if 0 <? t_messageCount t then
    Some {| timestamp := Date.toISOString now;
            messageCount := t_messageCount t;
            happinessAvg := num_div (sum_happiness t) count;
            sadnessAvg := num_div (sum_sadness t) count;
            angerAvg := num_div (sum_anger t) count;
            fearAvg := num_div (sum_fear t) count;
            surpriseAvg := num_div (sum_surprise t) count;
            disgustAvg := num_div (sum_disgust t) count;
            topConcepts := Some (top200Concepts (conceptCounts t)) |}
  else None.

(** The options [updateMeters] connects with: [onPost] pushes the post
    on [collectedPosts]. *)
Definition updateMetersOptions : FirehoseOptions (list FirehosePost) :=
  {| onPost := fun post collectedPosts => inl (collectedPosts ++ [post]);
     onError := true;
     durationMs := None;
     eventLimit := Some 2000 |}.

(** What a call that awaits a promise comes to. *)
Inductive Awaited (A : Type) :=
| Pending                 (* the promise is not resolved by the events *)
| Returned (a : A).

(** [updateMeters(apiKey)], against the events of the stream, the
    provider's answers and the clock. *)
Definition updateMeters (events : list StreamEvent)
    (provider : jsstring -> ProviderReply) (now : Z) (apiKey : jsstring)
    : Awaited (option SentimentData) :=
  match resolved (connectToFirehose updateMetersOptions [] events) with
  | None => Pending _
  | Some collectedPosts =>
      let results :=
        List.map (fun post => analyzeSentiment provider (text post) apiKey)
          collectedPosts in
      Returned _ (aggregate results now)
  end.

(** ** The key-value namespace *)

(** The metadata of a key, as a listing types it ([SentimentData]).
    What [refreshMeters] writes there is [sentiments]: a [SentimentData]
    without [timestamp] and [topConcepts]; metadata written by another
    hand may hold [topConcepts].  A [timestamp] it might hold is never
    read: the spread of [getHistoricalMeters] overwrites it. *)
Record Metadata := {
  md_messageCount : Z;
  md_happinessAvg : num;
  md_sadnessAvg : num;
  md_angerAvg : num;
  md_fearAvg : num;
  md_surpriseAvg : num;
  md_disgustAvg : num;
  md_topConcepts : option JSObject
}.

(** A stored entry.  The body is JSON text, held here as the object it
    encodes. *)
Record KVEntry := {
  kvValue : JSObject;
  kvMetadata : option Metadata
}.

Definition KVNamespace := gmap jsstring KVEntry.

(** One key of a listing. *)
Record KVKey := {
  name : jsstring;
  metadata : option Metadata
}.

Record KVListResult := {
  keys : list KVKey;
  list_complete : bool;
  cursor : option nat
}.

(** The largest page of [list]: the store's default [limit]. *)
Definition kvListLimit : nat := 1000.

Definition compareZ (c : comparison) : Z :=
  match c with Lt => -1 | Eq => 0 | Gt => 1 end.

(** All the keys under a prefix, in the store's (lexicographic) order. *)
Definition kvKeysUnder (kv : KVNamespace) (prefix : jsstring) : list KVKey :=
  sortBy (fun a b => compareZ (strCompare (name a) (name b)))
    (List.map (fun p => {| name := p.1; metadata := kvMetadata p.2 |})
       (List.filter (fun p => startsWith p.1 prefix) (map_to_list kv))).

(** [kv.list({ prefix, cursor })]: the page that starts at the cursor. *)
Definition kvList (kv : KVNamespace) (prefix : jsstring)
    (cursor_ : option nat) : KVListResult :=
  let all := kvKeysUnder kv prefix in
  let from := default 0%nat cursor_ in
  {| keys := take kvListLimit (drop from all);
     list_complete := (length all <=? from + kvListLimit)%nat;
     cursor := Some (from + kvListLimit)%nat |}.

(** [kv.put(key, value, { metadata })] *)
Definition kvPut (kv : KVNamespace) (key : jsstring) (value : JSObject)
    (md : Metadata) : KVNamespace :=
  <[key := {| kvValue := value; kvMetadata := Some md |}]> kv.

(** [kv.get(key)] *)
Definition kvGet (kv : KVNamespace) (key : jsstring) : option JSObject :=
  kvValue <$> (kv !! key).

(** ** Hour prefixes and the range query *)

(** The [Date] objects of the caller, by reference. *)
Definition DateRef := positive.
Definition Dates := gmap DateRef Z.

(** The [while (current <= end)] loop; [None] when the fuel runs out. *)
Fixpoint hourLoop (fuel : nat) (current endValue : Z)
    (prefixes : list jsstring) : option (list jsstring) :=
  if current <=? endValue then
    match fuel with
    | O => None
    | S fuel' =>
        let prefix := substring0 (Date.toISOString current) 13 in
        hourLoop fuel' (Date.setHours current (Date.getHours current + 1))
          endValue (prefixes ++ [prefix])
    end
  else Some prefixes.

(** [generateHourPrefixes(start, end)]: the dates after the call and the
    prefixes.  [None]: a reference to no date, or the fuel ran out. *)
Definition generateHourPrefixes (fuel : nat) (start end_ : DateRef)
    (dates : Dates) : option (Dates * list jsstring) :=
  s ← dates !! start;
  let dates1 := <[start := Date.setMinutes s 0 0 0]> dates in
  e ← dates1 !! end_;
  let dates2 := <[end_ := Date.setMinutes e 0 0 0]> dates1 in
  current ← dates2 !! start;
  endValue ← dates2 !! end_;
  prefixes ← hourLoop fuel current endValue [];
  Some (dates2, prefixes).

(** [{ ...key.metadata, timestamp: key.name } as SentimentData] *)
Definition fromMetadata (md : Metadata) (key : jsstring) : SentimentData :=
  {| timestamp := key;
     messageCount := md_messageCount md;
     happinessAvg := md_happinessAvg md;
     sadnessAvg := md_sadnessAvg md;
     angerAvg := md_angerAvg md;
     fearAvg := md_fearAvg md;
     surpriseAvg := md_surpriseAvg md;
     disgustAvg := md_disgustAvg md;
     topConcepts := md_topConcepts md |}.

(** [for (const key of listResult.keys) ...] *)
Definition collectKeys (startIso endIso : jsstring) (page : list KVKey)
    (results : list SentimentData) : list SentimentData :=
  fold_left
    (fun results key =>
       match metadata key with
       | Some md =>
           if strGe (name key) startIso && strLe (name key) endIso
           then results ++ [fromMetadata md (name key)]
           else results
       | None => results
       end)
    page results.

(** The [while (hasMore)] loop over the pages of one prefix. *)
Fixpoint pageLoop (fuel : nat) (kv : KVNamespace) (prefix : jsstring)
    (startIso endIso : jsstring) (cursor_ : option nat)
    (results : list SentimentData) : option (list SentimentData) :=
  match fuel with
  | O => None
  | S fuel' =>
      let listResult := kvList kv prefix cursor_ in
      let results' := collectKeys startIso endIso (keys listResult) results in
      if list_complete listResult then Some results'
      else pageLoop fuel' kv prefix startIso endIso
             (cursor listResult) results'
  end.

(** [for (const prefix of prefixes) ...] *)
Fixpoint prefixLoop (fuel : nat) (kv : KVNamespace)
    (startIso endIso : jsstring) (prefixes : list jsstring)
    (results : list SentimentData) : option (list SentimentData) :=
  match prefixes with
  | [] => Some results
  | prefix :: prefixes' =>
      results' ← pageLoop fuel kv prefix startIso endIso None results;
      prefixLoop fuel kv startIso endIso prefixes' results'
  end.

(** [a.timestamp.localeCompare(b.timestamp)].  The keys are digits in one
    fixed layout, on which the collation order is the order of the
    code units. *)
Definition byTimestamp (a b : SentimentData) : Z :=
  compareZ (strCompare (timestamp a) (timestamp b)).

(** [getHistoricalMeters(kv, start, end)]: the dates after the call and
    the records.  [None]: a reference to no date, or the fuel ran out. *)
Definition getHistoricalMeters (fuel : nat) (kv : KVNamespace)
    (start end_ : DateRef) (dates : Dates)
    : option (Dates * list SentimentData) :=
  startIso ← Date.toISOString <$> (dates !! start);
  endIso ← Date.toISOString <$> (dates !! end_);
  '(dates', prefixes) ← generateHourPrefixes fuel start end_ dates;
  results ← prefixLoop fuel kv startIso endIso prefixes [];
  Some (dates', sortBy byTimestamp results).

(** ** Persisting a run: [refreshMeters] of [worker/index.ts] *)

(** [const { timestamp, topConcepts, ...sentiments } = data] *)
Definition sentimentsOf (data : SentimentData) : Metadata :=
  {| md_messageCount := messageCount data;
     md_happinessAvg := happinessAvg data;
     md_sadnessAvg := sadnessAvg data;
     md_angerAvg := angerAvg data;
     md_fearAvg := fearAvg data;
     md_surpriseAvg := surpriseAvg data;
     md_disgustAvg := disgustAvg data;
     md_topConcepts := None |}.

(** The namespace after the run. *)
Definition refreshMeters (kv : KVNamespace) (events : list StreamEvent)
    (provider : jsstring -> ProviderReply) (now : Z) (apiKey : jsstring)
    : Awaited KVNamespace :=
  match updateMeters events provider now apiKey with
  | Pending _ => Pending _
  | Returned _ (Some data) =>
      Returned _
        (kvPut kv (timestamp data) (default [] (topConcepts data))
           (sentimentsOf data))
  | Returned _ None => Returned _ kv
  end.
End Meter.

Arguments SentimentData num : clear implicits.
Arguments Metadata num : clear implicits.
Arguments KVEntry num : clear implicits.
Arguments KVNamespace num : clear implicits.
Arguments KVKey num : clear implicits.
Arguments KVListResult num : clear implicits.
Arguments Tally num : clear implicits.
Arguments Pending {A}.
Arguments Returned {A} a.

(* ===================================================================== *)
(** * Vocabulary of the specification *)
(* ===================================================================== *)

(** The posts a stream of events announces, in order. *)
Definition createdPosts (events : list StreamEvent) : list FirehosePost :=
  omap (fun ev => match ev with OnCreate post => Some post | _ => None end)
    events.

(** What a connection that has seen the posts [ps] under the ceiling [N]
    looks like: the invariant of the collector. *)
Definition seen {St : Type} (N : Z) (ps : list FirehosePost)
    (c : Connection St) : Prop :=
  eventCount c = Z.of_nat (length ps) /\
  calls c = take (Z.to_nat N) ps /\
  (isClosed c = true -> is_Some (resolved c)) /\
  (N < eventCount c -> isClosed c = true).

(** [s.includes(lit)] *)
Fixpoint includes (s lit : jsstring) : bool :=
  startsWith s lit ||
  match s with
  | [] => false
  | _ :: s' => includes s' lit
  end.

(** The six score labels of the reply contract. *)
Definition scoreLabels : list string :=
  ["happiness"; "sadness"; "anger"; "fear"; "surprise"; "disgust"]%string.

(** The seven labels a reply must carry. *)
Definition requiredLabels : list string := scoreLabels ++ ["concepts"%string].

(** Somewhere in [content], [lit] is followed by white space (maybe none)
    and then by a code unit that [ok] accepts. *)
Definition labelled (lit : jsstring) (ok : N -> bool) (content : jsstring)
    : Prop :=
  exists pre ws c rest,
    content = pre ++ lit ++ ws ++ c :: rest /\
    forallb isWhiteSpace ws = true /\ ok c = true.

(** A reply that carries the seven fields, in any order and with anything
    around them: each score label with a value that starts with a digit
    or a dot, and [concepts:] with text on its line. *)
Definition wellFormedReply (content : jsstring) : Prop :=
  (forall label, In label scoreLabels ->
     labelled (js label ++ js ":") isDigitOrDot content) /\
  labelled (js "concepts:") (fun c => negb (isLineTerminator c)) content.

(** One line of the contract: [label:value] and a line feed. *)
Definition scoreLine (label : string) (value : jsstring) : jsstring :=
  js label ++ js ":" ++ value ++ [10%N].

(** A value the score patterns capture whole: digits and dots, not empty. *)
Definition digitRun (v : jsstring) : Prop :=
  v <> [] /\ forallb isDigitOrDot v = true.

(** A reply in the layout of the contract: the six score lines in order,
    then the concepts. *)
Definition contractReply (h s a f su d conceptsText : jsstring) : jsstring :=
  scoreLine "happiness" h ++ scoreLine "sadness" s ++ scoreLine "anger" a ++
  scoreLine "fear" f ++ scoreLine "surprise" su ++ scoreLine "disgust" d ++
  js "concepts:" ++ conceptsText.

(** The failure reason that stands for "no sentiment". *)
Definition NO_SENTIMENT : jsstring := js "NO SENTIMENT".

Section BatchVocabulary.
Context {num : Type} `{Number num}.

(** The [Success] outcomes of a batch, in order. *)
Definition successes (results : list (SentimentResult num)) : list (Scores num) :=
  omap (fun r => match r with Success s => Some s | Failure _ => None end)
    results.

(** The reasons of the failures of a batch, in order. *)
Definition failureReasons (results : list (SentimentResult num)) : list jsstring :=
  omap (fun r => match r with Failure e => Some e | Success _ => None end)
    results.

(** The arithmetic mean as the engine computes it: the sum from the
    left, starting at 0, divided by the number of terms. *)
Definition mean (xs : list num) : num :=
  num_div (fold_left num_add xs num_zero)
    (num_of_count (Z.of_nat (length xs))).

(** The concepts of the successes of a batch, lower-cased, in the order
    they are counted. *)
Definition loweredConcepts (toLowerCase : jsstring -> jsstring)
    (results : list (SentimentResult num)) : list jsstring :=
  List.map toLowerCase (concat (List.map concepts (successes results))).
End BatchVocabulary.

(** The names of a list, each once, in the order first seen. *)
Definition firstSeen (l : list jsstring) : list jsstring :=
  fold_left (fun acc c => if bool_decide (c ∈ acc) then acc else acc ++ [c])
    l [].

(** How many times [c] occurs in [l]. *)
Definition occurrences (c : jsstring) (l : list jsstring) : Z :=
  Z.of_nat (length (filter (fun x => x = c) l)).

(** The table of counts of [l]: each name with its number of
    occurrences, names in the order first seen. *)
Definition tableOf (l : list jsstring) : JSObject :=
  List.map (fun c => (c, Count (occurrences c l))) (firstSeen l).

(** The count a cell holds; a string holds none. *)
Definition cellCount (v : Cell) : Z :=
  match v with Count n => n | Text _ => 0 end.

(** The sum of the counts of a table. *)
Definition sumCounts (o : JSObject) : Z :=
  fold_right (fun p acc => cellCount p.2 + acc) 0 o.

(** [E] enumerates the table [T] as [Object.entries] does: the entries
    whose name is an array index come first, by ascending index; the
    others follow in the order of [T]. *)
Definition enumerates (T E : list (jsstring * Cell)) : Prop :=
  exists I,
    E = I ++ List.filter (fun p => negb (isArrayIndex p.1)) T /\
    I ≡ₚ List.filter (fun p => isArrayIndex p.1) T /\
    StronglySorted
      (fun a b => default 0 (arrayIndex a.1) <= default 0 (arrayIndex b.1)) I.

(** [R] ranks the entries [E] by count, highest first, entries with the
    same count staying in the order they have in [E]. *)
Definition ranks (E R : list (jsstring * Cell)) : Prop :=
  R ≡ₚ E /\
  StronglySorted (fun a b => cellCount b.2 <= cellCount a.2) R /\
  forall n, List.filter (fun p => cellCount p.2 =? n) R =
            List.filter (fun p => cellCount p.2 =? n) E.

(** The ranking the specification words describe: ties in first-seen
    order, whatever the names. *)
Definition rankedFirstSeen (l : list jsstring) : list (jsstring * Cell) :=
  take 200 (sortBy byCountDescending (tableOf l)).

(** Every count of the table is at least 0. *)
Definition countsNonNegative (o : JSObject) : Prop :=
  Forall (fun p => 0 <= cellCount p.2) o.

(** One counting step on the lower-cased name [k]:
    [o[k] = (o[k] || 0) + 1]. *)
Definition countKey (o : JSObject) (k : jsstring) : JSObject :=
  assign o k (incremented o k).

(** Every cell of the table is a count. *)
Definition allCounts (o : JSObject) : Prop :=
  Forall (fun p => exists n, p.2 = Count n) o.

Section StoreVocabulary.
Context {num : Type} `{Number num}.

(** The namespace as the pipeline fills it: every key is the ISO string
    of an instant whose year has four digits, and every entry carries
    its metadata. *)
Definition wellStored (kv : KVNamespace num) : Prop :=
  forall k entry,
    kv !! k = Some entry ->
    (exists t, Date.fourDigitYear t /\ k = Date.toISOString t) /\
    is_Some (kvMetadata entry).

(** What the loop over a page keeps of one key. *)
Definition keptOf (startIso endIso : jsstring) (key : KVKey num)
    : option (SentimentData num) :=
  match metadata key with
  | Some md =>
      if strGe (name key) startIso && strLe (name key) endIso
      then Some (fromMetadata md (name key))
      else None
  | None => None
  end.
End StoreVocabulary.

(** The prefix of the hour number [h] (hours since the epoch). *)
Definition hourPrefix (h : Z) : jsstring :=
  substring0 (Date.toISOString (Date.msPerHour * h)) 13.

(** The records the loop keeps under the prefix of the hour [h]. *)
Definition keptUnder {num : Type} `{Number num} (kv : KVNamespace num)
    (startIso endIso : jsstring) (h : Z) : list (SentimentData num) :=
  omap (keptOf startIso endIso) (kvKeysUnder kv (hourPrefix h)).

(** Fuel that is enough for a range query. *)
Definition enoughFuel {num : Type} (kv : KVNamespace num) (s e : Z) : nat :=
  (Z.to_nat (e / Date.msPerHour - s / Date.msPerHour + 1) + size kv + 1)%nat.

(* ===================================================================== *)
(** * Inputs on which the model is run *)
(* ===================================================================== *)

(** [toLowerCase] on ASCII. *)
Definition asciiLower (s : jsstring) : jsstring :=
  List.map (fun c => if ((65 <=? c) && (c <=? 90))%N then (c + 32)%N else c) s.

(** A success with the given happiness, the other scores at 0. *)
Definition scored (h : Z) (cs : list string) : SentimentResult spec_float :=
  Success {| happiness := Binary64.of_Z h;
             sadness := Binary64.of_Z 0; anger := Binary64.of_Z 0;
             fear := Binary64.of_Z 0; surprise := Binary64.of_Z 0;
             disgust := Binary64.of_Z 0;
             concepts := List.map js cs |}.

(** Metadata of a record of [n] messages, every average at 5. *)
Definition sampleMetadata (n : Z) : Metadata spec_float :=
  {| md_messageCount := n;
     md_happinessAvg := Binary64.of_Z 5; md_sadnessAvg := Binary64.of_Z 5;
     md_angerAvg := Binary64.of_Z 5; md_fearAvg := Binary64.of_Z 5;
     md_surpriseAvg := Binary64.of_Z 5; md_disgustAvg := Binary64.of_Z 5;
     md_topConcepts := None |}.

(** 2025-01-03T17:00:00.000Z *)
Definition jan3_17h : Z := 1735923600000.

(** A namespace with a record at 17:00 and one at 18:00. *)
Definition sampleStore : KVNamespace spec_float :=
  kvPut
    (kvPut ∅ (Date.toISOString jan3_17h) [] (sampleMetadata 1))
    (Date.toISOString (jan3_17h + Date.msPerHour)) [] (sampleMetadata 2).

(** Two dates of the caller: 17:30 and 18:30. *)
Definition sampleDates : Dates :=
  <[2%positive := jan3_17h + 5400000]> (<[1%positive := jan3_17h + 1800000]> ∅).

(** 200 successes with one concept each, [c000] to [c199], then one
    whose concept is [7]. *)
Definition manyConcepts : list (SentimentResult spec_float) :=
  List.map
    (fun i => Success {| happiness := Binary64.of_Z 1;
                         sadness := Binary64.of_Z 0; anger := Binary64.of_Z 0;
                         fear := Binary64.of_Z 0; surprise := Binary64.of_Z 0;
                         disgust := Binary64.of_Z 0;
                         concepts := [js "c" ++ padDigits 3 (Z.of_nat i)] |})
    (seq 0 200)
  ++ [scored 1 ["7"%string]].

Definition samplePost (s : string) : FirehosePost :=
  {| text := js s; did := js "did:plc:1"; collection := js "app.bsky.feed.post";
     rkey := js "k" |}.

(** A collector with a ceiling of two posts, and six events. *)
Definition sampleOptions : FirehoseOptions (list FirehosePost) :=
  {| onPost := fun post posts => inl (posts ++ [post]);
     onError := true; durationMs := None; eventLimit := Some 2 |}.

Definition sampleEvents : list StreamEvent :=
  [OnOpen; OnCreate (samplePost "a"); OnCreate (samplePost "b");
   OnError (js "reset"); OnCreate (samplePost "c"); OnCreate (samplePost "d")].

(** Successes with happiness 5, 7 and 9 among two failures. *)
Definition mixedBatch : list (SentimentResult spec_float) :=
  [scored 5 []; Failure (js "OpenRouter API error: 500"); scored 7 [];
   Failure NO_SENTIMENT; scored 9 []].

(** A batch without a success. *)
Definition failedBatch : list (SentimentResult spec_float) :=
  [Failure (js "Error calling OpenRouter: timeout"); Failure NO_SENTIMENT].

(** A reply laid out as the contract asks, but with a word for the
    happiness. *)
Definition wordyReply : jsstring :=
  contractReply (js "high") (js "1") (js "0") (js "3") (js "5") (js "4")
    (js "peace,war").

(** The same layout with a negative fear. *)
Definition negativeReply : jsstring :=
  contractReply (js "7") (js "1") (js "0") (js "-2") (js "5") (js "4")
    (js "peace,war").

(** A reply without the [fear] line. *)
Definition noFearReply : jsstring :=
  scoreLine "happiness" (js "7") ++ scoreLine "sadness" (js "1") ++
  scoreLine "anger" (js "0") ++ scoreLine "surprise" (js "5") ++
  scoreLine "disgust" (js "4") ++ js "concepts:peace,war".

(** The seven fields in another order, white space after the colons. *)
Definition reorderedReply : jsstring :=
  js "concepts: peace, Ukraine war" ++ [10%N] ++
  scoreLine "disgust" (js " 4") ++ scoreLine "surprise" (js "5") ++
  scoreLine "fear" (js "3") ++ scoreLine "anger" (js "0") ++
  scoreLine "sadness" (js "1") ++ scoreLine "happiness" (js "7").

(** Out-of-contract scores: fractions and values above 9. *)
Definition wideReply : jsstring :=
  contractReply (js "7.5") (js "12") (js "0") (js "3") (js "5") (js "4.25")
    (js "peace").

(** The "no sentiment" reply followed by a line feed. *)
Definition untrimmedReply : jsstring := js "NO SENTIMENT" ++ [10%N].

(** A reply with four concepts. *)
Definition fourConceptsReply : jsstring :=
  contractReply (js "7") (js "1") (js "0") (js "3") (js "5") (js "4")
    (js "a,b,c,d").

(** Two successes with three concepts and one. *)
Definition conceptBatch : list (SentimentResult spec_float) :=
  [scored 5 ["Peace"; "war"; "2024"]%string; Failure NO_SENTIMENT;
   scored 7 ["peace"]%string].

(** The collector of [updateMeters]: the buffer holds the posts handed to
    [onPost], and what the resolved promise shows is a prefix of them. *)
Definition buffered (c : Connection (list FirehosePost)) : Prop :=
  state c = calls c /\
  forall posts, resolved c = Some posts -> posts `prefix_of` calls c.

(* ===================================================================== *)
(** * Further vocabulary: when a collection ends *)
(* ===================================================================== *)

(** The three things that end a collection: the connection closes, the
    timer of a given duration fires, or more posts arrive than a given
    limit allows. *)
Definition stops {St : Type} (options : FirehoseOptions St)
    (events : list StreamEvent) : Prop :=
  OnClose ∈ events \/
  (truthy (durationMs options) = true /\ OnTimeout ∈ events) \/
  (truthy (eventLimit options) = true /\
   Z.max 0 (default 0 (eventLimit options))
     < Z.of_nat (length (createdPosts events))).

(** What holds of a connection after the events [events]. *)
Definition tracked {St : Type} (options : FirehoseOptions St)
    (events : list StreamEvent) (c : Connection St) : Prop :=
  eventCount c = Z.of_nat (length (createdPosts events)) /\
  (is_Some (resolved c) <-> isClosed c = true) /\
  (isClosed c = true <-> stops options events) /\
  timeout c = truthy (durationMs options) && negb (isClosed c).

(** The cells of a counting table [o] once the names [l] are counted:
    every name of [l] but [__proto__] has a cell; a cell that holds a
    count holds the number of occurrences of its name; a cell that holds
    a string belongs to a name that objects inherit. *)
Definition exactCounts (l : list jsstring) (o : JSObject) : Prop :=
  NoDup (List.map fst o) /\
  (forall k, k ∈ l -> k <> js "__proto__" -> k ∈ List.map fst o) /\
  forall k v, (k, v) ∈ o ->
    k ∈ l /\ k <> js "__proto__" /\
    match v with
    | Count n => n = occurrences k l /\ inheritedName k = false
    | Text s => inheritedName k = true /\ s <> []
    end.

(** A lower-case Latin letter. *)
Definition isLowerLatin (c : N) : bool := ((97 <=? c) && (c <=? 122))%N.

(** Text around a reply that the patterns pass over: before it, text
    without a lower-case Latin letter (a Markdown fence, a heading in
    capitals); after it, nothing or a new line and anything. *)
Definition passedOver (before after : jsstring) : Prop :=
  forallb (fun x => negb (isLowerLatin x)) before = true /\
  match after with
  | [] => True
  | x :: _ => isLineTerminator x = true
  end.

(** The concepts of a [concepts:] capture:
    [cap.trim().split(",").map(trim).filter(nonempty)]. *)
Definition conceptsOf (cap : jsstring) : list jsstring :=
  List.filter (fun c => (0 <? length c)%nat) (List.map trim (split 44 (trim cap))).

(** A reply of the contract inside a Markdown fence. *)
Definition fencedReply : jsstring :=
  (js "```" ++ [10%N]) ++
  contractReply (js "7") (js "1") (js "0") (js "3") (js "5") (js "4")
    (js "peace, Ukraine war,") ++
  ([10%N] ++ js "```").

(* ===================================================================== *)
(** * The HTTP routes: [fetch] of [worker/index.ts] *)
(* ===================================================================== *)

Section Handler.
Context {num : Type} `{Number num}.

(** What [JSON.stringify] is given for the body of a response; an object
    is held as the entries the text lists. *)
Inductive Body :=
| NoBody                                            (* [null] *)
| ErrorBody (error : jsstring)                      (* [{ error }] *)
| MetersBody (historicalData : list (SentimentData num))
| ConceptsBody (listed : list (jsstring * Cell)).

Record Response := {
  status : Z;
  headers : list (jsstring * jsstring);
  body : Body
}.

Definition jsonHeaders : list (jsstring * jsstring) :=
  [ (js "Content-Type", js "application/json");
    (js "Access-Control-Allow-Origin", js "*") ].

(** [new Response(JSON.stringify(b), { status, headers })]; a response
    without a status has the status 200. *)
Definition jsonResponse (st : Z) (b : Body) : Response :=
  {| status := st; headers := jsonHeaders; body := b |}.

(** What the [catch] of the handler answers. *)
Definition uncaught : Response :=
  jsonResponse 500 (ErrorBody (js "Uncaught exception")).

(** [fetch(request, env)]: [route] is the path of the request,
    [timestampParam] what [searchParams.get("timestamp")] gives, [store]
    the namespace [env.SENTIMENT_DATA] ([None] when its operations
    throw), [now] the clock.  [None]: the fuel of the range query ran
    out. *)
Definition fetch (fuel : nat) (route : jsstring)
    (timestampParam : option jsstring) (store : option (KVNamespace num))
    (now : Z) : option Response :=
  if startsWith route (js "/api/meters") then
    match store with
    | Some kv =>
        let end_ : DateRef := 1%positive in
        let start : DateRef := 2%positive in
        let dates : Dates :=
          <[start := now - 24 * 60 * 60 * 1000]> (<[end_ := now]> ∅) in
        '(_, historicalData) ← getHistoricalMeters fuel kv start end_ dates;
        Some (jsonResponse 200 (MetersBody historicalData))
    | None => Some uncaught
    end
  else if startsWith route (js "/api/concepts") then
    match timestampParam with
    | None | Some [] =>
        Some (jsonResponse 400 (ErrorBody (js "Missing timestamp parameter")))
    | Some timestamp =>
        match store with
        | Some kv =>
            match kvGet kv timestamp with
            | None =>
                Some (jsonResponse 404
                        (ErrorBody (js "No data found for timestamp")))
            | Some topConceptsJson =>
                Some (jsonResponse 200 (ConceptsBody (entries topConceptsJson)))
            end
        | None => Some uncaught
        end
    end
  else Some {| status := 404; headers := []; body := NoBody |}.
End Handler.

Arguments Body num : clear implicits.
Arguments Response num : clear implicits.

(* ===================================================================== *)
(** * The command-line helpers: [scripts.ts] *)
(* ===================================================================== *)

(** ** [corpus]: collecting sample posts *)

Record CorpusEntry := {
  entry_text : jsstring;
  entry_did : jsstring;
  entry_timestamp : Z
}.

(** The variables [posts] and [collected] of [corpus]. *)
Record Corpus := {
  posts : list CorpusEntry;
  collected : Z
}.

Section CorpusScript.
(** The readings of [Date.now()] in [onPost]: [clock n] is the reading
    taken for the post number [n]. *)
Variable clock : nat -> Z.
(** [parseInt(process.argv[3] || "100")]; [None] is [NaN]. *)
Variable targetCount : option Z.

(** The options [corpus] connects with.  A duration of [NaN] is no
    duration; [collected >= NaN] is false. *)
Definition corpusOptions : FirehoseOptions Corpus :=
  {| durationMs := (fun n => n * 100) <$> targetCount;
     onPost := fun post st =>
       if match targetCount with
          | Some n => n <=? collected st
          | None => false
          end
       then inl st
       else inl {| posts := posts st ++
                     [{| entry_text := text post; entry_did := did post;
                         entry_timestamp := clock (length (posts st)) |}];
                   collected := collected st + 1 |};
     onError := true;
     eventLimit := None |}.

(** [corpus()]: the posts written to the file. *)
Definition corpus (events : list StreamEvent) : Awaited (list CorpusEntry) :=
  match resolved (connectToFirehose corpusOptions
                    {| posts := []; collected := 0 |} events) with
  | None => Pending
  | Some st => Returned (posts st)
  end.

(** The entry [onPost] makes of the post number [n]. *)
Definition entryOf (n : nat) (post : FirehosePost) : CorpusEntry :=
  {| entry_text := text post; entry_did := did post;
     entry_timestamp := clock n |}.
End CorpusScript.

(** ** [validate]: scoring a corpus *)

Section ValidateScript.
Context {num : Type} `{Number num}.
Context (toLowerCase : jsstring -> jsstring).

(** The variables [processed], [sentimentSums] and [conceptCounts]. *)
Record Validation := {
  processed : Z;
  v_happiness : num;
  v_sadness : num;
  v_anger : num;
  v_fear : num;
  v_surprise : num;
  v_disgust : num;
  v_conceptCounts : JSObject
}.

(** The callback of [.then], on one result. *)
Definition validated (v : Validation) (result : SentimentResult num)
    : Validation :=
  match result with
  | Success r =>
      {| processed := processed v + 1;
         v_happiness := num_add (v_happiness v) (happiness r);
         v_sadness := num_add (v_sadness v) (sadness r);
         v_anger := num_add (v_anger v) (anger r);
         v_fear := num_add (v_fear v) (fear r);
         v_surprise := num_add (v_surprise v) (surprise r);
         v_disgust := num_add (v_disgust v) (disgust r);
         v_conceptCounts :=
           countConcepts toLowerCase (v_conceptCounts v) (concepts r) |}
  | Failure error =>
      if strEq error (js "NO SENTIMENT") then
        {| processed := processed v + 1;
           v_happiness := v_happiness v; v_sadness := v_sadness v;
           v_anger := v_anger v; v_fear := v_fear v;
           v_surprise := v_surprise v; v_disgust := v_disgust v;
           v_conceptCounts := v_conceptCounts v |}
      else v
  end.

(** The numbers [validate] prints: how many were processed, the six
    averages, the twenty top concepts. *)
Record ValidationReport := {
  reported : Z;
  happinessShown : num;
  sadnessShown : num;
  angerShown : num;
  fearShown : num;
  surpriseShown : num;
  disgustShown : num;
  conceptsShown : list (jsstring * Cell)
}.

(** [validate()], on the results in the order their promises are
    fulfilled. *)
Definition validate (results : list (SentimentResult num))
    : ValidationReport :=
  let v := fold_left validated results
             {| processed := 0;
                v_happiness := num_zero; v_sadness := num_zero;
                v_anger := num_zero; v_fear := num_zero;
                v_surprise := num_zero; v_disgust := num_zero;
                v_conceptCounts := [] |} in
  let count := num_of_count (processed v) in
  {| reported := processed v;
     happinessShown := num_div (v_happiness v) count;
     sadnessShown := num_div (v_sadness v) count;
     angerShown := num_div (v_anger v) count;
     fearShown := num_div (v_fear v) count;
     surpriseShown := num_div (v_surprise v) count;
     disgustShown := num_div (v_disgust v) count;
     conceptsShown :=
       take 20 (sortBy byCountDescending (entries (v_conceptCounts v))) |}.
End ValidateScript.

Arguments Validation num : clear implicits.
Arguments ValidationReport num : clear implicits.

(* ===================================================================== *)
(** * The time label of the chart: [src/App.tsx] *)
(* ===================================================================== *)

(** [n.toString()] of an integer that is not negative. *)
Definition decimal (n : Z) : jsstring :=
  js (NilZero.string_of_uint (N.to_uint (Z.to_N n))).

(** [s.padStart(n, fill)] with a one-unit filler. *)
Definition padStart (n : nat) (fill : N) (s : jsstring) : jsstring :=
  replicate (n - length s) fill ++ s.

Section LocalClock.
(** [LocalTZA(t, isUTC)] of ECMA-262: the offset of the viewer's time
    zone from UTC, in milliseconds; at the instant [t] when [isUTC], at
    the local time [t] otherwise (a local time that a change of the
    offset skips or repeats is read with the offset before the
    change). *)
Variable LocalTZA : Z -> bool -> Z.

Definition LocalTime (t : Z) : Z := t + LocalTZA t true.
Definition UTC (t : Z) : Z := t - LocalTZA t false.

(** [date.getHours()], [date.getMinutes()] *)
Definition getHoursLocal (t : Z) : Z := Date.HourFromTime (LocalTime t).
Definition getMinutesLocal (t : Z) : Z := Date.MinFromTime (LocalTime t).

(** [date.setMinutes(min)], [date.setSeconds(sec)],
    [date.setMilliseconds(ms)]: the new time value. *)
Definition setMinutesLocal (t min : Z) : Z :=
  let lt := LocalTime t in
  UTC (Date.MakeDate (Date.Day lt)
         (Date.MakeTime (Date.HourFromTime lt) min
            (Date.SecFromTime lt) (Date.msFromTime lt))).
Definition setSecondsLocal (t sec : Z) : Z :=
  let lt := LocalTime t in
  UTC (Date.MakeDate (Date.Day lt)
         (Date.MakeTime (Date.HourFromTime lt) (Date.MinFromTime lt) sec
            (Date.msFromTime lt))).
Definition setMillisecondsLocal (t ms : Z) : Z :=
  let lt := LocalTime t in
  UTC (Date.MakeDate (Date.Day lt)
         (Date.MakeTime (Date.HourFromTime lt) (Date.MinFromTime lt)
            (Date.SecFromTime lt) ms)).

(** [Math.round(minutes / 5) * 5].  [Math.round x] is the floor of
    [x + 1/2]; on the quotient of an integer by 5, which is never
    within a rounding error of a half, that is [(2 * minutes + 5) / 10]. *)
Definition roundedMinutes (minutes : Z) : Z := (2 * minutes + 5) / 10 * 5.

(** The [date] of [formatTimeToNearest5Min] after its three setters;
    [t] is the time value of [new Date(timestamp)]. *)
Definition roundedDate (t : Z) : Z :=
  let minutes := getMinutesLocal t in
  let date := setMinutesLocal t (roundedMinutes minutes) in
  let date := setSecondsLocal date 0 in
  setMillisecondsLocal date 0.

Definition formatTimeToNearest5Min (t : Z) : jsstring :=
  let date := roundedDate t in
  let hours := getHoursLocal date in
  let mins := getMinutesLocal date in
  let ampm := if 12 <=? hours then js "PM" else js "AM" in
  let displayHours := if hours mod 12 =? 0 then 12 else hours mod 12 in
  decimal displayHours ++ js ":" ++ padStart 2 48 (decimal mins) ++
  js " " ++ ampm.

(** From three minutes before the instant [t] to two minutes after it
    the offset of the zone is [z], for instants and for local times. *)
Definition steadyZone (t z : Z) : Prop :=
  (forall u, t - 180000 < u <= t + 120000 -> LocalTZA u true = z) /\
  (forall l, t + z - 180000 < l <= t + z + 120000 -> LocalTZA l false = z).
End LocalClock.

(** The zone of New York around its change of 9 March 2025: five hours
    behind UTC until 07:00 UTC, when the clocks go from 2:00 to 3:00, four
    hours behind from then on. *)
Definition easternTime (t : Z) (isUTC : bool) : Z :=
  if isUTC then (if t <? 1741503600000 then -18000000 else -14400000)
  else (if t <? 1741503600000 - 14400000 then -18000000 else -14400000).

(** 2025-03-09T06:58:00.000Z and 2025-03-09T05:02:59.000Z *)
Definition march9_0658 : Z := 1741503480000.
Definition march9_0502 : Z := 1741496579000.

(** The posts [corpus] keeps of the posts of a stream: the first
    [targetCount] of them, all of them when the target is [NaN]. *)
Definition keptPosts (targetCount : option Z) (created : list FirehosePost)
    : list FirehosePost :=
  match targetCount with
  | Some n => take (Z.to_nat n) created
  | None => created
  end.

(* ===================================================================== *)
(** * The cron trigger: [scheduled] of [worker/index.ts] *)
(* ===================================================================== *)

(** What one firing of the trigger meets: the stream, the provider and
    the clock of its run. *)
Record Firing := {
  firedEvents : list StreamEvent;
  firedProvider : jsstring -> ProviderReply;
  firedAt : Z
}.

Section Cron.
Context {num : Type} `{Number num} (toLowerCase : jsstring -> jsstring).

(** [scheduled(_, env, ctx)]: the namespace after the run. *)
Definition scheduled (kv : KVNamespace num) (apiKey : jsstring)
    (f : Firing) : Awaited (KVNamespace num) :=
  refreshMeters toLowerCase kv (firedEvents f) (firedProvider f) (firedAt f)
    apiKey.

(** The firings of the trigger one after the other, each run ending
    before the next begins. *)
Fixpoint scheduledRuns (kv : KVNamespace num) (apiKey : jsstring)
    (firings : list Firing) : Awaited (KVNamespace num) :=
  match firings with
  | [] => Returned kv
  | f :: rest =>
      match scheduled kv apiKey f with
      | Returned kv' => scheduledRuns kv' apiKey rest
      | Pending => Pending
      end
  end.
End Cron.

(* ===================================================================== *)
(** * More inputs on which the model is run *)
(* ===================================================================== *)

(** 2025-01-03T19:00:00.000Z *)
Definition jan3_19h : Z := jan3_17h + 2 * Date.msPerHour.

(** A provider that answers every post with the same scores. *)
Definition sampleProvider : jsstring -> ProviderReply :=
  fun _ => Content wideReply.

(** A stream of two posts that then closes. *)
Definition closingEvents : list StreamEvent :=
  [OnOpen; OnCreate (samplePost "a"); OnCreate (samplePost "b"); OnClose].

(** A stream of three posts, still open. *)
Definition openEvents : list StreamEvent :=
  [OnOpen; OnCreate (samplePost "a"); OnError (js "reset");
   OnCreate (samplePost "b"); OnCreate (samplePost "c")].

(** A clock that reads 1000, 1001, ... *)
Definition sampleClock (n : nat) : Z := 1000 + Z.of_nat n.

(** Two firings of the trigger, at 19:00 and 20:00. *)
Definition sampleFirings : list Firing :=
  [ {| firedEvents := closingEvents; firedProvider := sampleProvider;
       firedAt := jan3_19h |};
    {| firedEvents := closingEvents; firedProvider := sampleProvider;
       firedAt := jan3_19h + Date.msPerHour |} ].

(* ===================================================================== *)
(** * Further vocabulary: the values a reply writes *)
(* ===================================================================== *)

(** The pattern of a score label matches at the start of [s]: the
    literal [lit], white space (maybe none), a digit or a dot. *)
Definition scoreAt (lit s : jsstring) : Prop :=
  exists ws c rest,
    s = lit ++ ws ++ c :: rest /\
    forallb isWhiteSpace ws = true /\ isDigitOrDot c = true.

(** [v] is the value the reply writes first for the score [label]:
    somewhere the reply reads [label:], white space (maybe none) and the
    run [v] of digits and dots, which ends there; and before that place
    the pattern of the label matches nowhere. *)
Definition firstScore (label : string) (content v : jsstring) : Prop :=
  exists pre ws rest,
    content = pre ++ (js label ++ js ":") ++ ws ++ v ++ rest /\
    forallb isWhiteSpace ws = true /\
    digitRun v /\
    match rest with [] => True | c :: _ => isDigitOrDot c = false end /\
    forall p1 p2,
      pre = p1 ++ p2 -> p2 <> [] ->
      ~ scoreAt (js label ++ js ":")
          (p2 ++ (js label ++ js ":") ++ ws ++ v ++ rest).

(** Wherever the reply writes [lit], white space (maybe none) and a
    minus sign follow. *)
Definition minusEverywhere (lit content : jsstring) : Prop :=
  forall pre rest,
    content = pre ++ lit ++ rest ->
    exists ws rest',
      rest = ws ++ 45%N :: rest' /\ forallb isWhiteSpace ws = true.

(** A check of [minusEverywhere], place by place. *)
Fixpoint minusAfterEvery (lit s : jsstring) : bool :=
  (if startsWith s lit then
     match dropWhile isWhiteSpace (drop (length lit) s) with
     | 45%N :: _ => true
     | _ => false
     end
   else true)
  && match s with
     | [] => true
     | _ :: s' => minusAfterEvery lit s'
     end.

(** Out-of-contract scores in another order, white space after the
    colons. *)
Definition reorderedWideReply : jsstring :=
  js "concepts: peace, Ukraine war" ++ [10%N] ++
  scoreLine "disgust" (js " 4.25") ++ scoreLine "surprise" (js "5") ++
  scoreLine "fear" (js "  12") ++ scoreLine "anger" (js "0") ++
  scoreLine "sadness" (js " 99") ++ scoreLine "happiness" (js " 7.5").

(** A namespace in which no metadata holds [topConcepts]: what
    [refreshMeters] leaves, which stores the concepts as the value. *)
Definition plainStored {num : Type} `{Number num} (kv : KVNamespace num) : Prop :=
  forall k entry md,
    kv !! k = Some entry -> kvMetadata entry = Some md ->
    md_topConcepts md = None.

(** Two dates of the caller: 18:30 and 20:30. *)
Definition laterDates : Dates :=
  <[2%positive := jan3_19h + 5400000]> (<[1%positive := jan3_19h - 1800000]> ∅).

(* ===================================================================== *)
(** * Facts about strings *)
(* ===================================================================== *)

Section StringFacts.

Lemma strCompare_refl (a : jsstring) : strCompare a a = Eq.
Proof.
  induction a as [|x a IH]; simpl; [reflexivity|].
  now rewrite N.compare_refl.
Qed.

Lemma strCompare_eq (a b : jsstring) : strCompare a b = Eq -> a = b.
Proof.
  revert b; induction a as [|x a IH]; intros [|y b]; simpl; try easy.
  destruct (N.compare_spec x y) as [E|L|G]; try easy.
  intros He; subst; f_equal; auto.
Qed.

Lemma strCompare_antisym (a b : jsstring) :
  strCompare b a = CompOpp (strCompare a b).
Proof.
  revert b; induction a as [|x a IH]; intros [|y b]; simpl; try easy.
  rewrite (N.compare_antisym x y).
  destruct (N.compare x y); simpl; auto.
Qed.

Lemma strCompare_app (a a' b b' : jsstring) :
  length a = length a' ->
  strCompare (a ++ b) (a' ++ b') =
  match strCompare a a' with Eq => strCompare b b' | c => c end.
Proof.
  revert a'; induction a as [|x a IH]; intros [|y a'] Hlen; simpl in *;
    try discriminate; [reflexivity|].
  destruct (N.compare x y); auto.
Qed.

Lemma strCompare_trans_lt (a b c : jsstring) :
  strCompare a b = Lt -> strCompare b c = Lt -> strCompare a c = Lt.
Proof.
  revert b c; induction a as [|x a IH]; intros [|y b] [|z c]; simpl; try easy.
  destruct (N.compare_spec x y) as [E1|L1|G1],
           (N.compare_spec y z) as [E2|L2|G2]; try easy; subst;
    intros H1 H2.
  - rewrite N.compare_refl; eauto.
  - apply N.compare_lt_iff in L2 as ->; reflexivity.
  - apply N.compare_lt_iff in L1 as ->; reflexivity.
  - assert (x < z)%N as ->%N.compare_lt_iff by lia; reflexivity.
Qed.

Lemma strLt_iff (a b : jsstring) : strLt a b = true <-> strCompare a b = Lt.
Proof. unfold strLt; destruct (strCompare a b); intuition congruence. Qed.

Lemma strLe_iff (a b : jsstring) : strLe a b = true <-> strCompare a b <> Gt.
Proof. unfold strLe; destruct (strCompare a b); intuition congruence. Qed.

Lemma startsWith_prefix (s p : jsstring) :
  startsWith s p = true <-> p `prefix_of` s.
Proof.
  revert s; induction p as [|y p IH]; intros s; simpl.
  - split; [intros _; apply prefix_nil | reflexivity].
  - destruct s as [|x s].
    + split; [discriminate|]. intros H; now apply prefix_nil_not in H.
    + rewrite andb_true_iff, IH, N.eqb_eq. split.
      * intros [-> H]; now apply prefix_cons.
      * intros H; split.
        -- now apply prefix_cons_inv_1 in H.
        -- now apply prefix_cons_inv_2 in H.
Qed.

Lemma startsWith_take (s p : jsstring) :
  startsWith s p = true <-> take (length p) s = p.
Proof.
  rewrite startsWith_prefix; split.
  - intros [k ->]. now rewrite take_app_length.
  - intros <-. apply prefix_take.
Qed.

Lemma length_padDigits (w : nat) (n : Z) : length (padDigits w n) = w.
Proof.
  revert n; induction w as [|w IH]; intros n; simpl; [reflexivity|].
  rewrite length_app, IH; simpl; lia.
Qed.

Lemma strCompare_padDigits (w : nat) (x y : Z) :
  0 <= x < 10 ^ Z.of_nat w -> 0 <= y < 10 ^ Z.of_nat w ->
  strCompare (padDigits w x) (padDigits w y) = (x ?= y).
Proof.
  revert x y; induction w as [|w IH]; intros x y Hx Hy.
  - simpl in *. assert (x = 0) as -> by lia. assert (y = 0) as -> by lia.
    reflexivity.
  - rewrite Nat2Z.inj_succ, Z.pow_succ_r in Hx, Hy by lia.
    cbn [padDigits].
    rewrite strCompare_app by (now rewrite !length_padDigits).
    rewrite IH by (split; [apply Z.div_pos; lia | apply Z.div_lt_upper_bound; lia]).
    pose proof (Z.div_mod x 10 ltac:(lia)) as Ex.
    pose proof (Z.div_mod y 10 ltac:(lia)) as Ey.
    pose proof (Z.mod_pos_bound x 10 ltac:(lia)) as Bx.
    pose proof (Z.mod_pos_bound y 10 ltac:(lia)) as By.
    destruct (Z.compare_spec (x / 10) (y / 10)) as [E|L|G].
    + simpl. rewrite Z2N.inj_compare by lia.
      destruct (Z.compare_spec (48 + x mod 10) (48 + y mod 10));
        symmetry; [apply Z.compare_eq_iff | apply Z.compare_lt_iff
                  | apply Z.compare_gt_iff]; lia.
    + symmetry; apply Z.compare_lt_iff; lia.
    + symmetry; apply Z.compare_gt_iff; lia.
Qed.

End StringFacts.

(* ===================================================================== *)
(** * Facts about dates *)
(* ===================================================================== *)

Module DateFacts.
Import Date.

Ltac zdiv := Z.div_mod_to_equations; lia.

Lemma js_dash : js "-" = [45%N]. Proof. reflexivity. Qed.
Lemma js_T : js "T" = [84%N]. Proof. reflexivity. Qed.
Lemma js_colon : js ":" = [58%N]. Proof. reflexivity. Qed.
Lemma js_dot : js "." = [46%N]. Proof. reflexivity. Qed.
Lemma js_Z : js "Z" = [90%N]. Proof. reflexivity. Qed.

Lemma DayFromYear_mono (y1 y2 : Z) :
  y1 <= y2 -> DayFromYear y1 <= DayFromYear y2.
Proof. unfold DayFromYear; intros; zdiv. Qed.

Lemma DayFromYear_succ (y : Z) :
  DayFromYear (y + 1) = DayFromYear y + DaysInYear y.
Proof.
  unfold DayFromYear, DaysInYear.
  repeat match goal with
         | |- context [Z.eqb ?a ?b] => destruct (Z.eqb_spec a b); cbn [negb]
         end; zdiv.
Qed.

Lemma DaysInYear_range (y : Z) : 365 <= DaysInYear y <= 366.
Proof.
  unfold DaysInYear.
  repeat match goal with
         | |- context [Z.eqb ?a ?b] => destruct (Z.eqb_spec a b); cbn [negb]
         end; lia.
Qed.

(** [YearFromDay d] is the year that holds day [d]. *)
Lemma YearFromDay_spec (d : Z) :
  DayFromYear (YearFromDay d) <= d < DayFromYear (YearFromDay d + 1).
Proof.
  unfold YearFromDay.
  set (y := 1970 + 400 * d / 146097).
  destruct (Z.ltb_spec d (DayFromYear y)) as [Hlt|Hge].
  - replace (y - 1 + 1) with y by lia. split; [|lia].
    unfold DayFromYear in *; subst y; zdiv.
  - destruct (Z.leb_spec (DayFromYear (y + 1)) d) as [Hle|Hgt]; [|lia].
    split; [lia|]. unfold DayFromYear in *; subst y; zdiv.
Qed.

Lemma YearFromDay_unique (d y : Z) :
  DayFromYear y <= d < DayFromYear (y + 1) -> YearFromDay d = y.
Proof.
  intros Hy. pose proof (YearFromDay_spec d) as Hs.
  destruct (Z.lt_trichotomy (YearFromDay d) y) as [Hlt|[Heq|Hgt]]; [|exact Heq|].
  - pose proof (DayFromYear_mono (YearFromDay d + 1) y ltac:(lia)). lia.
  - pose proof (DayFromYear_mono (y + 1) (YearFromDay d) ltac:(lia)). lia.
Qed.

Lemma YearFromDay_mono (d1 d2 : Z) :
  d1 <= d2 -> YearFromDay d1 <= YearFromDay d2.
Proof.
  intros Hd. pose proof (YearFromDay_spec d1) as H1.
  pose proof (YearFromDay_spec d2) as H2.
  destruct (Z.le_gt_cases (YearFromDay d1) (YearFromDay d2)) as [|Hgt]; [easy|].
  pose proof (DayFromYear_mono (YearFromDay d2 + 1) (YearFromDay d1) ltac:(lia)).
  lia.
Qed.

Lemma Day_mono (t1 t2 : Z) : t1 <= t2 -> Day t1 <= Day t2.
Proof. unfold Day, msPerDay; intros; zdiv. Qed.

Lemma YearFromTime_mono (t1 t2 : Z) :
  t1 <= t2 -> YearFromTime t1 <= YearFromTime t2.
Proof. intros; apply YearFromDay_mono, Day_mono; easy. Qed.

Lemma fourDigitYear_year (t : Z) :
  fourDigitYear t <-> 0 <= YearFromTime t <= 9999.
Proof.
  unfold fourDigitYear, TimeFromYear, YearFromTime.
  pose proof (YearFromDay_spec (Day t)) as Hs.
  split.
  - intros Ht.
    assert (DayFromYear 0 <= Day t < DayFromYear 10000) as Hd
      by (unfold Day, msPerDay in *; zdiv).
    split.
    + destruct (Z.le_gt_cases 0 (YearFromDay (Day t))) as [|Hneg]; [easy|].
      pose proof (DayFromYear_mono (YearFromDay (Day t) + 1) 0 ltac:(lia)). lia.
    + destruct (Z.le_gt_cases (YearFromDay (Day t)) 9999) as [|Hbig]; [easy|].
      pose proof (DayFromYear_mono 10000 (YearFromDay (Day t)) ltac:(lia)). lia.
  - intros Hy.
    pose proof (DayFromYear_mono 0 (YearFromDay (Day t)) ltac:(lia)).
    pose proof (DayFromYear_mono (YearFromDay (Day t) + 1) 10000 ltac:(lia)).
    unfold Day, msPerDay in *; zdiv.
Qed.

Lemma isoYear_four (t : Z) :
  fourDigitYear t -> isoYear (YearFromTime t) = padDigits 4 (YearFromTime t).
Proof.
  intros Ht%fourDigitYear_year. unfold isoYear.
  destruct (Z.leb_spec 0 (YearFromTime t)); [|lia].
  destruct (Z.leb_spec (YearFromTime t) 9999); [reflexivity|lia].
Qed.

Lemma InLeapYear_range (t : Z) : 0 <= InLeapYear t <= 1.
Proof. unfold InLeapYear; destruct (_ =? _); lia. Qed.

Lemma DayWithinYear_range (t : Z) :
  0 <= DayWithinYear t < 365 + InLeapYear t.
Proof.
  unfold DayWithinYear, InLeapYear, YearFromTime.
  pose proof (YearFromDay_spec (Day t)) as Hs.
  rewrite DayFromYear_succ in Hs.
  pose proof (DaysInYear_range (YearFromDay (Day t))).
  destruct (Z.eqb_spec (DaysInYear (YearFromDay (Day t))) 366); lia.
Qed.

Ltac split_ltb :=
  repeat match goal with
         | |- context [Z.ltb ?a ?b] => destruct (Z.ltb_spec a b)
         end.

Lemma MonthFromTime_range (t : Z) : 0 <= MonthFromTime t <= 11.
Proof. unfold MonthFromTime; split_ltb; lia. Qed.

Lemma MonthFromTime_cases (t : Z) :
  let d := DayWithinYear t in
  let l := InLeapYear t in
  let m := MonthFromTime t in
  let x := DateFromTime t in
  (m = 0 /\ x = d + 1 /\ d < 31) \/
  (m = 1 /\ x = d - 30 /\ 31 <= d < 59 + l) \/
  (m = 2 /\ x = d - 58 - l /\ 59 + l <= d < 90 + l) \/
  (m = 3 /\ x = d - 89 - l /\ 90 + l <= d < 120 + l) \/
  (m = 4 /\ x = d - 119 - l /\ 120 + l <= d < 151 + l) \/
  (m = 5 /\ x = d - 150 - l /\ 151 + l <= d < 181 + l) \/
  (m = 6 /\ x = d - 180 - l /\ 181 + l <= d < 212 + l) \/
  (m = 7 /\ x = d - 211 - l /\ 212 + l <= d < 243 + l) \/
  (m = 8 /\ x = d - 242 - l /\ 243 + l <= d < 273 + l) \/
  (m = 9 /\ x = d - 272 - l /\ 273 + l <= d < 304 + l) \/
  (m = 10 /\ x = d - 303 - l /\ 304 + l <= d < 334 + l) \/
  (m = 11 /\ x = d - 333 - l /\ 334 + l <= d).
Proof.
  cbv zeta. unfold DateFromTime, MonthFromTime.
  pose proof (InLeapYear_range t).
  split_ltb; cbv iota beta; lia.
Qed.

Lemma DateFromTime_range (t : Z) : 1 <= DateFromTime t <= 31.
Proof.
  pose proof (MonthFromTime_cases t) as H; cbv zeta in H.
  pose proof (DayWithinYear_range t). pose proof (InLeapYear_range t). lia.
Qed.

Lemma HourFromTime_range (t : Z) : 0 <= HourFromTime t < 24.
Proof. unfold HourFromTime; apply Z.mod_pos_bound; lia. Qed.
Lemma MinFromTime_range (t : Z) : 0 <= MinFromTime t < 60.
Proof. unfold MinFromTime; apply Z.mod_pos_bound; lia. Qed.
Lemma SecFromTime_range (t : Z) : 0 <= SecFromTime t < 60.
Proof. unfold SecFromTime; apply Z.mod_pos_bound; lia. Qed.
Lemma msFromTime_range (t : Z) : 0 <= msFromTime t < 1000.
Proof. unfold msFromTime, msPerSecond; apply Z.mod_pos_bound; lia. Qed.

(** A time value is its day and its four clock fields. *)
Lemma time_fields (t : Z) :
  t = MakeDate (Day t)
        (MakeTime (HourFromTime t) (MinFromTime t) (SecFromTime t) (msFromTime t)).
Proof.
  unfold MakeDate, MakeTime, Day, HourFromTime, MinFromTime, SecFromTime,
    msFromTime, msPerDay, msPerHour, msPerMinute, msPerSecond. zdiv.
Qed.

(** The calendar fields determine the day, and order days. *)
Lemma calendar_fields_order (t1 t2 : Z) :
  Day t1 <= Day t2 ->
  YearFromTime t1 <= YearFromTime t2 /\
  (YearFromTime t1 = YearFromTime t2 ->
   MonthFromTime t1 <= MonthFromTime t2 /\
   (MonthFromTime t1 = MonthFromTime t2 ->
    DateFromTime t1 <= DateFromTime t2 /\
    (DateFromTime t1 = DateFromTime t2 -> Day t1 = Day t2))).
Proof.
  intros Hd. split; [now apply YearFromDay_mono|]. intros Hy.
  assert (InLeapYear t1 = InLeapYear t2) as Hl
    by (unfold InLeapYear; now rewrite Hy).
  assert (DayWithinYear t1 <= DayWithinYear t2) as Hw
    by (unfold DayWithinYear; rewrite Hy; lia).
  assert (DayWithinYear t1 = DayWithinYear t2 -> Day t1 = Day t2) as Hinj
    by (unfold DayWithinYear; rewrite Hy; lia).
  pose proof (MonthFromTime_cases t1) as C1; cbv zeta in C1.
  pose proof (MonthFromTime_cases t2) as C2; cbv zeta in C2.
  pose proof (InLeapYear_range t1).
  lia.
Qed.

(** The clock fields order the instants of one day. *)
Lemma clock_fields_order (t1 t2 : Z) :
  Day t1 = Day t2 -> t1 <= t2 ->
  HourFromTime t1 <= HourFromTime t2 /\
  (HourFromTime t1 = HourFromTime t2 ->
   MinFromTime t1 <= MinFromTime t2 /\
   (MinFromTime t1 = MinFromTime t2 ->
    SecFromTime t1 <= SecFromTime t2 /\
    (SecFromTime t1 = SecFromTime t2 ->
     msFromTime t1 <= msFromTime t2 /\
     (msFromTime t1 = msFromTime t2 -> t1 = t2)))).
Proof.
  unfold Day, HourFromTime, MinFromTime, SecFromTime, msFromTime,
    msPerDay, msPerHour, msPerMinute, msPerSecond.
  intros Hd Ht. zdiv.
Qed.

(** ** Order of ISO strings *)

Lemma strCompare_field (w : nat) (x y : Z) (sep : N) (r1 r2 : jsstring) :
  0 <= x < 10 ^ Z.of_nat w -> 0 <= y < 10 ^ Z.of_nat w ->
  strCompare (padDigits w x ++ sep :: r1) (padDigits w y ++ sep :: r2) =
  match x ?= y with Eq => strCompare r1 r2 | c => c end.
Proof.
  intros Hx Hy.
  rewrite strCompare_app by (now rewrite !length_padDigits).
  rewrite strCompare_padDigits by assumption.
  destruct (x ?= y); try reflexivity.
  simpl. now rewrite N.compare_refl.
Qed.

Ltac field_ranges t :=
  pose proof (MonthFromTime_range t);
  pose proof (DateFromTime_range t);
  pose proof (HourFromTime_range t);
  pose proof (MinFromTime_range t);
  pose proof (SecFromTime_range t);
  pose proof (msFromTime_range t).

Lemma toISOString_lt (t1 t2 : Z) :
  fourDigitYear t1 -> fourDigitYear t2 -> t1 < t2 ->
  strCompare (toISOString t1) (toISOString t2) = Lt.
Proof.
  intros R1 R2 Hlt. unfold toISOString.
  rewrite !isoYear_four by assumption.
  apply fourDigitYear_year in R1, R2.
  field_ranges t1. field_ranges t2.
  rewrite js_dash, js_T, js_colon, js_dot, js_Z. cbn [app].
  rewrite !strCompare_field by (cbn; lia).
  pose proof (calendar_fields_order t1 t2 (Day_mono t1 t2 ltac:(lia)))
    as (HY & HM).
  destruct (Z.compare_spec (YearFromTime t1) (YearFromTime t2))
    as [EY|?|?]; [|reflexivity|lia].
  destruct (HM EY) as (HM1 & HD).
  destruct (Z.compare_spec (MonthFromTime t1 + 1) (MonthFromTime t2 + 1))
    as [EM|?|?]; [|reflexivity|lia].
  destruct (HD ltac:(lia)) as (HD1 & Hday).
  destruct (Z.compare_spec (DateFromTime t1) (DateFromTime t2))
    as [ED|?|?]; [|reflexivity|lia].
  pose proof (clock_fields_order t1 t2 (Hday ED) ltac:(lia)) as (Hh & Hm).
  destruct (Z.compare_spec (HourFromTime t1) (HourFromTime t2))
    as [Eh|?|?]; [|reflexivity|lia].
  destruct (Hm Eh) as (Hm1 & Hs).
  destruct (Z.compare_spec (MinFromTime t1) (MinFromTime t2))
    as [Em|?|?]; [|reflexivity|lia].
  destruct (Hs Em) as (Hs1 & Hms).
  destruct (Z.compare_spec (SecFromTime t1) (SecFromTime t2))
    as [Es|?|?]; [|reflexivity|lia].
  destruct (Hms Es) as (Hms1 & Heq).
  destruct (Z.compare_spec (msFromTime t1) (msFromTime t2))
    as [Ems|?|?]; [|reflexivity|lia].
  specialize (Heq Ems); lia.
Qed.

(** ISO strings of four-digit years compare as their instants do: the
    keys of the store sort chronologically. *)
Lemma toISOString_compare (t1 t2 : Z) :
  fourDigitYear t1 -> fourDigitYear t2 ->
  strCompare (toISOString t1) (toISOString t2) = (t1 ?= t2).
Proof.
  intros R1 R2. destruct (Z.compare_spec t1 t2) as [->|Hlt|Hgt].
  - apply strCompare_refl.
  - now apply toISOString_lt.
  - rewrite strCompare_antisym, (toISOString_lt t2 t1) by assumption.
    reflexivity.
Qed.

Lemma toISOString_inj (t1 t2 : Z) :
  fourDigitYear t1 -> fourDigitYear t2 ->
  toISOString t1 = toISOString t2 -> t1 = t2.
Proof.
  intros R1 R2 He. apply Z.compare_eq.
  rewrite <- toISOString_compare, He by assumption. apply strCompare_refl.
Qed.

Lemma strLe_toISOString (t1 t2 : Z) :
  fourDigitYear t1 -> fourDigitYear t2 ->
  strLe (toISOString t1) (toISOString t2) = (t1 <=? t2).
Proof.
  intros R1 R2. unfold strLe. rewrite toISOString_compare by assumption.
  unfold Z.leb. now destruct (t1 ?= t2).
Qed.

Lemma strLt_toISOString (t1 t2 : Z) :
  fourDigitYear t1 -> fourDigitYear t2 ->
  strLt (toISOString t1) (toISOString t2) = (t1 <? t2).
Proof.
  intros R1 R2. unfold strLt. rewrite toISOString_compare by assumption.
  unfold Z.ltb. now destruct (t1 ?= t2).
Qed.

(** ** Hours *)

Lemma setMinutes_floor (t : Z) :
  setMinutes t 0 0 0 = msPerHour * (t / msPerHour).
Proof.
  unfold setMinutes, MakeDate, MakeTime, Day, HourFromTime, msPerDay,
    msPerHour, msPerMinute, msPerSecond. zdiv.
Qed.

Lemma setHours_next (t : Z) : setHours t (getHours t + 1) = t + msPerHour.
Proof.
  unfold setHours, getHours, MakeDate, MakeTime, Day, HourFromTime,
    MinFromTime, SecFromTime, msFromTime, msPerDay, msPerHour, msPerMinute,
    msPerSecond. zdiv.
Qed.

Lemma fourDigitYear_floor (t : Z) :
  fourDigitYear t -> fourDigitYear (msPerHour * (t / msPerHour)).
Proof.
  unfold fourDigitYear, TimeFromYear.
  change (DayFromYear 0) with (-719528).
  change (DayFromYear 10000) with 2932897.
  unfold msPerDay, msPerHour. intros; zdiv.
Qed.

(** The first 13 code units of an ISO string: date and hour. *)
Lemma toISOString_hour_prefix (t : Z) :
  fourDigitYear t ->
  substring0 (toISOString t) 13 =
  padDigits 4 (YearFromTime t) ++ js "-" ++
  padDigits 2 (MonthFromTime t + 1) ++ js "-" ++
  padDigits 2 (DateFromTime t) ++ js "T" ++
  padDigits 2 (HourFromTime t).
Proof.
  intros R. unfold substring0.
  assert (toISOString t =
          (padDigits 4 (YearFromTime t) ++ js "-" ++
           padDigits 2 (MonthFromTime t + 1) ++ js "-" ++
           padDigits 2 (DateFromTime t) ++ js "T" ++
           padDigits 2 (HourFromTime t)) ++
          (js ":" ++ padDigits 2 (MinFromTime t) ++ js ":" ++
           padDigits 2 (SecFromTime t) ++ js "." ++
           padDigits 3 (msFromTime t) ++ js "Z")) as ->.
  { unfold toISOString. rewrite isoYear_four by assumption.
    rewrite <- !(assoc_L app). reflexivity. }
  apply take_app_length'.
  rewrite !length_app, !length_padDigits. reflexivity.
Qed.

Lemma hour_fields (t c : Z) :
  t / msPerHour = c / msPerHour ->
  Day t = Day c /\ HourFromTime t = HourFromTime c.
Proof. unfold Day, HourFromTime, msPerDay, msPerHour; intros; zdiv. Qed.

Lemma hour_prefix_same (t c : Z) :
  fourDigitYear t -> fourDigitYear c ->
  t / msPerHour = c / msPerHour ->
  substring0 (toISOString t) 13 = substring0 (toISOString c) 13.
Proof.
  intros Rt Rc [Hd Hh]%hour_fields.
  rewrite !toISOString_hour_prefix by assumption.
  unfold DateFromTime, MonthFromTime, InLeapYear, DayWithinYear, YearFromTime.
  now rewrite Hd, Hh.
Qed.

(** An hour-aligned instant prints its prefix followed by [:00:00.000Z]. *)
Lemma toISOString_aligned (h : Z) :
  fourDigitYear (msPerHour * h) ->
  toISOString (msPerHour * h) =
  substring0 (toISOString (msPerHour * h)) 13 ++ js ":00:00.000Z".
Proof.
  intros R. rewrite toISOString_hour_prefix by assumption.
  unfold toISOString at 1. rewrite isoYear_four by assumption.
  assert (MinFromTime (msPerHour * h) = 0) as ->
    by (unfold MinFromTime, msPerHour, msPerMinute; zdiv).
  assert (SecFromTime (msPerHour * h) = 0) as ->
    by (unfold SecFromTime, msPerHour, msPerSecond; zdiv).
  assert (msFromTime (msPerHour * h) = 0) as ->
    by (unfold msFromTime, msPerHour, msPerSecond; zdiv).
  rewrite <- !(assoc_L app). reflexivity.
Qed.

(** A key lies under the prefix of an hour exactly when its instant falls
    in that hour. *)
Lemma hour_prefix_iff (t c : Z) :
  fourDigitYear t -> fourDigitYear c ->
  startsWith (toISOString t) (substring0 (toISOString c) 13) = true <->
  t / msPerHour = c / msPerHour.
Proof.
  intros Rt Rc.
  assert (forall u, fourDigitYear u ->
            length (substring0 (toISOString u) 13) = 13%nat) as Hlen.
  { intros u Ru. rewrite toISOString_hour_prefix by assumption.
    rewrite !length_app, !length_padDigits. reflexivity. }
  rewrite startsWith_take, Hlen by assumption.
  fold (substring0 (toISOString t) 13).
  split; [|now apply hour_prefix_same].
  intros He.
  pose proof (fourDigitYear_floor t Rt) as Rt'.
  pose proof (fourDigitYear_floor c Rc) as Rc'.
  assert (toISOString (msPerHour * (t / msPerHour)) =
          toISOString (msPerHour * (c / msPerHour))) as Hiso.
  { rewrite (toISOString_aligned (t / msPerHour)),
      (toISOString_aligned (c / msPerHour)) by assumption.
    f_equal.
    rewrite <- (hour_prefix_same t (msPerHour * (t / msPerHour))),
      <- (hour_prefix_same c (msPerHour * (c / msPerHour))); trivial;
      unfold msPerHour; zdiv. }
  apply toISOString_inj in Hiso; trivial. unfold msPerHour in *; lia.
Qed.

End DateFacts.

(* ===================================================================== *)
(** * The stable sort *)
(* ===================================================================== *)

Section SortFacts.
Context {A : Type} (cmp : A -> A -> Z).

Lemma insertBy_Permutation (x : A) (l : list A) : insertBy cmp x l ≡ₚ x :: l.
Proof.
  induction l as [|y l IH]; cbn; [reflexivity|].
  destruct (cmp x y <=? 0); [reflexivity|].
  rewrite IH. apply Permutation_swap.
Qed.

Lemma sortBy_Permutation (l : list A) : sortBy cmp l ≡ₚ l.
Proof.
  induction l as [|x l IH]; cbn; [reflexivity|].
  fold (sortBy cmp l). now rewrite insertBy_Permutation, IH.
Qed.

Lemma length_sortBy (l : list A) : length (sortBy cmp l) = length l.
Proof. apply Permutation_length, sortBy_Permutation. Qed.

Lemma elem_of_sortBy (x : A) (l : list A) : x ∈ sortBy cmp l <-> x ∈ l.
Proof. now rewrite sortBy_Permutation. Qed.

(** Sorting a list orders it, for comparators that are transitive and
    total. *)
Section Sorted.
Hypothesis cmp_trans :
  forall a b c, cmp a b <= 0 -> cmp b c <= 0 -> cmp a c <= 0.
Hypothesis cmp_total : forall a b, 0 < cmp a b -> cmp b a <= 0.

Lemma insertBy_sorted (x : A) (l : list A) :
  StronglySorted (fun a b => cmp a b <= 0) l ->
  StronglySorted (fun a b => cmp a b <= 0) (insertBy cmp x l).
Proof.
  induction 1 as [|y l Hs IH Hy]; cbn.
  - repeat constructor.
  - destruct (Z.leb_spec (cmp x y) 0) as [Hle|Hgt].
    + constructor; [now constructor|].
      constructor; [exact Hle|].
      eapply Forall_impl; [exact Hy|]. cbn. eauto.
    + constructor; [exact IH|].
      rewrite insertBy_Permutation. constructor; auto.
Qed.

Lemma sortBy_sorted (l : list A) :
  StronglySorted (fun a b => cmp a b <= 0) (sortBy cmp l).
Proof.
  induction l as [|x l IH]; cbn; [constructor|].
  now apply insertBy_sorted.
Qed.
End Sorted.

(** Stability: elements that the comparator ties keep their order. *)
Section Stable.
Context (p : A -> bool).
Hypothesis tied : forall x y, p x = true -> p y = true -> cmp x y <= 0.

Lemma filter_insertBy (x : A) (l : list A) :
  List.filter p (insertBy cmp x l) = List.filter p (x :: l).
Proof.
  induction l as [|y l IH]; [reflexivity|].
  cbn [insertBy]. destruct (Z.leb_spec (cmp x y) 0) as [Hle|Hgt];
    [reflexivity|].
  cbn [List.filter] in *. rewrite IH.
  destruct (p x) eqn:Ex, (p y) eqn:Ey; try reflexivity.
  specialize (tied x y Ex Ey). lia.
Qed.

Lemma filter_sortBy (l : list A) :
  List.filter p (sortBy cmp l) = List.filter p l.
Proof.
  induction l as [|x l IH]; [reflexivity|].
  cbn [sortBy foldr]. fold (sortBy cmp l).
  rewrite filter_insertBy. cbn [List.filter]. now rewrite IH.
Qed.
End Stable.
End SortFacts.

(* ===================================================================== *)
(** * The reply parser *)
(* ===================================================================== *)

Section RegexFacts.
Context {A : Type}.
Implicit Types (m k : jsstring -> option A) (s lit : jsstring).

Lemma search_here m s r : m s = Some r -> search m s = Some r.
Proof. intros Hm. destruct s; cbn; now rewrite Hm. Qed.

Lemma search_cons_none m c s :
  m (c :: s) = None -> search m (c :: s) = search m s.
Proof. intros Hm. cbn. now rewrite Hm. Qed.

Lemma search_is_Some m s :
  is_Some (search m s) <-> exists pre suf, s = pre ++ suf /\ is_Some (m suf).
Proof.
  split.
  - induction s as [|c s IH]; cbn.
    + destruct (m []) eqn:E; [|intros []; discriminate].
      intros _. exists [], []. rewrite E. eauto.
    + destruct (m (c :: s)) eqn:E.
      * intros _. exists [], (c :: s). rewrite E. eauto.
      * intros (pre & suf & -> & Hs)%IH. exists (c :: pre), suf. eauto.
  - intros (pre & suf & -> & [r Hr]).
    induction pre as [|c pre IH]; cbn [app].
    + rewrite (search_here _ _ _ Hr). eauto.
    + cbn. destruct (m (c :: pre ++ suf)); eauto.
Qed.

Lemma literal_is_Some lit k s :
  is_Some (literal lit k s) <->
  exists rest, s = lit ++ rest /\ is_Some (k rest).
Proof.
  unfold literal. destruct (startsWith s lit) eqn:E.
  - apply startsWith_prefix in E as [rest ->].
    rewrite drop_app_length. split; [eauto|].
    now intros (rest' & ->%app_inv_head & Hk).
  - split; [intros []; discriminate|].
    intros (rest & -> & _).
    assert (startsWith (lit ++ rest) lit = true) as E'
      by (apply startsWith_prefix; now exists rest).
    congruence.
Qed.
End RegexFacts.

Lemma takeWhile_app_stop {A} (p : A -> bool) (l : list A) (x : A) (r : list A) :
  forallb p l = true -> p x = false -> takeWhile p (l ++ x :: r) = l.
Proof.
  induction l as [|y l IH]; cbn; intros Hl Hx.
  - now rewrite Hx.
  - apply andb_true_iff in Hl as [-> Hl]. now rewrite IH.
Qed.

Lemma run_is_Some (ok : N -> bool) (s : jsstring) :
  is_Some (run ok s) <-> exists c rest, s = c :: rest /\ ok c = true.
Proof.
  unfold run. destruct s as [|c s]; cbn.
  - split; [intros []; discriminate|]. now intros (? & ? & ? & _).
  - destruct (ok c) eqn:E.
    + split; eauto.
    + split; [intros []; discriminate|].
      intros (? & ? & [= <- <-] & ?); congruence.
Qed.

Lemma skipSpaces_run_is_Some (ok : N -> bool) (s : jsstring) :
  is_Some (skipSpaces (run ok) s) <->
  exists ws c rest,
    s = ws ++ c :: rest /\ forallb isWhiteSpace ws = true /\ ok c = true.
Proof.
  split.
  - induction s as [|c s IH]; cbn [skipSpaces].
    + intros (? & ? & ? & _)%run_is_Some; discriminate.
    + destruct (isWhiteSpace c) eqn:Ew.
      * destruct (skipSpaces (run ok) s) eqn:E.
        -- intros _. destruct IH as (ws & c' & rest & -> & Hws & Hok); [eauto|].
           exists (c :: ws), c', rest. cbn. rewrite Ew, Hws. eauto.
        -- intros (c' & rest & [= <- <-] & Hok)%run_is_Some.
           exists [], c, s. eauto.
      * intros (c' & rest & [= <- <-] & Hok)%run_is_Some.
        exists [], c, s. eauto.
  - intros (ws & c & rest & -> & Hws & Hok).
    assert (is_Some (run ok (c :: rest))) as Hrun
      by (apply run_is_Some; eauto).
    induction ws as [|w ws IH]; cbn [app skipSpaces].
    + destruct (isWhiteSpace c); [|exact Hrun].
      destruct (skipSpaces (run ok) rest); eauto.
    + apply andb_true_iff in Hws as [Hw Hws]. rewrite Hw.
      destruct (IH Hws) as [r ->]. eauto.
Qed.

(** A score or concepts pattern matches somewhere exactly when its label
    occurs followed by white space and a first character of the group. *)
Lemma matched_iff_labelled (lit : jsstring) (ok : N -> bool) (content : jsstring) :
  is_Some (search (literal lit (skipSpaces (run ok))) content) <->
  labelled lit ok content.
Proof.
  rewrite search_is_Some. unfold labelled. split.
  - intros (pre & suf & -> & (rest & -> & Hk)%literal_is_Some).
    apply skipSpaces_run_is_Some in Hk as (ws & c & rest' & -> & Hws & Hok).
    exists pre, ws, c, rest'. eauto.
  - intros (pre & ws & c & rest & -> & Hws & Hok).
    exists pre, (lit ++ ws ++ c :: rest). split; [reflexivity|].
    apply literal_is_Some. exists (ws ++ c :: rest). split; [reflexivity|].
    apply skipSpaces_run_is_Some. eauto 10.
Qed.

Lemma includes_iff (s lit : jsstring) :
  includes s lit = true <-> exists pre rest, s = pre ++ lit ++ rest.
Proof.
  split.
  - induction s as [|c s IH]; cbn [includes]; rewrite orb_true_iff.
    + intros [[rest ->]%startsWith_prefix|]; [|discriminate].
      now exists [], rest.
    + intros [[rest ->]%startsWith_prefix|(pre & rest & ->)%IH].
      * now exists [], rest.
      * now exists (c :: pre), rest.
  - intros (pre & rest & ->). induction pre as [|c pre IH]; cbn [app].
    + assert (startsWith (lit ++ rest) lit = true) as E
        by (apply startsWith_prefix; now exists rest).
      destruct (lit ++ rest); cbn [includes]; now rewrite E.
    + cbn [includes]. rewrite IH. apply orb_true_r.
Qed.

Lemma labelled_includes (name colon : jsstring) (ok : N -> bool)
    (content : jsstring) :
  labelled (name ++ colon) ok content -> includes content name = true.
Proof.
  intros (pre & ws & c & rest & -> & _). apply includes_iff.
  exists pre, (colon ++ ws ++ c :: rest). now rewrite <- (assoc_L app).
Qed.

Lemma digitOrDot_range (c : N) :
  isDigitOrDot c = true -> (46 <= c <= 57)%N.
Proof.
  unfold isDigitOrDot, isDigit.
  destruct (N.leb_spec 48 c), (N.leb_spec c 57), (N.eqb_spec c 46);
    cbn; try discriminate; lia.
Qed.

Lemma digitOrDot_not_space (c : N) :
  isDigitOrDot c = true -> isWhiteSpace c = false.
Proof.
  intros Hc%digitOrDot_range.
  assert (c = 46 \/ c = 47 \/ c = 48 \/ c = 49 \/ c = 50 \/ c = 51 \/
          c = 52 \/ c = 53 \/ c = 54 \/ c = 55 \/ c = 56 \/ c = 57)%N
    as Hcases by lia.
  intuition subst; reflexivity.
Qed.

(** A run of digits and dots ended by a line feed is captured whole. *)
Lemma skipSpaces_digitRun (v rest : jsstring) :
  digitRun v -> skipSpaces digitsDots (v ++ 10%N :: rest) = Some v.
Proof.
  intros [Hne Hv]. destruct v as [|d v]; [easy|]. clear Hne.
  pose proof Hv as Hd. cbn in Hd. apply andb_true_iff in Hd as [Hd _].
  cbn [app skipSpaces]. rewrite (digitOrDot_not_space d Hd).
  unfold digitsDots, run.
  change (d :: v ++ 10%N :: rest) with ((d :: v) ++ 10%N :: rest).
  now rewrite takeWhile_app_stop.
Qed.

(** A pattern whose label starts with a letter matches nowhere inside a
    run of digits and dots. *)
Lemma search_skip_run {A} (l0 : N) (lit : jsstring)
    (k : jsstring -> option A) (v s : jsstring) :
  isDigitOrDot l0 = false -> forallb isDigitOrDot v = true ->
  search (literal (l0 :: lit) k) (v ++ s) = search (literal (l0 :: lit) k) s.
Proof.
  intros Hl. induction v as [|d v IH]; [reflexivity|].
  cbn [forallb]. intros [Hd Hv]%andb_true_iff.
  cbn [app]. rewrite search_cons_none; [auto|].
  unfold literal. cbn [startsWith].
  destruct (N.eqb_spec d l0) as [->|]; [congruence|reflexivity].
Qed.

Section ParserFacts.
Context {num : Type} `{Number num}.

Lemma matchScore_is_Some (label : string) (content : jsstring) :
  is_Some (matchScore label content) <->
  labelled (js label ++ js ":") isDigitOrDot content.
Proof. apply matched_iff_labelled. Qed.

Lemma matchConcepts_is_Some (content : jsstring) :
  is_Some (matchConcepts content) <->
  labelled (js "concepts:") (fun c => negb (isLineTerminator c)) content.
Proof. apply matched_iff_labelled. Qed.

(** The reason of a parse failure is the reply itself. *)
Lemma parse_Failure_reason (content e : jsstring) :
  parseSentimentResponse content = Failure e -> e = content.
Proof.
  unfold parseSentimentResponse.
  repeat match goal with
         | |- context [match ?m with Some _ => _ | None => _ end] =>
             destruct m
         end; congruence.
Qed.

Lemma parse_Success_iff (content : jsstring) :
  (exists s, parseSentimentResponse content = Success s) <->
  wellFormedReply content.
Proof.
  unfold wellFormedReply. split.
  - intros [s Hs]. unfold parseSentimentResponse in Hs.
    destruct (matchScore "happiness" content) eqn:E1; [|discriminate].
    destruct (matchScore "sadness" content) eqn:E2; [|discriminate].
    destruct (matchScore "anger" content) eqn:E3; [|discriminate].
    destruct (matchScore "fear" content) eqn:E4; [|discriminate].
    destruct (matchScore "surprise" content) eqn:E5; [|discriminate].
    destruct (matchScore "disgust" content) eqn:E6; [|discriminate].
    destruct (matchConcepts content) eqn:E7; [|discriminate].
    split.
    + intros label Hin. apply matchScore_is_Some.
      cbn in Hin. intuition subst; eauto.
    + apply matchConcepts_is_Some. eauto.
  - intros [Hs Hc]. unfold parseSentimentResponse.
    destruct (proj2 (matchScore_is_Some "happiness" content)) as [? ->];
      [apply Hs; cbn; tauto|].
    destruct (proj2 (matchScore_is_Some "sadness" content)) as [? ->];
      [apply Hs; cbn; tauto|].
    destruct (proj2 (matchScore_is_Some "anger" content)) as [? ->];
      [apply Hs; cbn; tauto|].
    destruct (proj2 (matchScore_is_Some "fear" content)) as [? ->];
      [apply Hs; cbn; tauto|].
    destruct (proj2 (matchScore_is_Some "surprise" content)) as [? ->];
      [apply Hs; cbn; tauto|].
    destruct (proj2 (matchScore_is_Some "disgust" content)) as [? ->];
      [apply Hs; cbn; tauto|].
    destruct (proj2 (matchConcepts_is_Some content)) as [? ->]; [exact Hc|].
    eauto.
Qed.

Lemma missing_label_not_wellFormed (content : jsstring) (label : string) :
  In label requiredLabels -> includes content (js label) = false ->
  ~ wellFormedReply content.
Proof.
  intros Hin Hmiss [Hs Hc].
  apply in_app_or in Hin as [Hin|[<-|[]]].
  - apply Hs, labelled_includes in Hin. congruence.
  - change (js "concepts:") with (js "concepts" ++ js ":") in Hc.
    apply labelled_includes in Hc. congruence.
Qed.

(** C5, as the code has it.  A reply that lacks one of the seven labels
    is a failure whose reason is the whole reply.  A reply parses
    exactly when it is well formed: every score label is followed by a
    colon, optional white space and a digit or a dot, and [concepts:] by
    optional white space and a character of its line; where the fields
    stand in the reply, and in which order, does not matter.  Every
    other reply is a failure whose reason is the whole reply. *)
Theorem parse_malformed_unless_well_formed (content : jsstring) :
  (forall label, In label requiredLabels ->
     includes content (js label) = false ->
     parseSentimentResponse content = Failure content) /\
  (wellFormedReply content ->
     exists s, parseSentimentResponse content = Success s) /\
  (~ wellFormedReply content ->
     parseSentimentResponse content = Failure content).
Proof.
  assert (~ wellFormedReply content ->
          parseSentimentResponse content = Failure content) as Hfail.
  { intros Hn. destruct (parseSentimentResponse content) as [s|e] eqn:E.
    - exfalso. apply Hn, parse_Success_iff. eauto.
    - now apply parse_Failure_reason in E as ->. }
  split; [|split].
  - intros label Hin Hmiss.
    eauto using missing_label_not_wellFormed.
  - apply parse_Success_iff.
  - exact Hfail.
Qed.

(** Only the reply [NO SENTIMENT], as it stands, yields that reason. *)
Lemma parse_sentinel_iff (content : jsstring) :
  parseSentimentResponse content = Failure (js "NO SENTIMENT") <->
  content = js "NO SENTIMENT".
Proof.
  split.
  - intros Hp. now apply parse_Failure_reason in Hp.
  - intros ->. reflexivity.
Qed.
End ParserFacts.

(** ** Sliding a pattern over a reply *)

Ltac concrete_js :=
  repeat match goal with
         | |- context [js ?s] =>
             let l := eval vm_compute in (js s) in change (js s) with l
         end.

(** Slide a pattern over what cannot match: literal code units, and runs
    of digits and dots. *)
Ltac slide :=
  repeat first
    [ rewrite search_cons_none by reflexivity
    | rewrite search_skip_run by (reflexivity || assumption) ].



(** ** What a pattern captures, and where *)

Section Captures.
Context {A : Type}.
Implicit Types (m k : jsstring -> option A) (s lit : jsstring).

Lemma search_Some m s r :
  search m s = Some r -> exists pre suf, s = pre ++ suf /\ m suf = Some r.
Proof.
  induction s as [|c s IH]; cbn.
  - destruct (m []) eqn:E; [|discriminate]. intros [= <-]. now exists [], [].
  - destruct (m (c :: s)) eqn:E.
    + intros [= <-]. now exists [], (c :: s).
    + intros (pre & suf & -> & Hs)%IH. now exists (c :: pre), suf.
Qed.

Lemma literal_Some lit k s r :
  literal lit k s = Some r -> exists rest, s = lit ++ rest /\ k rest = Some r.
Proof.
  unfold literal. destruct (startsWith s lit) eqn:E; [|discriminate].
  apply startsWith_prefix in E as [rest ->]. rewrite drop_app_length. eauto.
Qed.

Lemma skipSpaces_Some k s r :
  skipSpaces k s = Some r ->
  exists ws rest,
    s = ws ++ rest /\ forallb isWhiteSpace ws = true /\ k rest = Some r.
Proof.
  induction s as [|c s IH]; cbn [skipSpaces].
  - intros Hk. now exists [], [].
  - destruct (isWhiteSpace c) eqn:Ew.
    + destruct (skipSpaces k s) as [r'|] eqn:E.
      * intros [= <-]. destruct (IH eq_refl) as (ws & rest & -> & Hws & Hk).
        exists (c :: ws), rest. cbn. now rewrite Ew, Hws.
      * intros Hk. now exists [], (c :: s).
    + intros Hk. now exists [], (c :: s).
Qed.
End Captures.

Section Scanning.
Context {A : Type} (p : A -> bool).

Lemma forallb_takeWhile (l : list A) : forallb p (takeWhile p l) = true.
Proof.
  induction l as [|x l IH]; cbn; [reflexivity|].
  destruct (p x) eqn:E; cbn; [now rewrite E|reflexivity].
Qed.

Lemma takeWhile_dropWhile (l : list A) :
  takeWhile p l ++ dropWhile p l = l.
Proof.
  induction l as [|x l IH]; cbn; [reflexivity|].
  destruct (p x); cbn; [now rewrite IH|reflexivity].
Qed.

Lemma dropWhile_head (l : list A) (x : A) (l' : list A) :
  dropWhile p l = x :: l' -> p x = false.
Proof.
  induction l as [|y l IH]; cbn; [discriminate|].
  destruct (p y) eqn:E; [exact IH|]. now intros [= <- <-].
Qed.

Lemma elem_of_dropWhile (l : list A) (x : A) : x ∈ dropWhile p l -> x ∈ l.
Proof.
  rewrite <- (takeWhile_dropWhile l) at 2. rewrite elem_of_app. auto.
Qed.
End Scanning.

Lemma run_Some (ok : N -> bool) (s cap : jsstring) :
  run ok s = Some cap ->
  cap <> [] /\ forallb ok cap = true /\ exists rest, s = cap ++ rest.
Proof.
  unfold run. pose proof (forallb_takeWhile ok s) as Hall.
  pose proof (takeWhile_dropWhile ok s) as Hsplit.
  destruct (takeWhile ok s) as [|c cap']; [discriminate|].
  intros [= <-]. split; [discriminate|]. split; [exact Hall|]. eauto.
Qed.

(** What a pattern of the parser captures: a run of accepted code units,
    not empty, that stands in the reply after the label and white
    space. *)
Lemma capture_Some (lit : jsstring) (ok : N -> bool) (content cap : jsstring) :
  search (literal lit (skipSpaces (run ok))) content = Some cap ->
  cap <> [] /\ forallb ok cap = true /\
  exists pre ws rest,
    content = pre ++ lit ++ ws ++ cap ++ rest /\
    forallb isWhiteSpace ws = true.
Proof.
  intros (pre & suf & -> & (rest & -> & Hk)%literal_Some)%search_Some.
  apply skipSpaces_Some in Hk as (ws & rest' & -> & Hws & Hrun).
  apply run_Some in Hrun as (Hne & Hok & rest'' & ->). eauto 10.
Qed.

Lemma takeWhile_whole {A} (p : A -> bool) (l r : list A) :
  forallb p l = true ->
  match r with [] => True | x :: _ => p x = false end ->
  takeWhile p (l ++ r) = l.
Proof.
  intros Hl Hr. induction l as [|y l IH]; cbn.
  - destruct r as [|x r]; [reflexivity|]. cbn. now rewrite Hr.
  - cbn in Hl. apply andb_true_iff in Hl as [-> Hl]. now rewrite IH.
Qed.

Lemma run_Some_iff (ok : N -> bool) (s cap : jsstring) :
  run ok s = Some cap <->
  cap <> [] /\ forallb ok cap = true /\
  exists rest,
    s = cap ++ rest /\ match rest with [] => True | c :: _ => ok c = false end.
Proof.
  split.
  - unfold run. pose proof (forallb_takeWhile ok s) as Hall.
    pose proof (takeWhile_dropWhile ok s) as Hsplit.
    pose proof (dropWhile_head ok s) as Hstop.
    destruct (takeWhile ok s) as [|c cap']; [discriminate|].
    intros [= <-]. split; [discriminate|]. split; [exact Hall|].
    exists (dropWhile ok s). split; [now rewrite Hsplit|].
    destruct (dropWhile ok s) as [|x rest]; [exact I|]. eauto.
  - intros (Hne & Hall & rest & -> & Hstop). unfold run.
    rewrite takeWhile_whole by assumption. now destruct cap.
Qed.

Lemma skipSpaces_app {A} (k : jsstring -> option A) (ws s : jsstring) (r : A) :
  forallb isWhiteSpace ws = true -> skipSpaces k s = Some r ->
  skipSpaces k (ws ++ s) = Some r.
Proof.
  intros Hws Hk. induction ws as [|w ws IH]; [exact Hk|].
  cbn in Hws. apply andb_true_iff in Hws as [Hw Hws].
  cbn [app skipSpaces]. now rewrite Hw, IH.
Qed.

(** The leftmost match: the pattern matches at a place, and at no place
    before. *)
Lemma search_Some_first {A} (m : jsstring -> option A) (s : jsstring) (r : A) :
  search m s = Some r <->
  exists pre suf,
    s = pre ++ suf /\ m suf = Some r /\
    forall p1 p2, pre = p1 ++ p2 -> p2 <> [] -> m (p2 ++ suf) = None.
Proof.
  split.
  - induction s as [|c s IH]; cbn.
    + destruct (m []) eqn:E; [|discriminate]. intros [= <-].
      exists [], []. split; [reflexivity|]. split; [assumption|].
      intros p1 p2 Hp. symmetry in Hp. apply app_eq_nil in Hp as [_ ->].
      congruence.
    + destruct (m (c :: s)) eqn:E.
      * intros [= <-]. exists [], (c :: s). split; [reflexivity|].
        split; [assumption|].
        intros p1 p2 Hp. symmetry in Hp. apply app_eq_nil in Hp as [_ ->].
        congruence.
      * intros (pre & suf & -> & Hs & Hfirst)%IH.
        exists (c :: pre), suf. split; [reflexivity|]. split; [assumption|].
        intros [|x p1] p2 Hp Hne; cbn in Hp.
        -- subst p2. exact E.
        -- injection Hp as _ ->. eauto.
  - intros (pre & suf & -> & Hs & Hfirst).
    induction pre as [|c pre IH]; cbn [app].
    + now apply search_here.
    + rewrite search_cons_none.
      * apply IH. intros p1 p2 -> Hne. apply (Hfirst (c :: p1)); trivial.
      * apply (Hfirst [] (c :: pre)); [reflexivity|discriminate].
Qed.

Lemma scoreAt_iff (lit s : jsstring) :
  scoreAt lit s <-> is_Some (literal lit (skipSpaces digitsDots) s).
Proof.
  unfold scoreAt. rewrite literal_is_Some. split.
  - intros (ws & c & rest & -> & Hws & Hc). exists (ws ++ c :: rest).
    split; [reflexivity|]. apply skipSpaces_run_is_Some. eauto 10.
  - intros (rest & -> & (ws & c & rest' & -> & Hws & Hc)%skipSpaces_run_is_Some).
    eauto 10.
Qed.

(** A score pattern at the start of a string captures the run of digits
    and dots that follows the label and the white space, whole. *)
Lemma scoreHere_iff (lit s v : jsstring) :
  literal lit (skipSpaces digitsDots) s = Some v <->
  exists ws rest,
    s = lit ++ ws ++ v ++ rest /\ forallb isWhiteSpace ws = true /\
    digitRun v /\
    match rest with [] => True | c :: _ => isDigitOrDot c = false end.
Proof.
  split.
  - intros (rest0 & -> & Hk)%literal_Some.
    apply skipSpaces_Some in Hk as (ws & rest1 & -> & Hws & Hrun).
    apply run_Some_iff in Hrun as (Hne & Hall & rest & -> & Hstop).
    exists ws, rest. repeat split; assumption.
  - intros (ws & rest & -> & Hws & [Hne Hall] & Hstop).
    unfold literal.
    rewrite (proj2 (startsWith_prefix _ _)) by (now exists (ws ++ v ++ rest)).
    rewrite drop_app_length. apply skipSpaces_app; [assumption|].
    destruct v as [|d v]; [congruence|].
    pose proof Hall as Hd. cbn in Hd. apply andb_true_iff in Hd as [Hd _].
    cbn [app skipSpaces]. rewrite (digitOrDot_not_space d Hd).
    apply run_Some_iff. split; [discriminate|]. split; [assumption|].
    now exists rest.
Qed.

(** What a score pattern gives is the value the reply writes first for
    its label. *)
Lemma matchScore_firstScore (label : string) (content v : jsstring) :
  matchScore label content = Some v <-> firstScore label content v.
Proof.
  unfold matchScore, firstScore. rewrite search_Some_first. split.
  - intros (pre & suf & -> & Hm & Hfirst).
    apply scoreHere_iff in Hm as (ws & rest & -> & Hws & Hv & Hstop).
    exists pre, ws, rest.
    repeat (split; [assumption || reflexivity|]).
    intros p1 p2 Hp Hne Hat%scoreAt_iff.
    rewrite (Hfirst p1 p2 Hp Hne) in Hat. now destruct Hat.
  - intros (pre & ws & rest & -> & Hws & Hv & Hstop & Hfirst).
    exists pre, ((js label ++ js ":") ++ ws ++ v ++ rest).
    split; [reflexivity|]. split.
    + apply scoreHere_iff. exists ws, rest. auto.
    + intros p1 p2 Hp Hne.
      destruct (literal _ _ (p2 ++ _)) eqn:E; [|reflexivity].
      exfalso. apply (Hfirst p1 p2 Hp Hne), scoreAt_iff. eauto.
Qed.

(** A label that is followed by a minus sign wherever it stands is
    matched nowhere. *)
Lemma minus_not_matched (label : string) (content : jsstring) :
  minusEverywhere (js label ++ js ":") content ->
  matchScore label content = None.
Proof.
  intros Hminus. destruct (matchScore label content) as [v|] eqn:E;
    [|reflexivity].
  exfalso. apply matchScore_firstScore in E
    as (pre & ws & rest & Hc & Hws & [Hne Hall] & _).
  destruct (Hminus pre (ws ++ v ++ rest)) as (ws' & rest' & Heq & Hws').
  { now rewrite Hc, <- !(assoc_L app). }
  destruct v as [|d v]; [congruence|].
  cbn in Hall. apply andb_true_iff in Hall as [Hd _].
  clear Hc Hne. revert ws' Hws' Heq.
  induction ws as [|w ws IH]; intros [|w' ws'] Hws' Heq; cbn in *.
  - injection Heq as -> _. discriminate Hd.
  - injection Heq as -> _. apply andb_true_iff in Hws' as [Hw _].
    rewrite (digitOrDot_not_space _ Hd) in Hw. discriminate.
  - injection Heq as -> _. apply andb_true_iff in Hws as [Hw _].
    discriminate Hw.
  - injection Heq as -> Heq. apply andb_true_iff in Hws as [_ Hws].
    apply andb_true_iff in Hws' as [_ Hws']. eauto.
Qed.

Lemma minusAfterEvery_here (lit s : jsstring) :
  minusAfterEvery lit s = true -> startsWith s lit = true ->
  match dropWhile isWhiteSpace (drop (length lit) s) with
  | 45%N :: _ => true
  | _ => false
  end = true.
Proof.
  destruct s; cbn [minusAfterEvery]; intros [Hh _]%andb_true_iff Hs;
    rewrite Hs in Hh; exact Hh.
Qed.

(** The checker finds a minus sign after the label wherever it stands. *)
Lemma minusAfterEvery_sound (lit content : jsstring) :
  minusAfterEvery lit content = true -> minusEverywhere lit content.
Proof.
  intros Hall pre. revert content Hall.
  induction pre as [|c pre IH]; intros content Hall rest ->.
  - assert (startsWith (lit ++ rest) lit = true) as Hs
      by (apply startsWith_prefix; now exists rest).
    cbn [app] in Hall.
    pose proof (minusAfterEvery_here _ _ Hall Hs) as Hm.
    rewrite drop_app_length in Hm.
    pose proof (takeWhile_dropWhile isWhiteSpace rest) as Hsplit.
    pose proof (forallb_takeWhile isWhiteSpace rest) as Hws.
    destruct (dropWhile isWhiteSpace rest) as [|x rest']; [discriminate|].
    exists (takeWhile isWhiteSpace rest), rest'.
    split; [|assumption]. rewrite <- Hsplit at 1.
    destruct (N.eqb_spec x 45) as [->|Hne]; [reflexivity|].
    exfalso. destruct x as [|p]; [discriminate|].
    repeat (destruct p as [p|p|]; try discriminate). congruence.
  - cbn [app minusAfterEvery] in Hall.
    apply andb_true_iff in Hall as [_ Hall]. eauto.
Qed.

Section ScoresNotValidated.
Context {num : Type} `{Number num}.

(** C7, as the code has it.  Wherever the fields of a reply stand and
    in whatever order: when the reply writes for each of the six score
    labels a run of digits and dots (after the colon and optional white
    space) and carries text on its concepts line, it is accepted
    whatever the values are (fractional, above 9), and each score is
    [parseFloat] of the run written first for its label, handed on as
    it is; every [Success] arises this way.  A minus sign is not part of
    such a run: a reply in which a score label is followed, wherever it
    stands, by a minus sign is a failure whose reason is the reply. *)
Theorem scores_read_as_written (content : jsstring) :
  (forall h s a f su d,
     firstScore "happiness" content h -> firstScore "sadness" content s ->
     firstScore "anger" content a -> firstScore "fear" content f ->
     firstScore "surprise" content su -> firstScore "disgust" content d ->
     labelled (js "concepts:") (fun c => negb (isLineTerminator c)) content ->
     exists concepts,
       parseSentimentResponse content =
       Success {| happiness := parseFloat h; sadness := parseFloat s;
                  anger := parseFloat a; fear := parseFloat f;
                  surprise := parseFloat su; disgust := parseFloat d;
                  concepts := concepts |}) /\
  (forall sc,
     parseSentimentResponse content = Success sc ->
     exists h s a f su d,
       firstScore "happiness" content h /\ firstScore "sadness" content s /\
       firstScore "anger" content a /\ firstScore "fear" content f /\
       firstScore "surprise" content su /\ firstScore "disgust" content d /\
       happiness sc = parseFloat h /\ sadness sc = parseFloat s /\
       anger sc = parseFloat a /\ fear sc = parseFloat f /\
       surprise sc = parseFloat su /\ disgust sc = parseFloat d) /\
  (forall label,
     In label scoreLabels ->
     minusEverywhere (js label ++ js ":") content ->
     parseSentimentResponse content = Failure content).
Proof.
  split; [|split].
  - intros h s a f su d Hh Hs Ha Hf Hsu Hd Hc.
    apply matchScore_firstScore in Hh, Hs, Ha, Hf, Hsu, Hd.
    apply matchConcepts_is_Some in Hc as [cap Hc].
    unfold parseSentimentResponse. rewrite Hh, Hs, Ha, Hf, Hsu, Hd, Hc.
    eauto.
  - intros sc. unfold parseSentimentResponse.
    destruct (matchScore "happiness" content) as [h|] eqn:E1; [|discriminate].
    destruct (matchScore "sadness" content) as [s|] eqn:E2; [|discriminate].
    destruct (matchScore "anger" content) as [a|] eqn:E3; [|discriminate].
    destruct (matchScore "fear" content) as [f|] eqn:E4; [|discriminate].
    destruct (matchScore "surprise" content) as [su|] eqn:E5; [|discriminate].
    destruct (matchScore "disgust" content) as [d|] eqn:E6; [|discriminate].
    destruct (matchConcepts content) as [cap|]; [|discriminate].
    intros [= <-]. exists h, s, a, f, su, d. cbn.
    apply matchScore_firstScore in E1, E2, E3, E4, E5, E6.
    repeat split; assumption.
  - intros label Hin Hminus. apply minus_not_matched in Hminus.
    unfold parseSentimentResponse.
    cbn in Hin. destruct Hin as [<-|[<-|[<-|[<-|[<-|[<-|[]]]]]]];
      rewrite Hminus;
      repeat match goal with
             | |- context [match ?m with Some _ => _ | None => _ end] =>
                 destruct m
             end; reflexivity.
Qed.
End ScoresNotValidated.

(* ===================================================================== *)
(** * The stream collector stops at its ceiling *)
(* ===================================================================== *)

Section CollectorInvariant.
Context {St : Type} (options : FirehoseOptions St).

Lemma stops_snoc (events : list StreamEvent) (ev : StreamEvent) :
  stops options (events ++ [ev]) <->
  stops options events \/
  match ev with
  | OnClose => True
  | OnTimeout => truthy (durationMs options) = true
  | OnCreate _ =>
      truthy (eventLimit options) = true /\
      default 0 (eventLimit options)
        < Z.of_nat (length (createdPosts events)) + 1
  | _ => False
  end.
Proof.
  unfold stops, createdPosts. rewrite omap_app, length_app, !elem_of_app.
  rewrite !list_elem_of_singleton.
  set (n := length (omap _ events)).
  destruct ev; cbn [omap list_omap length];
    intuition (try discriminate; try lia).
Qed.

Local Ltac settle :=
  cbn [negb] in *; rewrite ?andb_false_r, ?andb_true_r in *;
  intuition (eauto; try discriminate; try lia; try congruence).

Lemma tracked_connect (s : St) : tracked options [] (connect options s).
Proof.
  unfold tracked, connect, stops; cbn. rewrite andb_true_r.
  repeat split; try easy.
  - intros [x [=]].
  - intros [Hc|[[_ Hc]|[_ Hc]]]; try lia; now apply elem_of_nil in Hc.
Qed.

Lemma tracked_handle (events : list StreamEvent) (ev : StreamEvent)
    (c : Connection St) :
  tracked options events c ->
  tracked options (events ++ [ev]) (handle options c ev).
Proof.
  intros (Hn & Hr & Hc & Ht). unfold tracked. rewrite stops_snoc.
  assert (length (createdPosts (events ++ [ev]))
          = (length (createdPosts events)
             + length (createdPosts [ev]))%nat) as Hlen
    by (unfold createdPosts; now rewrite omap_app, length_app).
  rewrite Hlen. clear Hlen.
  destruct ev as [post|err| | |];
    cbn [handle createdPosts omap list_omap length].
  - (* a post *)
    unfold handleCreate. cbn.
    destruct (truthy (eventLimit options)) eqn:El; cbn [andb].
    + destruct (Z.ltb_spec (default 0 (eventLimit options)) (eventCount c + 1))
        as [Hover|Hunder].
      * unfold cleanup; cbn. destruct (isClosed c) eqn:E; cbn; rewrite ?E;
          (split; [lia|]); settle.
      * destruct (onPost options post (state c)) as [s'|e];
          unfold reportError; [|destruct (onError options)]; cbn;
          (split; [lia|]); settle.
    + destruct (onPost options post (state c)) as [s'|e];
        unfold reportError; [|destruct (onError options)]; cbn;
        (split; [lia|]); settle.
  - unfold reportError. destruct (onError options); cbn;
      (split; [lia|]); settle.
  - split; [lia|]. settle.
  - unfold cleanup. destruct (isClosed c) eqn:E; cbn; rewrite ?E;
      (split; [lia|]); settle.
  - rewrite Ht. destruct (truthy (durationMs options)) eqn:Ed; cbn [andb].
    + unfold cleanup. destruct (isClosed c) eqn:E; cbn; rewrite ?E;
        (split; [lia|]); settle.
    + split; [lia|]. rewrite Ht. settle.
Qed.

Lemma tracked_connectToFirehose (s : St) (events : list StreamEvent) :
  tracked options events (connectToFirehose options s events).
Proof.
  unfold connectToFirehose.
  induction events as [|ev events IH] using rev_ind.
  - apply tracked_connect.
  - rewrite fold_left_app. cbn [fold_left]. now apply tracked_handle.
Qed.
End CollectorInvariant.

Section FirehoseFacts.
Context {St : Type} (options : FirehoseOptions St) (N : Z).
Hypothesis limit_given : eventLimit options = Some N.
Hypothesis limit_positive : 1 <= N.

Lemma seen_connect (s : St) : seen N [] (connect options s).
Proof.
  unfold seen, connect; cbn. repeat split; try easy.
  - now rewrite take_nil.
  - lia.
Qed.

Lemma seen_cleanup (ps : list FirehosePost) (c : Connection St) :
  seen N ps c -> seen N ps (cleanup c).
Proof.
  unfold seen, cleanup. intros (Hn & Hc & Hr & Hl).
  destruct (isClosed c) eqn:E; cbn; rewrite ?E; eauto 10.
Qed.

Lemma seen_reportError (ps : list FirehosePost) (err : jsstring)
    (c : Connection St) :
  seen N ps c -> seen N ps (reportError options err c).
Proof. unfold seen, reportError. destruct (onError options); cbn; auto. Qed.

Lemma seen_handle (ps : list FirehosePost) (c : Connection St)
    (ev : StreamEvent) :
  seen N ps c -> seen N (ps ++ createdPosts [ev]) (handle options c ev).
Proof.
  intros Hs. destruct ev as [post| | | |]; cbn [createdPosts omap handle];
    rewrite ?app_nil_r;
    auto using seen_cleanup, seen_reportError.
  2: { destruct (timeout c); auto using seen_cleanup. }
  destruct Hs as (Hn & Hc & Hr & Hl).
  unfold handleCreate, truthy. rewrite limit_given. cbn.
  destruct (Z.eqb_spec N 0) as [|_]; [lia|]. cbn [negb andb].
  destruct (Z.ltb_spec N (eventCount c + 1)) as [Hover|Hunder].
  - (* beyond the ceiling: the post is dropped *)
    unfold seen, cleanup; cbn.
    assert (take (Z.to_nat N) (ps ++ [post]) = take (Z.to_nat N) ps) as Ht
      by (rewrite take_app_le by lia; reflexivity).
    destruct (isClosed c) eqn:E; cbn; rewrite ?E, ?Ht, ?length_app;
      cbn; repeat split; auto; lia.
  - (* within the ceiling: the post is handed to [onPost] *)
    assert (take (Z.to_nat N) (ps ++ [post]) = calls c ++ [post]) as Ht.
    { rewrite Hc, take_ge by (rewrite length_app; cbn; lia).
      now rewrite take_ge by lia. }
    destruct (onPost options post (state c)) as [s'|err];
      unfold seen, reportError; [|destruct (onError options)]; cbn;
      rewrite ?Ht, ?length_app; cbn; repeat split; auto; lia.
Qed.

Lemma seen_connectToFirehose (s : St) (events : list StreamEvent) :
  seen N (createdPosts events) (connectToFirehose options s events).
Proof.
  unfold connectToFirehose.
  induction events as [|ev events IH] using rev_ind.
  - apply seen_connect.
  - rewrite fold_left_app. cbn [fold_left].
    unfold createdPosts in *. rewrite omap_app. now apply seen_handle.
Qed.

(** C9, as the code has it.  With an event ceiling [N >= 1], [onPost] is
    called on the first [N] posts of the stream and on no other, so at
    most [N] times: the posts beyond the ceiling are dropped.  The
    collection does not stop when the ceiling is reached.  It stops when
    a post beyond the ceiling arrives: once the stream has announced
    more than [N] posts the connection is closed and the promise
    resolved; with [N] posts or fewer, and neither a close nor a timer
    that fires, the connection is open and the promise pending. *)
Theorem eventLimit_stops_collection (s : St) (events : list StreamEvent) :
  let c := connectToFirehose options s events in
  calls c = take (Z.to_nat N) (createdPosts events) /\
  Z.of_nat (length (calls c)) <= N /\
  (N < Z.of_nat (length (createdPosts events)) ->
   isClosed c = true /\ is_Some (resolved c)) /\
  (Z.of_nat (length (createdPosts events)) <= N ->
   OnClose ∉ events ->
   (truthy (durationMs options) = true -> OnTimeout ∉ events) ->
   isClosed c = false /\ resolved c = None).
Proof.
  cbv zeta. destruct (seen_connectToFirehose s events) as (Hn & Hc & Hr & Hl).
  split; [exact Hc|]. split; [|split].
  - rewrite Hc, length_take. lia.
  - intros Hover. rewrite <- Hn in Hover. auto.
  - intros Hunder Hclose Htimer.
    destruct (tracked_connectToFirehose options s events)
      as (_ & Hres & Hstop & _).
    assert (~ stops options events) as Hgo.
    { intros [?|[[? ?]|[_ ?]]]; [contradiction|now apply Htimer|].
      rewrite limit_given in *. cbn in *. lia. }
    destruct (isClosed _) eqn:E; [exfalso; now apply Hgo, Hstop|].
    split; [reflexivity|].
    destruct (resolved _) eqn:Er; [|reflexivity].
    assert (false = true) by (apply Hres; eauto). discriminate.
Qed.
End FirehoseFacts.

Section UpdateMetersCollector.
Lemma buffered_cleanup (c : Connection (list FirehosePost)) :
  buffered c -> buffered (cleanup c).
Proof.
  unfold buffered, cleanup. intros [Hs Hr].
  destruct (isClosed c); [auto|]. cbn. split; [assumption|].
  intros posts [= <-]. now rewrite Hs.
Qed.

Lemma buffered_handle (c : Connection (list FirehosePost)) (ev : StreamEvent) :
  buffered c -> buffered (handle updateMetersOptions c ev).
Proof.
  intros Hb. destruct ev as [post|err| | |]; cbn [handle];
    auto using buffered_cleanup.
  - unfold handleCreate. cbn.
    destruct (2000 <? eventCount c + 1); [now apply buffered_cleanup|].
    destruct Hb as [Hs Hr]. unfold buffered. cbn. split; [now rewrite Hs|].
    intros posts Hp. now apply prefix_app_r, Hr.
  - destruct (timeout c); auto using buffered_cleanup.
Qed.

(** The batch [updateMeters] analyses: at most the first 2000 posts of
    the stream. *)
Lemma updateMeters_batch (events : list StreamEvent)
    (collectedPosts : list FirehosePost) :
  resolved (connectToFirehose updateMetersOptions [] events)
    = Some collectedPosts ->
  collectedPosts `prefix_of` take 2000 (createdPosts events) /\
  (length collectedPosts <= 2000)%nat.
Proof.
  intros Hres.
  assert (buffered (connectToFirehose updateMetersOptions [] events)) as [_ Hb].
  { clear Hres. unfold connectToFirehose.
    induction events as [|ev events IH] using rev_ind.
    - split; [reflexivity|]. intros posts; discriminate.
    - rewrite fold_left_app. cbn [fold_left]. now apply buffered_handle. }
  pose proof (seen_connectToFirehose updateMetersOptions 2000 eq_refl
                ltac:(lia) [] events) as (_ & Hc & _).
  specialize (Hb _ Hres). rewrite Hc in Hb. split; [exact Hb|].
  apply prefix_length in Hb. rewrite length_take in Hb. lia.
Qed.
End UpdateMetersCollector.

(* ===================================================================== *)
(** * The aggregator *)
(* ===================================================================== *)

Section TallyFacts.
Context {num : Type} `{Number num} (toLowerCase : jsstring -> jsstring).

Local Abbreviation tally := (tally toLowerCase).
Local Abbreviation tallyAll := (tallyAll toLowerCase).
Local Abbreviation aggregate := (aggregate toLowerCase).

(** What the loop over the results leaves in its variables. *)
Lemma tally_fold (results : list (SentimentResult num)) (t : Tally num) :
  let t' := fold_left tally results t in
  let ok := successes results in
  t_messageCount t' = t_messageCount t + Z.of_nat (length ok) /\
  t_noSentimentCount t' =
    t_noSentimentCount t +
    Z.of_nat (length (filter (fun e => e = NO_SENTIMENT) (failureReasons results))) /\
  t_failureCount t' =
    t_failureCount t +
    Z.of_nat (length (filter (fun e => e <> NO_SENTIMENT) (failureReasons results))) /\
  sum_happiness t' = fold_left num_add (List.map happiness ok) (sum_happiness t) /\
  sum_sadness t' = fold_left num_add (List.map sadness ok) (sum_sadness t) /\
  sum_anger t' = fold_left num_add (List.map anger ok) (sum_anger t) /\
  sum_fear t' = fold_left num_add (List.map fear ok) (sum_fear t) /\
  sum_surprise t' = fold_left num_add (List.map surprise ok) (sum_surprise t) /\
  sum_disgust t' = fold_left num_add (List.map disgust ok) (sum_disgust t) /\
  conceptCounts t' =
    countConcepts toLowerCase (conceptCounts t)
      (concat (List.map concepts ok)).
Proof.
  cbv zeta. revert t. induction results as [|r results IH]; intros t.
  - cbn. repeat split; first [reflexivity | lia].
  - cbn [fold_left]. specialize (IH (tally t r)).
    destruct IH as (I1 & I2 & I3 & I4 & I5 & I6 & I7 & I8 & I9 & I10).
    rewrite I1, I2, I3, I4, I5, I6, I7, I8, I9, I10. clear.
    destruct r as [s|e]; cbn [successes failureReasons omap list_omap tally].
    + cbn. unfold countConcepts. rewrite fold_left_app.
      repeat split; first [reflexivity | unfold successes; lia].
    + unfold strEq. rewrite filter_cons, filter_cons.
      destruct (decide (e = NO_SENTIMENT)) as [->|Hne].
      * rewrite bool_decide_eq_true_2 by reflexivity.
        destruct (decide (NO_SENTIMENT <> NO_SENTIMENT)); [easy|].
        cbn. repeat split; first [reflexivity | unfold failureReasons; lia].
      * rewrite bool_decide_eq_false_2 by assumption.
        destruct (decide (e <> NO_SENTIMENT)); [|easy].
        cbn. repeat split; first [reflexivity | unfold failureReasons; lia].
Qed.

Lemma tallyAll_spec (results : list (SentimentResult num)) :
  let t := tallyAll results in
  let ok := successes results in
  t_messageCount t = Z.of_nat (length ok) /\
  t_noSentimentCount t =
    Z.of_nat (length (filter (fun e => e = NO_SENTIMENT) (failureReasons results))) /\
  t_failureCount t =
    Z.of_nat (length (filter (fun e => e <> NO_SENTIMENT) (failureReasons results))) /\
  sum_happiness t = fold_left num_add (List.map happiness ok) num_zero /\
  sum_sadness t = fold_left num_add (List.map sadness ok) num_zero /\
  sum_anger t = fold_left num_add (List.map anger ok) num_zero /\
  sum_fear t = fold_left num_add (List.map fear ok) num_zero /\
  sum_surprise t = fold_left num_add (List.map surprise ok) num_zero /\
  sum_disgust t = fold_left num_add (List.map disgust ok) num_zero /\
  conceptCounts t =
    countConcepts toLowerCase [] (concat (List.map concepts ok)).
Proof. exact (tally_fold results (emptyTally)). Qed.

(** A batch with a success yields a record whose averages are the means
    over the successes. *)
Lemma aggregate_means (results : list (SentimentResult num)) (now : Z) :
  (1 <= length (successes results))%nat ->
  exists data,
    aggregate results now = Some data /\
    messageCount data = Z.of_nat (length (successes results)) /\
    happinessAvg data = mean (List.map happiness (successes results)) /\
    sadnessAvg data = mean (List.map sadness (successes results)) /\
    angerAvg data = mean (List.map anger (successes results)) /\
    fearAvg data = mean (List.map fear (successes results)) /\
    surpriseAvg data = mean (List.map surprise (successes results)) /\
    disgustAvg data = mean (List.map disgust (successes results)).
Proof.
  intros Hn. unfold aggregate, mean.
  destruct (tallyAll_spec results)
    as (I1 & _ & _ & I4 & I5 & I6 & I7 & I8 & I9 & _).
  cbv zeta in *. rewrite I1, I4, I5, I6, I7, I8, I9.
  destruct (Z.ltb_spec 0 (Z.of_nat (length (successes results)))); [|lia].
  eexists. split; [reflexivity|]. cbn. rewrite !length_map. tauto.
Qed.

(** C2.  With at least one success in the batch, a record is produced,
    and each of its six averages is the arithmetic mean of that score
    over the successes alone: the failures of the batch, however many
    and wherever they stand, play no part. *)
Theorem averages_are_means_over_successes
    (results : list (SentimentResult num)) (now : Z) :
  (1 <= length (successes results))%nat ->
  exists data,
    aggregate results now = Some data /\
    messageCount data = Z.of_nat (length (successes results)) /\
    happinessAvg data = mean (List.map happiness (successes results)) /\
    sadnessAvg data = mean (List.map sadness (successes results)) /\
    angerAvg data = mean (List.map anger (successes results)) /\
    fearAvg data = mean (List.map fear (successes results)) /\
    surpriseAvg data = mean (List.map surprise (successes results)) /\
    disgustAvg data = mean (List.map disgust (successes results)) /\
    forall results' now',
      successes results' = successes results ->
      exists data',
        aggregate results' now' = Some data' /\
        happinessAvg data' = happinessAvg data /\
        sadnessAvg data' = sadnessAvg data /\
        angerAvg data' = angerAvg data /\
        fearAvg data' = fearAvg data /\
        surpriseAvg data' = surpriseAvg data /\
        disgustAvg data' = disgustAvg data.
Proof.
  intros Hn.
  destruct (aggregate_means results now Hn)
    as (data & Ha & Hm & A1 & A2 & A3 & A4 & A5 & A6).
  exists data. repeat (split; [assumption|]).
  intros results' now' Hsame.
  destruct (aggregate_means results' now' ltac:(now rewrite Hsame))
    as (data' & Ha' & _ & B1 & B2 & B3 & B4 & B5 & B6).
  exists data'. rewrite Hsame in B1, B2, B3, B4, B5, B6.
  rewrite A1, A2, A3, A4, A5, A6. tauto.
Qed.

Lemma aggregate_none (results : list (SentimentResult num)) (now : Z) :
  successes results = [] -> aggregate results now = None.
Proof.
  intros Hn. unfold aggregate.
  destruct (tallyAll_spec results) as (I1 & _). cbv zeta in I1.
  rewrite I1, Hn. reflexivity.
Qed.

(** C3.  A batch without a success aggregates to no record, and the run
    leaves the namespace as it was. *)
Theorem no_success_no_record :
  (forall results now,
     successes results = [] -> aggregate results now = None) /\
  (forall (kv : KVNamespace num) events provider now apiKey collectedPosts,
     resolved (connectToFirehose updateMetersOptions [] events)
       = Some collectedPosts ->
     successes
       (List.map (fun post => analyzeSentiment provider (text post) apiKey)
          collectedPosts) = [] ->
     updateMeters toLowerCase events provider now apiKey = Returned None /\
     refreshMeters toLowerCase kv events provider now apiKey = Returned kv).
Proof.
  split; [exact aggregate_none|].
  intros kv events provider now apiKey posts Hres Hnone.
  unfold refreshMeters, updateMeters. rewrite Hres.
  rewrite aggregate_none by assumption. split; reflexivity.
Qed.

(** C6, as the code has it.  The reply [NO SENTIMENT], and only that
    reply as it stands (the parser trims nothing), becomes the failure
    whose reason is [NO SENTIMENT]; and the aggregator counts a failure
    as "no sentiment" exactly when its reason is that string, as a true
    failure otherwise. *)
Theorem no_sentiment_is_the_exact_reply :
  (forall content,
     parseSentimentResponse content = Failure NO_SENTIMENT <->
     content = NO_SENTIMENT) /\
  (forall results,
     t_noSentimentCount (tallyAll results) =
       Z.of_nat (length (filter (fun e => e = NO_SENTIMENT)
                           (failureReasons results))) /\
     t_failureCount (tallyAll results) =
       Z.of_nat (length (filter (fun e => e <> NO_SENTIMENT)
                           (failureReasons results)))).
Proof.
  split; [exact parse_sentinel_iff|].
  intros results. destruct (tallyAll_spec results) as (_ & I2 & I3 & _).
  auto.
Qed.
End TallyFacts.

(* ===================================================================== *)
(** * Tables of counts *)
(* ===================================================================== *)

Section TableFacts.
Implicit Types (o : JSObject) (k c : jsstring) (v : Cell)
  (l : list jsstring).

Lemma strEq_true a b : strEq a b = true <-> a = b.
Proof. unfold strEq. apply bool_decide_eq_true. Qed.

Lemma strEq_false a b : strEq a b = false <-> a <> b.
Proof. unfold strEq. apply bool_decide_eq_false. Qed.

Lemma getOwn_None o k : getOwn o k = None <-> k ∉ List.map fst o.
Proof.
  induction o as [|[k' v'] o IH]; cbn.
  - split; [intros _; apply not_elem_of_nil|reflexivity].
  - rewrite not_elem_of_cons. destruct (strEq k' k) eqn:E.
    + apply strEq_true in E as ->. split; [discriminate|]. now intros [? _].
    + apply strEq_false in E. rewrite IH. intuition congruence.
Qed.

Lemma getOwn_Some_elem o k v : getOwn o k = Some v -> (k, v) ∈ o.
Proof.
  induction o as [|[k' v'] o IH]; cbn; [discriminate|].
  destruct (strEq k' k) eqn:E.
  - apply strEq_true in E as ->. intros [= ->]. apply list_elem_of_here.
  - intros Hg. apply list_elem_of_further. auto.
Qed.

Lemma elem_getOwn o k v :
  NoDup (List.map fst o) -> (k, v) ∈ o -> getOwn o k = Some v.
Proof.
  induction o as [|[k' v'] o IH]; cbn; intros Hnd Hin.
  - now apply elem_of_nil in Hin.
  - apply NoDup_cons in Hnd as [Hk Hnd].
    apply elem_of_cons in Hin as [[= <- <-]|Hin].
    + now rewrite (proj2 (strEq_true k k)).
    + destruct (strEq k' k) eqn:E; [|auto].
      apply strEq_true in E as ->. exfalso. apply Hk.
      apply list_elem_of_fmap. now exists (k, v).
Qed.

Lemma getOwn_Permutation o o' k :
  NoDup (List.map fst o) -> o ≡ₚ o' -> getOwn o k = getOwn o' k.
Proof.
  intros Hnd Hp.
  assert (NoDup (List.map fst o')) as Hnd'
    by (now rewrite <- Hp).
  destruct (getOwn o k) as [v|] eqn:E.
  - symmetry. apply elem_getOwn; [assumption|].
    rewrite <- Hp. now apply getOwn_Some_elem.
  - symmetry. apply getOwn_None. apply getOwn_None in E.
    now rewrite <- Hp.
Qed.

Lemma setOwn_fresh o k v :
  k ∉ List.map fst o -> setOwn o k v = o ++ [(k, v)].
Proof.
  induction o as [|[k' v'] o IH]; cbn; [reflexivity|].
  rewrite not_elem_of_cons. intros [Hne Hk].
  rewrite (proj2 (strEq_false k' k)) by congruence. now rewrite IH.
Qed.

Lemma length_setOwn o k v : (length (setOwn o k v) <= S (length o))%nat.
Proof.
  induction o as [|[k' v'] o IH]; cbn; [lia|].
  destruct (strEq k' k); cbn; lia.
Qed.

Lemma length_assign o k v : (length (assign o k v) <= S (length o))%nat.
Proof.
  unfold assign. destruct (strEq k _); [lia|apply length_setOwn].
Qed.

Lemma length_fold_assign (l : list (jsstring * Cell)) o :
  (length (fold_left (fun o p => assign o p.1 p.2) l o)
   <= length o + length l)%nat.
Proof.
  revert o. induction l as [|p l IH]; intros o; cbn; [lia|].
  specialize (IH (assign o p.1 p.2)).
  pose proof (length_assign o p.1 p.2). lia.
Qed.

Lemma fold_assign_fresh (l : list (jsstring * Cell)) o :
  NoDup (List.map fst (o ++ l)) ->
  js "__proto__" ∉ List.map fst l ->
  fold_left (fun o p => assign o p.1 p.2) l o = o ++ l.
Proof.
  revert o. induction l as [|[k v] l IH]; intros o Hnd Hp; cbn.
  - now rewrite app_nil_r.
  - cbn [List.map fst] in Hp. apply not_elem_of_cons in Hp as [Hk Hp].
    unfold assign at 2. cbn [fst snd].
    rewrite (proj2 (strEq_false k (js "__proto__"))) by congruence.
    rewrite setOwn_fresh.
    + rewrite IH; [now rewrite <- (assoc_L app)| |assumption].
      now rewrite <- (assoc_L app).
    + rewrite map_app in Hnd. apply NoDup_app in Hnd as (_ & Hd & _).
      intros Hin. apply (Hd k Hin). cbn. apply list_elem_of_here.
Qed.

(** ** Sums of counts *)

Lemma sumCounts_app o o' : sumCounts (o ++ o') = sumCounts o + sumCounts o'.
Proof. induction o as [|p o IH]; cbn; [reflexivity|]. unfold sumCounts in *. lia. Qed.

Lemma sumCounts_Permutation o o' : o ≡ₚ o' -> sumCounts o = sumCounts o'.
Proof.
  induction 1 as [|p o o' _ IH|p q o|o o' o'' _ IH1 _ IH2]; cbn;
    unfold sumCounts in *; cbn; lia.
Qed.

Lemma sumCounts_nonneg o : countsNonNegative o -> 0 <= sumCounts o.
Proof.
  induction 1 as [|p o Hp _ IH]; cbn; [lia|]. unfold sumCounts in *. lia.
Qed.

Lemma sumCounts_take o (n : nat) :
  countsNonNegative o -> sumCounts (take n o) <= sumCounts o.
Proof.
  intros Hnn. rewrite <- (take_drop n o) at 2. rewrite sumCounts_app.
  assert (countsNonNegative (drop n o)) as Hd.
  { unfold countsNonNegative. rewrite <- (take_drop n o) in Hnn.
    now apply Forall_app in Hnn as [_ ?]. }
  pose proof (sumCounts_nonneg _ Hd). lia.
Qed.

Lemma sumCounts_setOwn o k v :
  sumCounts (setOwn o k v) =
  sumCounts o - cellCount (default (Count 0) (getOwn o k)) + cellCount v.
Proof.
  induction o as [|[k' v'] o IH]; cbn; [lia|].
  destruct (strEq k' k); cbn; unfold sumCounts in *; cbn; lia.
Qed.

Lemma nonneg_setOwn o k v :
  countsNonNegative o -> 0 <= cellCount v -> countsNonNegative (setOwn o k v).
Proof.
  unfold countsNonNegative. induction 1 as [|[k' v'] o Hp Ho IH]; cbn; intros Hv.
  - now repeat constructor.
  - destruct (strEq k' k); constructor; auto.
Qed.

Lemma getOwn_nonneg o k v :
  countsNonNegative o -> getOwn o k = Some v -> 0 <= cellCount v.
Proof.
  intros Hnn Hg%getOwn_Some_elem.
  unfold countsNonNegative in Hnn. rewrite Forall_forall in Hnn.
  now apply (Hnn (k, v)).
Qed.

Lemma countKey_sum o k :
  countsNonNegative o ->
  countsNonNegative (countKey o k) /\
  sumCounts (countKey o k) <= sumCounts o + 1.
Proof.
  intros Hnn. unfold countKey, assign.
  destruct (strEq k (js "__proto__")); [split; [assumption|lia]|].
  assert (0 <= cellCount (incremented o k) /\
          cellCount (incremented o k)
          <= cellCount (default (Count 0) (getOwn o k)) + 1) as [Hlo Hhi].
  { unfold incremented. destruct (getOwn o k) as [[n|[|x s]]|] eqn:E; cbn.
    - pose proof (getOwn_nonneg o k _ Hnn E) as Hn. cbn in Hn.
      destruct (Z.eqb_spec n 0); cbn; lia.
    - lia.
    - lia.
    - destruct (inheritedText k); cbn; lia. }
  split; [now apply nonneg_setOwn|].
  rewrite sumCounts_setOwn. lia.
Qed.

Lemma fold_countKey_sum l o :
  countsNonNegative o ->
  countsNonNegative (fold_left countKey l o) /\
  sumCounts (fold_left countKey l o) <= sumCounts o + Z.of_nat (length l).
Proof.
  revert o. induction l as [|k l IH]; intros o Hnn; cbn [fold_left].
  - split; [assumption|cbn; lia].
  - destruct (countKey_sum o k Hnn) as [Hnn' Hs].
    destruct (IH _ Hnn') as [Hnn'' Hs'].
    split; [assumption|]. cbn [length]. lia.
Qed.

Lemma filter_split_Permutation {A} (p : A -> bool) (xs : list A) :
  List.filter p xs ++ List.filter (fun x => negb (p x)) xs ≡ₚ xs.
Proof.
  induction xs as [|x xs IH]; cbn; [reflexivity|].
  destruct (p x); cbn.
  - now rewrite IH.
  - rewrite <- Permutation_middle. now rewrite IH.
Qed.

Lemma entries_Permutation o : entries o ≡ₚ o.
Proof.
  unfold entries. rewrite sortBy_Permutation.
  apply (filter_split_Permutation (fun p => isArrayIndex p.1)).
Qed.

Lemma sortedConcepts_sum o :
  countsNonNegative o -> sumCounts (sortedConcepts o) <= sumCounts o.
Proof.
  intros Hnn. unfold sortedConcepts.
  assert (sortBy byCountDescending (entries o) ≡ₚ o) as Hp
    by (now rewrite sortBy_Permutation, entries_Permutation).
  rewrite <- (sumCounts_Permutation _ _ Hp).
  apply sumCounts_take. unfold countsNonNegative. now rewrite Hp.
Qed.

Lemma fold_assign_sum (l : list (jsstring * Cell)) o :
  countsNonNegative o -> countsNonNegative l ->
  sumCounts (fold_left (fun o p => assign o p.1 p.2) l o)
  <= sumCounts o + sumCounts l.
Proof.
  revert o. induction l as [|[k v] l IH]; intros o Ho Hl; cbn [fold_left].
  - cbn. lia.
  - apply Forall_cons in Hl as [Hv Hl]. cbn [fst snd] in *.
    assert (countsNonNegative (assign o k v) /\
            sumCounts (assign o k v) <= sumCounts o + cellCount v) as [Hn Hs].
    { unfold assign. destruct (strEq k (js "__proto__")).
      - split; [assumption|lia].
      - split; [now apply nonneg_setOwn|].
        rewrite sumCounts_setOwn.
        destruct (getOwn o k) as [v0|] eqn:E; cbn; [|lia].
        pose proof (getOwn_nonneg o k v0 Ho E). lia. }
    specialize (IH _ Hn Hl). cbn. unfold sumCounts in *. cbn in *. lia.
Qed.

Lemma top200Concepts_sum o :
  countsNonNegative o -> sumCounts (top200Concepts o) <= sumCounts o.
Proof.
  intros Hnn. unfold top200Concepts.
  etransitivity; [apply fold_assign_sum|].
  - constructor.
  - unfold sortedConcepts, countsNonNegative.
    apply Forall_take.
    now rewrite sortBy_Permutation, entries_Permutation.
  - cbn. now apply sortedConcepts_sum.
Qed.

Lemma length_top200Concepts o : (length (top200Concepts o) <= 200)%nat.
Proof.
  unfold top200Concepts.
  etransitivity; [apply length_fold_assign|]. cbn.
  unfold sortedConcepts. rewrite length_take. lia.
Qed.
End TableFacts.

(* ===================================================================== *)
(** * The concept table of a batch *)
(* ===================================================================== *)

Section FirstSeenFacts.
Implicit Types (c x : jsstring) (l : list jsstring).

Lemma firstSeen_snoc l c :
  firstSeen (l ++ [c]) =
  if bool_decide (c ∈ firstSeen l) then firstSeen l else firstSeen l ++ [c].
Proof. unfold firstSeen. now rewrite fold_left_app. Qed.

Lemma elem_of_firstSeen l c : c ∈ firstSeen l <-> c ∈ l.
Proof.
  induction l as [|x l IH] using rev_ind.
  - reflexivity.
  - rewrite firstSeen_snoc, elem_of_app, list_elem_of_singleton.
    destruct (bool_decide_reflect (x ∈ firstSeen l)) as [Hin|Hnin].
    + rewrite IH. split; [tauto|]. intros [?| ->]; [assumption|].
      now apply IH.
    + rewrite elem_of_app, list_elem_of_singleton, IH. reflexivity.
Qed.

Lemma NoDup_firstSeen l : NoDup (firstSeen l).
Proof.
  induction l as [|x l IH] using rev_ind; [constructor|].
  rewrite firstSeen_snoc.
  destruct (bool_decide_reflect (x ∈ firstSeen l)) as [Hin|Hnin]; [exact IH|].
  apply NoDup_app. split; [exact IH|]. split.
  - intros y Hy ->%list_elem_of_singleton. contradiction.
  - apply NoDup_singleton.
Qed.

Lemma occurrences_snoc x l c :
  occurrences x (l ++ [c]) =
  occurrences x l + (if bool_decide (c = x) then 1 else 0).
Proof.
  unfold occurrences. rewrite filter_app, length_app, filter_cons, filter_nil.
  destruct (decide (c = x)) as [->|Hne].
  - rewrite bool_decide_eq_true_2 by reflexivity. cbn. lia.
  - rewrite bool_decide_eq_false_2 by assumption. cbn. lia.
Qed.

Lemma occurrences_pos x l : x ∈ l -> 1 <= occurrences x l.
Proof.
  intros Hin. unfold occurrences.
  assert (x ∈ filter (fun y => y = x) l) as Hf
    by (apply list_elem_of_filter; auto).
  destruct (filter (fun y => y = x) l); [now apply elem_of_nil in Hf|].
  cbn. lia.
Qed.

Lemma occurrences_absent x l : x ∉ l -> occurrences x l = 0.
Proof.
  unfold occurrences. induction l as [|y l IH]; [reflexivity|].
  rewrite not_elem_of_cons. intros [Hne Hnin].
  rewrite filter_cons_False by congruence. auto.
Qed.

Lemma keys_tableOf l : List.map fst (tableOf l) = firstSeen l.
Proof.
  unfold tableOf. rewrite List.map_map. cbn. apply List.map_id.
Qed.

Lemma getOwn_tableOf l c :
  getOwn (tableOf l) c =
  if bool_decide (c ∈ l) then Some (Count (occurrences c l)) else None.
Proof.
  destruct (bool_decide_reflect (c ∈ l)) as [Hin|Hnin].
  - apply elem_getOwn.
    + rewrite keys_tableOf. apply NoDup_firstSeen.
    + unfold tableOf. apply list_elem_of_fmap.
      exists c. split; [reflexivity|]. now apply elem_of_firstSeen.
  - apply getOwn_None. rewrite keys_tableOf. now rewrite elem_of_firstSeen.
Qed.

Lemma setOwn_map (f : jsstring -> Cell) (ks : list jsstring) c v :
  NoDup ks -> c ∈ ks ->
  setOwn (List.map (fun x => (x, f x)) ks) c v =
  List.map (fun x => (x, if bool_decide (x = c) then v else f x)) ks.
Proof.
  induction ks as [|k ks IH]; intros Hnd Hin; [now apply elem_of_nil in Hin|].
  apply NoDup_cons in Hnd as [Hk Hnd]. cbn.
  destruct (decide (k = c)) as [->|Hne].
  - rewrite (proj2 (strEq_true c c)) by reflexivity.
    rewrite bool_decide_eq_true_2 by reflexivity. f_equal.
    apply List.map_ext_in. intros x Hx%list_elem_of_In.
    rewrite bool_decide_eq_false_2; [reflexivity|]. now intros ->.
  - rewrite (proj2 (strEq_false k c)) by assumption.
    rewrite bool_decide_eq_false_2 by assumption. f_equal.
    apply IH; [assumption|].
    apply elem_of_cons in Hin as [->|]; [contradiction|assumption].
Qed.

Lemma inheritedName_proto c :
  inheritedName c = false -> c <> js "__proto__".
Proof.
  unfold inheritedName, inheritedText. intros Hn ->.
  now rewrite (proj2 (strEq_true _ _)) in Hn.
Qed.

Lemma inheritedName_text c : inheritedName c = false -> inheritedText c = None.
Proof. unfold inheritedName. now destruct (inheritedText c). Qed.

(** Counting one more name extends the table of counts. *)
Lemma countKey_tableOf l c :
  inheritedName c = false -> countKey (tableOf l) c = tableOf (l ++ [c]).
Proof.
  intros Hc. unfold countKey, assign, incremented.
  rewrite (proj2 (strEq_false _ _) (inheritedName_proto c Hc)).
  rewrite getOwn_tableOf, (inheritedName_text c Hc).
  unfold tableOf at 2. rewrite firstSeen_snoc.
  destruct (bool_decide_reflect (c ∈ l)) as [Hin|Hnin].
  - pose proof (occurrences_pos c l Hin) as Hpos.
    destruct (Z.eqb_spec (occurrences c l) 0); [lia|].
    rewrite bool_decide_eq_true_2 by (now apply elem_of_firstSeen).
    unfold tableOf. rewrite setOwn_map;
      [|apply NoDup_firstSeen|now apply elem_of_firstSeen].
    apply List.map_ext. intros x. rewrite occurrences_snoc.
    destruct (decide (x = c)) as [->|Hne].
    + now rewrite !bool_decide_eq_true_2 by reflexivity.
    + rewrite !bool_decide_eq_false_2 by congruence.
      now rewrite Z.add_0_r.
  - rewrite bool_decide_eq_false_2 by (now rewrite elem_of_firstSeen).
    rewrite setOwn_fresh
      by (rewrite keys_tableOf; now rewrite elem_of_firstSeen).
    rewrite map_app. cbn. unfold tableOf. f_equal.
    + apply List.map_ext_in. intros x Hx%list_elem_of_In.
      rewrite occurrences_snoc, bool_decide_eq_false_2, Z.add_0_r;
        [reflexivity|].
      intros <-. apply Hnin. now apply elem_of_firstSeen.
    + rewrite occurrences_snoc, bool_decide_eq_true_2 by reflexivity.
      now rewrite occurrences_absent.
Qed.

Lemma fold_countKey_tableOf l l0 :
  Forall (fun c => inheritedName c = false) l ->
  fold_left countKey l (tableOf l0) = tableOf (l0 ++ l).
Proof.
  revert l0. induction l as [|c l IH]; intros l0 Hl; cbn [fold_left].
  - now rewrite app_nil_r.
  - apply Forall_cons in Hl as [Hc Hl].
    rewrite countKey_tableOf by assumption. rewrite IH by assumption.
    now rewrite <- (assoc_L app).
Qed.
End FirstSeenFacts.

Section RankingFacts.
Lemma insertBy_ext_in {A} (cmp cmp' : A -> A -> Z) (x : A) (s : list A) :
  (forall y, y ∈ s -> cmp x y = cmp' x y) ->
  insertBy cmp x s = insertBy cmp' x s.
Proof.
  induction s as [|y s IH]; intros Hx; [reflexivity|].
  cbn. rewrite <- (Hx y) by apply list_elem_of_here.
  destruct (cmp x y <=? 0); [reflexivity|].
  f_equal. apply IH. intros z Hz. apply Hx. now apply list_elem_of_further.
Qed.

Lemma sortBy_ext_in {A} (cmp cmp' : A -> A -> Z) (l : list A) :
  (forall x y, x ∈ l -> y ∈ l -> cmp x y = cmp' x y) ->
  sortBy cmp l = sortBy cmp' l.
Proof.
  induction l as [|x l IH]; intros Hext; [reflexivity|].
  cbn [sortBy foldr]. fold (sortBy cmp l) (sortBy cmp' l).
  rewrite <- IH by (intros; apply Hext; now apply list_elem_of_further).
  apply insertBy_ext_in.
  intros y Hy%elem_of_sortBy. apply Hext;
    [apply list_elem_of_here|now apply list_elem_of_further].
Qed.

Lemma StronglySorted_weaken {A} (R R' : A -> A -> Prop) (l : list A) :
  (forall x y, R x y -> R' x y) -> StronglySorted R l -> StronglySorted R' l.
Proof.
  intros Himp. induction 1 as [|x l _ IH Hx]; constructor; [assumption|].
  eapply Forall_impl; [exact Hx|]. auto.
Qed.

(** [Object.entries] enumerates array indices first. *)
Lemma entries_enumerates (o : JSObject) : enumerates o (entries o).
Proof.
  unfold enumerates, entries. eexists. split; [reflexivity|]. split.
  - apply sortBy_Permutation.
  - eapply StronglySorted_weaken; [|apply sortBy_sorted].
    + cbn. intros x y. lia.
    + cbn. intros a b c. lia.
    + cbn. intros a b. lia.
Qed.

(** The sort by count is a stable ranking of tables that hold counts. *)
Lemma sort_ranks (E : list (jsstring * Cell)) :
  allCounts E -> ranks E (sortBy byCountDescending E).
Proof.
  intros Hall.
  assert (sortBy byCountDescending E =
          sortBy (fun a b => cellCount b.2 - cellCount a.2) E) as ->.
  { apply sortBy_ext_in. intros x y Hx Hy.
    unfold allCounts in Hall. rewrite Forall_forall in Hall.
    destruct (Hall x Hx) as [nx Ex], (Hall y Hy) as [ny Ey].
    unfold byCountDescending, cellMinus. now rewrite Ex, Ey. }
  unfold ranks. split; [apply sortBy_Permutation|]. split.
  - eapply StronglySorted_weaken; [|apply sortBy_sorted].
    + cbn. intros x y. lia.
    + cbn. intros a b c. lia.
    + cbn. intros a b. lia.
  - intros n. apply filter_sortBy. intros x y Hx%Z.eqb_eq Hy%Z.eqb_eq. lia.
Qed.

Lemma allCounts_tableOf (l : list jsstring) : allCounts (tableOf l).
Proof.
  unfold allCounts, tableOf. apply Forall_forall.
  intros p (c & -> & _)%list_elem_of_fmap. cbn. eauto.
Qed.

Lemma NoDup_take {A} (n : nat) (l : list A) : NoDup l -> NoDup (take n l).
Proof.
  intros Hnd. rewrite <- (take_drop n l) in Hnd.
  now apply NoDup_app in Hnd as [? _].
Qed.
End RankingFacts.

Section ConceptFacts.
Context {num : Type} `{Number num} (toLowerCase : jsstring -> jsstring).

Local Abbreviation aggregate := (aggregate toLowerCase).

Lemma countConcepts_keys (counts : JSObject) (cs : list jsstring) :
  countConcepts toLowerCase counts cs
  = fold_left countKey (List.map toLowerCase cs) counts.
Proof.
  unfold countConcepts. revert counts.
  induction cs as [|c cs IH]; intros counts; [reflexivity|].
  cbn. apply IH.
Qed.

Lemma aggregate_Some (results : list (SentimentResult num)) (now : Z)
    (data : SentimentData num) :
  aggregate results now = Some data ->
  messageCount data = Z.of_nat (length (successes results)) /\
  topConcepts data =
    Some (top200Concepts
            (fold_left countKey (loweredConcepts toLowerCase results) [])).
Proof.
  unfold aggregate.
  destruct (tallyAll_spec toLowerCase results)
    as (I1 & _ & _ & _ & _ & _ & _ & _ & _ & I10). cbv zeta in *.
  destruct (0 <? _); [|discriminate]. intros [= <-]. cbn.
  rewrite I1, I10, countConcepts_keys. auto.
Qed.

Lemma length_concat_concepts (ok : list (Scores num)) :
  (forall s, s ∈ ok -> (length (concepts s) <= 3)%nat) ->
  (length (concat (List.map concepts ok)) <= 3 * length ok)%nat.
Proof.
  induction ok as [|s ok IH]; intros Hle; cbn; [lia|].
  rewrite length_app.
  specialize (Hle s (list_elem_of_here _ _)) as Hs.
  specialize (IH (fun s' Hs' => Hle s' (list_elem_of_further _ _ _ Hs'))).
  lia.
Qed.

(** C8, as the code has it.  When every success of the batch carries at
    most three concepts, the counts of [topConcepts] add up to at most
    three times [messageCount].  (The parser keeps every concept of a
    reply, so the bound rests on the replies.) *)
Theorem concept_counts_bounded (results : list (SentimentResult num))
    (now : Z) (data : SentimentData num) :
  (forall s, s ∈ successes results -> (length (concepts s) <= 3)%nat) ->
  aggregate results now = Some data ->
  sumCounts (default [] (topConcepts data)) <= messageCount data * 3.
Proof.
  intros Hle [Hm Ht]%aggregate_Some. rewrite Hm, Ht. cbn [default].
  destruct (fold_countKey_sum (loweredConcepts toLowerCase results) [])
    as [Hnn Hsum]; [constructor|].
  etransitivity; [now apply top200Concepts_sum|].
  etransitivity; [exact Hsum|].
  unfold loweredConcepts. rewrite length_map.
  pose proof (length_concat_concepts _ Hle). cbn. lia.
Qed.

(** C4, as the code has it.  [topConcepts] has at most 200 entries.
    When no lower-cased concept is the name of a property that objects
    inherit, it is the first 200 entries of the ranking by count,
    highest first, in which concepts with the same count stand in the
    order the table enumerates them: array indices first, in ascending
    order, then the other concepts in the order first seen; and with at
    most 200 distinct concepts each of them is present with the exact
    number of its occurrences. *)
Theorem top_concepts_ranked (results : list (SentimentResult num))
    (now : Z) (data : SentimentData num) :
  aggregate results now = Some data ->
  let l := loweredConcepts toLowerCase results in
  exists top,
    topConcepts data = Some top /\
    (length top <= 200)%nat /\
    (Forall (fun c => inheritedName c = false) l ->
     exists E R,
       enumerates (tableOf l) E /\ ranks E R /\ top = take 200 R /\
       ((length (firstSeen l) <= 200)%nat ->
        forall c,
          getOwn top c =
          if bool_decide (c ∈ l) then Some (Count (occurrences c l))
          else None)).
Proof.
  intros [_ Ht]%aggregate_Some. cbv zeta.
  set (l := loweredConcepts toLowerCase results) in *.
  eexists. split; [exact Ht|]. split; [apply length_top200Concepts|].
  intros Hclean.
  pose proof (fold_countKey_tableOf l [] Hclean) as Htab.
  change (tableOf []) with ([] : JSObject) in Htab. cbn [app] in Htab.
  rewrite Htab.
  set (T := tableOf l). set (E := entries T).
  set (R := sortBy byCountDescending E).
  assert (R ≡ₚ T) as HRT
    by (unfold R, E; now rewrite sortBy_Permutation, entries_Permutation).
  assert (NoDup (List.map fst R)) as HndR.
  { rewrite HRT. unfold T. rewrite keys_tableOf. apply NoDup_firstSeen. }
  assert (top200Concepts T = take 200 R) as Htop.
  { unfold top200Concepts, sortedConcepts. fold E R.
    rewrite fold_assign_fresh; [reflexivity| |].
    - cbn [app]. rewrite <- List.firstn_map. now apply NoDup_take.
    - intros Hin. apply list_elem_of_fmap in Hin as ([k v] & Hk & Hin).
      cbn in Hk. subst k.
      apply subseteq_take in Hin. rewrite HRT in Hin.
      assert (js "__proto__" ∈ List.map fst T) as Hkey
        by (apply list_elem_of_fmap; now exists (js "__proto__", v)).
      unfold T in Hkey. rewrite keys_tableOf, elem_of_firstSeen in Hkey.
      rewrite Forall_forall in Hclean. specialize (Hclean _ Hkey).
      now apply inheritedName_proto in Hclean. }
  exists E, R. split; [apply entries_enumerates|]. split.
  { apply sort_ranks. unfold allCounts, E.
    rewrite entries_Permutation. apply allCounts_tableOf. }
  split; [exact Htop|].
  intros Hfew c. rewrite Htop, take_ge.
  - rewrite <- (getOwn_Permutation T R); [apply getOwn_tableOf| |easy].
    unfold T. rewrite keys_tableOf. apply NoDup_firstSeen.
  - rewrite (Permutation_length HRT). unfold T, tableOf.
    now rewrite length_map.
Qed.
End ConceptFacts.

(* ===================================================================== *)
(** * The range query *)
(* ===================================================================== *)

Section HourLoop.
Import Date DateFacts.

Lemma setMinutes_idempotent (t : Z) :
  setMinutes (setMinutes t 0 0 0) 0 0 0 = setMinutes t 0 0 0.
Proof. rewrite !setMinutes_floor. unfold msPerHour. zdiv. Qed.

(** [setMinutes(0, 0, 0)] zeroes the minutes, seconds and milliseconds
    and keeps the day and the hour. *)
Lemma setMinutes_fields (t : Z) :
  let t' := setMinutes t 0 0 0 in
  Day t' = Day t /\ HourFromTime t' = HourFromTime t /\
  MinFromTime t' = 0 /\ SecFromTime t' = 0 /\ msFromTime t' = 0 /\
  t' <= t < t' + msPerHour.
Proof.
  cbv zeta. rewrite setMinutes_floor.
  unfold Day, HourFromTime, MinFromTime, SecFromTime, msFromTime,
    msPerDay, msPerHour, msPerMinute, msPerSecond. zdiv.
Qed.

(** The loop visits every hour from [a] on, [n] of them. *)
Lemma hourLoop_spec (n : nat) (a : Z) (acc : list jsstring) (fuel : nat) :
  (n <= fuel)%nat ->
  hourLoop fuel (msPerHour * a) (msPerHour * (a + Z.of_nat n - 1)) acc
  = Some (acc ++ List.map hourPrefix (seqZ a (Z.of_nat n))).
Proof.
  revert a acc fuel. induction n as [|n IH]; intros a acc fuel Hfuel.
  - destruct fuel; cbn [hourLoop];
      (destruct (Z.leb_spec (msPerHour * a) (msPerHour * (a + Z.of_nat 0 - 1)));
       [unfold msPerHour in *; lia|]);
      cbn; now rewrite app_nil_r.
  - destruct fuel as [|fuel]; [lia|]. cbn [hourLoop].
    destruct (Z.leb_spec (msPerHour * a)
                (msPerHour * (a + Z.of_nat (S n) - 1)));
      [|unfold msPerHour in *; lia].
    rewrite setHours_next.
    replace (msPerHour * a + msPerHour) with (msPerHour * (a + 1))
      by (unfold msPerHour; lia).
    replace (a + Z.of_nat (S n) - 1) with (a + 1 + Z.of_nat n - 1) by lia.
    rewrite IH by lia.
    rewrite <- (assoc_L app). do 2 f_equal.
    replace (Z.of_nat (S n)) with (Z.succ (Z.of_nat n)) by lia.
    rewrite (seqZ_cons a) by lia. rewrite Z.pred_succ.
    replace (Z.succ a) with (a + 1) by lia. reflexivity.
Qed.

Lemma generateHourPrefixes_spec (fuel : nat) (start end_ : DateRef)
    (dates : Dates) (s e : Z) :
  dates !! start = Some s -> dates !! end_ = Some e ->
  (Z.to_nat (e / msPerHour - s / msPerHour + 1) <= fuel)%nat ->
  generateHourPrefixes fuel start end_ dates =
  Some (<[end_ := setMinutes e 0 0 0]> (<[start := setMinutes s 0 0 0]> dates),
        List.map hourPrefix
          (seqZ (s / msPerHour) (e / msPerHour - s / msPerHour + 1))).
Proof.
  intros Hs He Hfuel. unfold generateHourPrefixes. unfold Dates in *.
  rewrite Hs. cbn [mbind option_bind].
  set (dates1 := <[start := setMinutes s 0 0 0]> dates).
  assert (exists e1, dates1 !! end_ = Some e1 /\
                     setMinutes e1 0 0 0 = setMinutes e 0 0 0) as (e1 & He1 & Hfl).
  { destruct (decide (start = end_)) as [<-|Hne].
    - exists (setMinutes s 0 0 0). unfold dates1.
      rewrite lookup_insert_eq. split; [reflexivity|].
      rewrite setMinutes_idempotent. congruence.
    - exists e. unfold dates1. now rewrite lookup_insert_ne. }
  rewrite He1. cbn [mbind option_bind]. rewrite Hfl.
  set (dates2 := <[end_ := setMinutes e 0 0 0]> dates1).
  assert (dates2 !! end_ = Some (setMinutes e 0 0 0)) as ->
    by (unfold dates2; now rewrite lookup_insert_eq).
  assert (dates2 !! start = Some (setMinutes s 0 0 0)) as ->.
  { unfold dates2, dates1. destruct (decide (end_ = start)) as [->|Hne].
    - rewrite lookup_insert_eq. f_equal.
      rewrite Hs in He. injection He as ->. reflexivity.
    - rewrite lookup_insert_ne by assumption. now rewrite lookup_insert_eq. }
  cbn [mbind option_bind]. rewrite !setMinutes_floor.
  set (a := s / msPerHour) in *. set (b := e / msPerHour) in *.
  destruct (Z.le_gt_cases a b) as [Hab|Hba].
  - replace b with (a + Z.of_nat (Z.to_nat (b - a + 1)) - 1) at 1 by lia.
    rewrite hourLoop_spec by assumption. cbn.
    now rewrite Z2Nat.id by lia.
  - (* an empty range: no hour is visited *)
    replace (b - a + 1) with (Z.of_nat 0 - (a - b - 1)) by lia.
    destruct fuel; cbn [hourLoop];
      (destruct (Z.leb_spec (msPerHour * a) (msPerHour * b));
       [unfold msPerHour in *; lia|]); cbn;
      rewrite seqZ_nil by lia; reflexivity.
Qed.
End HourLoop.

Lemma elem_of_concat {A} (x : A) (ls : list (list A)) :
  x ∈ concat ls <-> exists l, x ∈ l /\ l ∈ ls.
Proof.
  rewrite list_elem_of_In, List.in_concat. split.
  - intros (l & Hl & Hx). exists l. now rewrite !list_elem_of_In.
  - intros (l & Hx & Hl). exists l. now rewrite <- !list_elem_of_In.
Qed.

Section Pages.
Context {num : Type} `{Number num}.
Implicit Types (kv : KVNamespace num) (key : KVKey num).

Lemma kvListLimit_pos : (0 < kvListLimit)%nat.
Proof. unfold kvListLimit. lia. Qed.

Lemma collectKeys_spec (startIso endIso : jsstring) (page : list (KVKey num))
    (results : list (SentimentData num)) :
  collectKeys startIso endIso page results
  = results ++ omap (keptOf startIso endIso) page.
Proof.
  unfold collectKeys. revert results.
  induction page as [|key page IH]; intros results; cbn [fold_left].
  - cbn. now rewrite app_nil_r.
  - rewrite IH. cbn [omap list_omap]. unfold keptOf at 2.
    destruct (metadata key) as [md|]; [|reflexivity].
    destruct (strGe _ _ && strLe _ _); [|reflexivity].
    now rewrite <- (assoc_L app).
Qed.

(** The pages of a prefix, read one after the other, are the whole
    listing. *)
Lemma pageLoop_spec (fuel : nat) kv (prefix startIso endIso : jsstring)
    (cursor_ : option nat) (results : list (SentimentData num)) :
  (length (kvKeysUnder kv prefix) - default 0%nat cursor_ < fuel)%nat ->
  pageLoop fuel kv prefix startIso endIso cursor_ results
  = Some (results ++
          omap (keptOf startIso endIso)
            (drop (default 0%nat cursor_) (kvKeysUnder kv prefix))).
Proof.
  pose proof kvListLimit_pos as Hpos.
  revert cursor_ results.
  induction fuel as [|fuel IH]; intros cursor_ results Hfuel; [lia|].
  cbn [pageLoop]. unfold kvList. cbn [keys list_complete cursor].
  set (all := kvKeysUnder kv prefix) in *.
  set (off := default 0%nat cursor_) in *.
  rewrite collectKeys_spec.
  destruct (Nat.leb_spec (length all) (off + kvListLimit)) as [Hlast|Hmore].
  - rewrite take_ge by (rewrite length_drop; lia). reflexivity.
  - rewrite IH by (unfold default, id; cbn [from_option]; lia).
    unfold default at 1, id. cbn [from_option].
    rewrite <- (assoc_L app), <- omap_app. do 3 f_equal.
    rewrite <- drop_drop. apply take_drop.
Qed.

Lemma kvKeysUnder_Permutation kv (prefix : jsstring) :
  kvKeysUnder kv prefix ≡ₚ
  List.map (fun p => {| name := p.1; metadata := kvMetadata p.2 |})
    (List.filter (fun p => startsWith p.1 prefix) (map_to_list kv)).
Proof. unfold kvKeysUnder. apply sortBy_Permutation. Qed.

Lemma length_filter_le {A} (p : A -> bool) (l : list A) :
  (length (List.filter p l) <= length l)%nat.
Proof. induction l as [|x l IH]; cbn; [lia|]. destruct (p x); cbn; lia. Qed.

Lemma length_kvKeysUnder kv (prefix : jsstring) :
  (length (kvKeysUnder kv prefix) <= size kv)%nat.
Proof.
  rewrite (Permutation_length (kvKeysUnder_Permutation kv prefix)).
  rewrite length_map. etransitivity; [apply length_filter_le|].
  unfold KVNamespace in *. now rewrite length_map_to_list.
Qed.

Lemma prefixLoop_spec (fuel : nat) kv (startIso endIso : jsstring)
    (prefixes : list jsstring) (results : list (SentimentData num)) :
  (size kv < fuel)%nat ->
  prefixLoop fuel kv startIso endIso prefixes results
  = Some (results ++
          concat (List.map
                    (fun prefix =>
                       omap (keptOf startIso endIso) (kvKeysUnder kv prefix))
                    prefixes)).
Proof.
  intros Hfuel. revert results.
  induction prefixes as [|prefix prefixes IH]; intros results;
    cbn [prefixLoop].
  - cbn. now rewrite app_nil_r.
  - rewrite pageLoop_spec
      by (pose proof (length_kvKeysUnder kv prefix); cbn; lia).
    cbn [mbind option_bind default drop]. rewrite IH. cbn.
    now rewrite <- (assoc_L app).
Qed.

Lemma elem_of_kvKeysUnder kv (prefix : jsstring) key :
  key ∈ kvKeysUnder kv prefix <->
  exists entry,
    kv !! name key = Some entry /\ metadata key = kvMetadata entry /\
    startsWith (name key) prefix = true.
Proof.
  rewrite kvKeysUnder_Permutation. unfold KVNamespace in *. split.
  - intros ([k entry] & -> & Hin)%list_elem_of_fmap.
    apply list_elem_of_In, List.filter_In in Hin as [Hin Hp].
    apply list_elem_of_In, elem_of_map_to_list in Hin. cbn in *. eauto.
  - intros (entry & Hk & Hm & Hp). apply list_elem_of_fmap.
    exists (name key, entry). split.
    + destruct key as [k m]. cbn in *. now subst m.
    + apply list_elem_of_In, List.filter_In. split; [|exact Hp].
      apply list_elem_of_In. now apply elem_of_map_to_list.
Qed.

Lemma NoDup_filter_keys {A} (p : jsstring * A -> bool)
    (l : list (jsstring * A)) :
  NoDup (List.map fst l) -> NoDup (List.map fst (List.filter p l)).
Proof.
  induction l as [|x l IH]; cbn; [auto|].
  intros [Hx Hl]%NoDup_cons. destruct (p x); cbn; auto.
  apply NoDup_cons. split; [|auto].
  intros Hin. apply Hx.
  apply list_elem_of_fmap in Hin as (y & -> & Hy).
  apply list_elem_of_fmap. exists y. split; [reflexivity|].
  apply list_elem_of_In in Hy. apply List.filter_In in Hy as [Hy _].
  now apply list_elem_of_In.
Qed.

Lemma NoDup_kvKeysUnder kv (prefix : jsstring) :
  NoDup (List.map name (kvKeysUnder kv prefix)).
Proof.
  rewrite kvKeysUnder_Permutation, List.map_map. cbn.
  apply (NoDup_filter_keys (fun p => startsWith p.1 prefix)).
  unfold KVNamespace in *. apply NoDup_fst_map_to_list.
Qed.

Lemma keptOf_timestamp (startIso endIso : jsstring) key r :
  keptOf startIso endIso key = Some r -> timestamp r = name key.
Proof.
  unfold keptOf. destruct (metadata key); [|discriminate].
  destruct (_ && _); [|discriminate]. now intros [= <-].
Qed.

Lemma timestamps_sublist (startIso endIso : jsstring) (l : list (KVKey num)) :
  List.map timestamp (omap (keptOf startIso endIso) l)
  `sublist_of` List.map name l.
Proof.
  induction l as [|key l IH]; cbn; [constructor|].
  destruct (keptOf startIso endIso key) as [r|] eqn:E; cbn.
  - rewrite (keptOf_timestamp _ _ _ _ E). now constructor.
  - now constructor.
Qed.
End Pages.

Section RangeQuery.
Context {num : Type} `{Number num}.
Implicit Types (kv : KVNamespace num) (key : KVKey num).
Import Date DateFacts.

(** What the range query computes, before any reasoning on the keys. *)
Lemma getHistoricalMeters_spec (fuel : nat) kv (start end_ : DateRef)
    (dates : Dates) (s e : Z) :
  dates !! start = Some s -> dates !! end_ = Some e ->
  (enoughFuel kv s e <= fuel)%nat ->
  getHistoricalMeters fuel kv start end_ dates =
  Some (<[end_ := setMinutes e 0 0 0]> (<[start := setMinutes s 0 0 0]> dates),
        sortBy byTimestamp
          (concat (List.map (keptUnder kv (toISOString s) (toISOString e))
                     (seqZ (s / msPerHour)
                        (e / msPerHour - s / msPerHour + 1))))).
Proof.
  intros Hs He Hfuel. unfold enoughFuel in Hfuel.
  unfold getHistoricalMeters.
  rewrite (generateHourPrefixes_spec fuel start end_ dates s e Hs He)
    by lia.
  unfold Dates in *. rewrite Hs, He. cbn [fmap option_fmap option_map mbind option_bind].
  rewrite prefixLoop_spec by lia.
  cbn [mbind option_bind app]. rewrite List.map_map. reflexivity.
Qed.

(** C10.  A range query overwrites its two dates: after the call each
    holds the start of its hour (minutes, seconds and milliseconds at
    zero, day and hour kept), and no other date changes.  The query
    returns the records apart and has no other effect: the namespace is
    only read. *)
Theorem range_query_truncates_its_dates kv (start end_ : DateRef)
    (dates : Dates) (s e : Z) :
  dates !! start = Some s -> dates !! end_ = Some e ->
  let s' := setMinutes s 0 0 0 in
  let e' := setMinutes e 0 0 0 in
  (forall fuel, (enoughFuel kv s e <= fuel)%nat ->
     exists results,
       getHistoricalMeters fuel kv start end_ dates =
       Some (<[end_ := e']> (<[start := s']> dates), results)) /\
  (Day s' = Day s /\ HourFromTime s' = HourFromTime s /\
   MinFromTime s' = 0 /\ SecFromTime s' = 0 /\ msFromTime s' = 0) /\
  (Day e' = Day e /\ HourFromTime e' = HourFromTime e /\
   MinFromTime e' = 0 /\ SecFromTime e' = 0 /\ msFromTime e' = 0) /\
  (forall r, r <> start -> r <> end_ ->
     (<[end_ := e']> (<[start := s']> dates) : Dates) !! r = dates !! r).
Proof.
  intros Hs He. cbv zeta. split; [|split; [|split]].
  - intros fuel Hfuel. eexists.
    now apply getHistoricalMeters_spec.
  - pose proof (setMinutes_fields s) as Hf. cbv zeta in Hf. tauto.
  - pose proof (setMinutes_fields e) as Hf. cbv zeta in Hf. tauto.
  - intros r Hr1 Hr2. unfold Dates.
    now rewrite !lookup_insert_ne by congruence.
Qed.

Lemma fourDigitYear_between (s t e : Z) :
  fourDigitYear s -> fourDigitYear e -> s <= t <= e -> fourDigitYear t.
Proof. unfold fourDigitYear. lia. Qed.

Lemma fourDigitYear_hour (s e h : Z) :
  fourDigitYear s -> fourDigitYear e ->
  s / msPerHour <= h <= e / msPerHour -> fourDigitYear (msPerHour * h).
Proof.
  intros Hs%fourDigitYear_floor He%fourDigitYear_floor Hh.
  apply (fourDigitYear_between _ _ _ Hs He). unfold msPerHour in *. lia.
Qed.

Lemma elem_of_keptUnder kv (startIso endIso : jsstring) (h : Z)
    (r : SentimentData num) :
  r ∈ keptUnder kv startIso endIso h <->
  exists entry md,
    kv !! timestamp r = Some entry /\ kvMetadata entry = Some md /\
    r = fromMetadata md (timestamp r) /\
    startsWith (timestamp r) (hourPrefix h) = true /\
    strGe (timestamp r) startIso = true /\
    strLe (timestamp r) endIso = true.
Proof.
  unfold keptUnder. rewrite list_elem_of_omap. split.
  - intros (key & (entry & Hk & Hm & Hp)%elem_of_kvKeysUnder & Hkept).
    unfold keptOf in Hkept. rewrite Hm in Hkept.
    destruct (kvMetadata entry) as [md|] eqn:Emd; [|discriminate].
    destruct (strGe _ _) eqn:Ege; [|discriminate].
    destruct (strLe _ _) eqn:Ele; [|discriminate].
    cbn in Hkept. injection Hkept as <-. cbn. eauto 10.
  - intros (entry & md & Hk & Hm & Hr & Hp & Hge & Hle).
    exists {| name := timestamp r; metadata := Some md |}. split.
    + apply elem_of_kvKeysUnder. exists entry. cbn. auto.
    + unfold keptOf. cbn. rewrite Hge, Hle. cbn. congruence.
Qed.

Section WellStored.
Context (kv : KVNamespace num) (s e : Z).
Hypothesis stored : wellStored kv.
Hypotheses (Rs : fourDigitYear s) (Re : fourDigitYear e).

Let startIso := toISOString s.
Let endIso := toISOString e.

(** A record kept under the prefix of an hour lies in that hour and
    within the bounds. *)
Lemma keptUnder_hour (h : Z) (r : SentimentData num) :
  fourDigitYear (msPerHour * h) ->
  r ∈ keptUnder kv startIso endIso h ->
  exists t, timestamp r = toISOString t /\ fourDigitYear t /\
            t / msPerHour = h /\ s <= t <= e.
Proof.
  intros Rh (entry & md & Hk & Hm & Hr & Hp & Hge & Hle)%elem_of_keptUnder.
  destruct (stored _ _ Hk) as [(t & Rt & Ht) _].
  exists t. split; [exact Ht|]. split; [exact Rt|].
  rewrite Ht in Hp, Hge, Hle. split.
  - apply (hour_prefix_iff t (msPerHour * h)) in Hp; trivial.
    rewrite Hp. unfold msPerHour. zdiv.
  - unfold strGe, startIso, endIso in *.
    rewrite strLe_toISOString in Hge, Hle by assumption. lia.
Qed.

Lemma NoDup_keptUnder (h : Z) :
  NoDup (List.map timestamp (keptUnder kv startIso endIso h)).
Proof.
  unfold keptUnder.
  eapply sublist_NoDup; [|apply timestamps_sublist].
  apply NoDup_kvKeysUnder.
Qed.

Lemma NoDup_kept_hours (hs : list Z) :
  NoDup hs -> (forall h, h ∈ hs -> fourDigitYear (msPerHour * h)) ->
  NoDup (List.map timestamp
           (concat (List.map (keptUnder kv startIso endIso) hs))).
Proof.
  induction hs as [|h hs IH]; intros Hnd Hr; cbn; [constructor|].
  apply NoDup_cons in Hnd as [Hh Hnd].
  rewrite map_app. apply NoDup_app. split; [apply NoDup_keptUnder|].
  split; [|apply IH; [assumption|]; intros; apply Hr;
           now apply list_elem_of_further].
  intros ts (r & -> & Hin)%list_elem_of_fmap
    (r' & Heq & Hin')%list_elem_of_fmap.
  apply keptUnder_hour in Hin as (t & Ht & Rt & Hth & _);
    [|apply Hr, list_elem_of_here].
  apply elem_of_concat in Hin' as (part & Hr' & Hpart).
  apply list_elem_of_fmap in Hpart as (h' & -> & Hh').
  apply keptUnder_hour in Hr' as (t' & Ht' & Rt' & Hth' & _);
    [|apply Hr; now apply list_elem_of_further].
  rewrite Heq, Ht' in Ht. apply toISOString_inj in Ht; trivial.
  subst t'. congruence.
Qed.
End WellStored.
End RangeQuery.

Section RangeTheorem.
Context {num : Type} `{Number num}.
Implicit Types (kv : KVNamespace num).
Import Date DateFacts.

Lemma strCompare_le_trans (a b c : jsstring) :
  strCompare a b <> Gt -> strCompare b c <> Gt -> strCompare a c <> Gt.
Proof.
  destruct (strCompare a b) eqn:Eab; [| |congruence]; intros _.
  - now apply strCompare_eq in Eab as ->.
  - destruct (strCompare b c) eqn:Ebc; [| |congruence]; intros _.
    + apply strCompare_eq in Ebc as <-. now rewrite Eab.
    + now rewrite (strCompare_trans_lt a b c).
Qed.

Lemma byTimestamp_sorted (l : list (SentimentData num)) :
  StronglySorted
    (fun a b => strCompare (timestamp a) (timestamp b) <> Gt)
    (sortBy byTimestamp l).
Proof.
  assert (forall a b : SentimentData num,
            byTimestamp a b <= 0 <->
            strCompare (timestamp a) (timestamp b) <> Gt) as Hle.
  { intros a b. unfold byTimestamp, compareZ.
    destruct (strCompare _ _); split; (congruence || lia). }
  eapply StronglySorted_weaken; [|apply sortBy_sorted].
  - intros a b. apply Hle.
  - intros a b c Hab%Hle Hbc%Hle. apply Hle.
    now apply (strCompare_le_trans _ (timestamp b)).
  - intros a b Hgt. apply Hle. rewrite strCompare_antisym.
    unfold byTimestamp, compareZ in Hgt.
    destruct (strCompare (timestamp a) (timestamp b)); cbn; (congruence || lia).
Qed.

Lemma sorted_strict (l : list (SentimentData num)) :
  StronglySorted
    (fun a b => strCompare (timestamp a) (timestamp b) <> Gt) l ->
  NoDup (List.map timestamp l) ->
  StronglySorted (fun a b => strLt (timestamp a) (timestamp b) = true) l.
Proof.
  induction 1 as [|r l Hs IH Hr]; intros Hnd; constructor.
  - apply IH. cbn in Hnd. now apply NoDup_cons in Hnd as [_ ?].
  - cbn in Hnd. apply NoDup_cons in Hnd as [Hnin _].
    rewrite Forall_forall in Hr |- *. intros r' Hr'.
    specialize (Hr r' Hr'). apply strLt_iff.
    destruct (strCompare (timestamp r) (timestamp r')) eqn:E;
      [|reflexivity|congruence].
    apply strCompare_eq in E. exfalso. apply Hnin. rewrite E.
    apply list_elem_of_fmap. now exists r'.
Qed.

(** Records sorted by key are sorted by instant. *)
Lemma sorted_instants (P : Z -> Prop) (l : list (SentimentData num)) :
  (forall r, r ∈ l ->
     exists t, fourDigitYear t /\ P t /\ timestamp r = toISOString t) ->
  StronglySorted (fun a b => strLt (timestamp a) (timestamp b) = true) l ->
  exists ts,
    List.map timestamp l = List.map toISOString ts /\
    Forall (fun t => fourDigitYear t /\ P t) ts /\ StronglySorted Z.lt ts.
Proof.
  intros Hall Hs. induction Hs as [|r l Hs IH Hr].
  - exists []. repeat constructor.
  - destruct (Hall r (list_elem_of_here _ _)) as (t & Rt & Pt & Ht).
    destruct IH as (ts & Hmap & Hts & Hsorted);
      [intros; apply Hall; now apply list_elem_of_further|].
    exists (t :: ts). cbn. rewrite Ht, Hmap.
    split; [reflexivity|]. split; [now constructor|].
    constructor; [assumption|].
    rewrite Forall_forall in Hr. rewrite Forall_forall in Hts.
    apply Forall_forall. intros t' Ht'.
    assert (toISOString t' ∈ List.map timestamp l) as Hin
      by (rewrite Hmap; apply list_elem_of_fmap; eauto).
    apply list_elem_of_fmap in Hin as (r' & Hr't & Hr').
    specialize (Hr r' Hr'). rewrite Ht, <- Hr't in Hr.
    destruct (Hts t' Ht') as [Rt' _].
    rewrite strLt_toISOString in Hr by assumption. lia.
Qed.

(** A record is the one [fromMetadata] builds exactly when it holds,
    field by field, the key and what the metadata holds. *)
Lemma fromMetadata_fields (r : SentimentData num) (md : Metadata num)
    (key : jsstring) :
  r = fromMetadata md key <->
  timestamp r = key /\
  messageCount r = md_messageCount md /\
  happinessAvg r = md_happinessAvg md /\
  sadnessAvg r = md_sadnessAvg md /\
  angerAvg r = md_angerAvg md /\
  fearAvg r = md_fearAvg md /\
  surpriseAvg r = md_surpriseAvg md /\
  disgustAvg r = md_disgustAvg md /\
  topConcepts r = md_topConcepts md.
Proof.
  split.
  - intros ->. cbn. repeat split; reflexivity.
  - intros (H1 & H2 & H3 & H4 & H5 & H6 & H7 & H8 & H9).
    destruct r; cbn in *. subst. reflexivity.
Qed.

(** C1.  On a namespace the pipeline has filled, with bounds whose
    years have four digits ([start <= end] or not), a range query with
    enough fuel returns exactly the stored records whose instant lies
    between the two bounds, both included, whatever the hour prefix
    they were listed under: a record is returned if and only if it
    holds, field by field, the key of such an instant (as its timestamp)
    and what the metadata stored under that key holds (the message
    count, the six averages, the concepts if any).  Each such record is
    returned once, and the records stand in ascending order of their
    timestamps (as strings, and so as instants). *)
Theorem range_query_exact kv (start end_ : DateRef) (dates : Dates)
    (s e : Z) (fuel : nat) :
  wellStored kv ->
  dates !! start = Some s -> dates !! end_ = Some e ->
  fourDigitYear s -> fourDigitYear e ->
  (enoughFuel kv s e <= fuel)%nat ->
  exists dates' results,
    getHistoricalMeters fuel kv start end_ dates = Some (dates', results) /\
    (forall r,
       r ∈ results <->
       exists t entry md,
         kv !! toISOString t = Some entry /\ kvMetadata entry = Some md /\
         s <= t <= e /\
         timestamp r = toISOString t /\
         messageCount r = md_messageCount md /\
         happinessAvg r = md_happinessAvg md /\
         sadnessAvg r = md_sadnessAvg md /\
         angerAvg r = md_angerAvg md /\
         fearAvg r = md_fearAvg md /\
         surpriseAvg r = md_surpriseAvg md /\
         disgustAvg r = md_disgustAvg md /\
         topConcepts r = md_topConcepts md) /\
    StronglySorted (fun a b => strLt (timestamp a) (timestamp b) = true)
      results /\
    exists instants,
      List.map timestamp results = List.map toISOString instants /\
      Forall (fun t => s <= t <= e) instants /\
      StronglySorted Z.lt instants.
Proof.
  intros Hstored Hs He Rs Re Hfuel.
  rewrite (getHistoricalMeters_spec fuel kv start end_ dates s e Hs He Hfuel).
  set (a := s / msPerHour). set (b := e / msPerHour).
  set (kept := concat (List.map (keptUnder kv (toISOString s) (toISOString e))
                         (seqZ a (b - a + 1)))).
  assert (forall h, h ∈ seqZ a (b - a + 1) -> fourDigitYear (msPerHour * h))
    as Hhours.
  { intros h Hh%elem_of_seqZ. apply (fourDigitYear_hour s e); trivial.
    unfold a, b in *. lia. }
  assert (forall r, r ∈ kept <->
            exists t entry md,
              kv !! toISOString t = Some entry /\ kvMetadata entry = Some md /\
              s <= t <= e /\ r = fromMetadata md (toISOString t)) as Hkept.
  { intros r. unfold kept. rewrite elem_of_concat. split.
    - intros (part & Hr & (h & -> & Hh)%list_elem_of_fmap).
      pose proof Hr as (t & Ht & Rt & Hth & Hin)%keptUnder_hour; auto.
      apply elem_of_keptUnder in Hr as (entry & md & Hk & Hm & Hrec & _).
      exists t, entry, md. rewrite <- Ht. auto.
    - intros (t & entry & md & Hk & Hm & Hin & ->).
      assert (fourDigitYear t) as Rt
        by (now apply (fourDigitYear_between s t e)).
      assert (t / msPerHour ∈ seqZ a (b - a + 1)) as Hh.
      { apply elem_of_seqZ. unfold a, b, msPerHour. zdiv. }
      exists (keptUnder kv (toISOString s) (toISOString e) (t / msPerHour)).
      split; [|apply list_elem_of_fmap; eauto].
      apply elem_of_keptUnder. exists entry, md. cbn.
      repeat split; trivial.
      + apply hour_prefix_iff; auto. unfold msPerHour. zdiv.
      + unfold strGe. rewrite strLe_toISOString by assumption. lia.
      + rewrite strLe_toISOString by assumption. lia. }
  assert (StronglySorted
            (fun r1 r2 => strLt (timestamp r1) (timestamp r2) = true)
            (sortBy byTimestamp kept)) as Hsorted.
  { apply sorted_strict; [apply byTimestamp_sorted|].
    rewrite sortBy_Permutation. unfold kept.
    apply NoDup_kept_hours; trivial. apply NoDup_seqZ. }
  do 2 eexists. split; [reflexivity|]. split; [|split; [exact Hsorted|]].
  - intros r. rewrite elem_of_sortBy, Hkept.
    split; intros (t & entry & md & Hk & Hm & Hin & Hr);
      exists t, entry, md; (repeat (split; [assumption|]));
      now apply fromMetadata_fields.
  - destruct (sorted_instants (fun t => s <= t <= e) (sortBy byTimestamp kept))
      as (ts & Hmap & Hts & Hlt); [|exact Hsorted|].
    + intros r Hr%elem_of_sortBy. apply Hkept in Hr
        as (t & entry & md & Hk & Hm & Hin & ->).
      exists t. split; [now apply (fourDigitYear_between s t e)|]. auto.
    + exists ts. split; [exact Hmap|]. split; [|exact Hlt].
      eapply Forall_impl; [exact Hts|]. cbn. tauto.
Qed.

(** ** The namespace the pipeline fills *)

Lemma wellStored_empty : wellStored (∅ : KVNamespace num).
Proof. intros k entry Hk. unfold KVNamespace in *. now rewrite lookup_empty in Hk. Qed.

Lemma wellStored_kvPut kv (t : Z) (value : JSObject) (md : Metadata num) :
  wellStored kv -> fourDigitYear t ->
  wellStored (kvPut kv (toISOString t) value md).
Proof.
  intros Hkv Rt k entry. unfold kvPut, KVNamespace in *.
  destruct (decide (toISOString t = k)) as [<-|Hne].
  - rewrite lookup_insert_eq. intros [= <-]. cbn. eauto.
  - rewrite lookup_insert_ne by assumption. apply Hkv.
Qed.

(** A run keeps the namespace well stored. *)
Lemma refreshMeters_wellStored (toLowerCase : jsstring -> jsstring) kv
    events provider (now : Z) apiKey kv' :
  wellStored kv -> fourDigitYear now ->
  refreshMeters toLowerCase kv events provider now apiKey = Returned kv' ->
  wellStored kv'.
Proof.
  intros Hkv Rn. unfold refreshMeters.
  destruct (updateMeters toLowerCase events provider now apiKey)
    as [|[data|]] eqn:E; [discriminate| |now intros [= <-]].
  intros [= <-].
  assert (timestamp data = toISOString now) as ->.
  { unfold updateMeters in E. destruct (resolved _); [|discriminate].
    injection E as E. unfold aggregate in E.
    destruct (0 <? _); [|discriminate]. now injection E as <-. }
  now apply wellStored_kvPut.
Qed.
End RangeTheorem.

(* ===================================================================== *)
(** * The model at work *)
(* ===================================================================== *)

Example toISOString_epoch :
  Date.toISOString 0 = js "1970-01-01T00:00:00.000Z".
Proof. vm_compute. reflexivity. Qed.

Example toISOString_2025 :
  Date.toISOString jan3_17h = js "2025-01-03T17:00:00.000Z".
Proof. vm_compute. reflexivity. Qed.

Example toISOString_leap_day :
  Date.toISOString 1709251199999 = js "2024-02-29T23:59:59.999Z".
Proof. vm_compute. reflexivity. Qed.

Example toISOString_before_epoch :
  Date.toISOString (-1) = js "1969-12-31T23:59:59.999Z".
Proof. vm_compute. reflexivity. Qed.

(** ** The stream collector *)

(** The claim C9 fails as stated: when the ceiling of two posts is
    reached, both posts have been handed on and the collection goes on,
    its connection open and its promise pending. *)
Lemma ceiling_reached_yet_open :
  let c := connectToFirehose sampleOptions []
             [OnOpen; OnCreate (samplePost "a"); OnCreate (samplePost "b")] in
  eventLimit sampleOptions = Some 2 /\
  calls c = [samplePost "a"; samplePost "b"] /\
  isClosed c = false /\ resolved c = None.
Proof. vm_compute. repeat split. Qed.

Lemma eventLimit_stops_collection_witness :
  eventLimit sampleOptions = Some 2 /\ 1 <= 2 /\
  let c := connectToFirehose sampleOptions [] sampleEvents in
  calls c = take (Z.to_nat 2) (createdPosts sampleEvents) /\
  Z.of_nat (length (calls c)) <= 2 /\
  isClosed c = true /\ is_Some (resolved c).
Proof.
  split; [reflexivity|]. split; [lia|].
  destruct (eventLimit_stops_collection sampleOptions 2 eq_refl
              ltac:(lia) [] sampleEvents) as (Hcalls & Hlen & Hstop & _).
  cbv zeta. repeat (split; [assumption|]). apply Hstop. reflexivity.
Defined.

(** The first two posts are handed on, the others dropped. *)
Example collector_keeps_the_first_posts :
  resolved (connectToFirehose sampleOptions [] sampleEvents)
  = Some [samplePost "a"; samplePost "b"].
Proof. vm_compute. reflexivity. Qed.

(** ** The aggregator *)

Example happiness_5_7_9 :
  happinessAvg <$> aggregate asciiLower mixedBatch jan3_17h
  = Some (Binary64.of_Z 7).
Proof. vm_compute. reflexivity. Qed.

Lemma averages_are_means_over_successes_witness :
  (1 <= length (successes mixedBatch))%nat /\
  exists data,
    aggregate asciiLower mixedBatch jan3_17h = Some data /\
    messageCount data = 3 /\
    happinessAvg data = mean (List.map happiness (successes mixedBatch)) /\
    disgustAvg data = mean (List.map disgust (successes mixedBatch)).
Proof.
  assert (1 <= length (successes mixedBatch))%nat as Hn by (cbn; lia).
  split; [exact Hn|].
  destruct (averages_are_means_over_successes asciiLower mixedBatch jan3_17h Hn)
    as (data & Ha & Hm & Hh & _ & _ & _ & _ & Hd & _).
  exists data. auto.
Defined.

Lemma no_success_no_record_witness :
  successes failedBatch = [] /\
  aggregate asciiLower failedBatch jan3_17h = None.
Proof.
  split; [reflexivity|].
  apply (proj1 (no_success_no_record asciiLower)). reflexivity.
Defined.

(** ** The parser *)

Example reordered_reply_parses :
  parseSentimentResponse reorderedReply =
  Success {| happiness := Binary64.of_Z 7; sadness := Binary64.of_Z 1;
             anger := Binary64.of_Z 0; fear := Binary64.of_Z 3;
             surprise := Binary64.of_Z 5; disgust := Binary64.of_Z 4;
             concepts := [js "peace"; js "Ukraine war"] |}.
Proof. vm_compute. reflexivity. Qed.

Example wide_reply_parses :
  parseSentimentResponse wideReply =
  Success {| happiness := Binary64.div (Binary64.of_Z 15) (Binary64.of_Z 2);
             sadness := Binary64.of_Z 12;
             anger := Binary64.of_Z 0; fear := Binary64.of_Z 3;
             surprise := Binary64.of_Z 5;
             disgust := Binary64.div (Binary64.of_Z 17) (Binary64.of_Z 4);
             concepts := [js "peace"] |}.
Proof. vm_compute. reflexivity. Qed.

(** The claim C5 fails as stated: this reply carries the seven labels and
    is a failure all the same. *)
Lemma all_labels_yet_malformed :
  forallb (fun label => includes wordyReply (js label)) requiredLabels
    = true /\
  parseSentimentResponse (num := spec_float) wordyReply
    = Failure wordyReply.
Proof. split; vm_compute; reflexivity. Qed.

Lemma parse_malformed_unless_well_formed_witness :
  (In "fear"%string requiredLabels /\
   includes noFearReply (js "fear") = false /\
   parseSentimentResponse (num := spec_float) noFearReply
     = Failure noFearReply) /\
  (wellFormedReply reorderedReply /\
   exists s, parseSentimentResponse (num := spec_float) reorderedReply
             = Success s).
Proof.
  assert (In "fear"%string requiredLabels) as Hin by (cbn; tauto).
  assert (includes noFearReply (js "fear") = false) as Hmiss by reflexivity.
  assert (wellFormedReply reorderedReply) as Hwf.
  { apply (parse_Success_iff (num := spec_float)). eexists.
    vm_compute. reflexivity. }
  destruct (parse_malformed_unless_well_formed (num := spec_float) noFearReply)
    as (Hlabel & _ & _).
  destruct (parse_malformed_unless_well_formed (num := spec_float) reorderedReply)
    as (_ & Hok & _).
  split; [split; [exact Hin|split; [exact Hmiss|exact (Hlabel _ Hin Hmiss)]]|].
  split; [exact Hwf|exact (Hok Hwf)].
Defined.

(** The claim C6 fails as stated: trimmed, this reply is the literal, yet
    its reason is not the sentinel and it counts as a true failure. *)
Lemma untrimmed_reply_is_a_true_failure :
  trim untrimmedReply = NO_SENTIMENT /\
  untrimmedReply <> NO_SENTIMENT /\
  parseSentimentResponse (num := spec_float) untrimmedReply
    = Failure untrimmedReply /\
  t_noSentimentCount
    (tallyAll asciiLower [parseSentimentResponse (num := spec_float) untrimmedReply])
    = 0 /\
  t_failureCount
    (tallyAll asciiLower [parseSentimentResponse (num := spec_float) untrimmedReply])
    = 1.
Proof.
  split; [vm_compute; reflexivity|]. split; [discriminate|].
  split; [vm_compute; reflexivity|]. split; vm_compute; reflexivity.
Qed.

Lemma no_sentiment_is_the_exact_reply_witness :
  parseSentimentResponse (num := spec_float) NO_SENTIMENT = Failure NO_SENTIMENT /\
  t_noSentimentCount (tallyAll asciiLower mixedBatch) = 1 /\
  t_failureCount (tallyAll asciiLower mixedBatch) = 1.
Proof.
  destruct (no_sentiment_is_the_exact_reply (num := spec_float) asciiLower)
    as [Hparse Hcount].
  split; [now apply Hparse|].
  destruct (Hcount mixedBatch) as [-> ->]. split; reflexivity.
Defined.

(** The claim C7 fails as stated: a negative score makes the reply a
    failure. *)
Lemma negative_score_rejected :
  forallb (fun label => includes negativeReply (js label)) requiredLabels
    = true /\
  parseSentimentResponse (num := spec_float) negativeReply
    = Failure negativeReply.
Proof. split; vm_compute; reflexivity. Qed.

Lemma scores_read_as_written_witness :
  (exists concepts,
     parseSentimentResponse reorderedWideReply =
     Success {| happiness := Binary64.parseFloat (js "7.5");
                sadness := Binary64.parseFloat (js "99");
                anger := Binary64.parseFloat (js "0");
                fear := Binary64.parseFloat (js "12");
                surprise := Binary64.parseFloat (js "5");
                disgust := Binary64.parseFloat (js "4.25");
                concepts := concepts |}) /\
  minusEverywhere (js "fear:") negativeReply /\
  parseSentimentResponse (num := spec_float) negativeReply
    = Failure negativeReply.
Proof.
  destruct (scores_read_as_written (num := spec_float) reorderedWideReply)
    as (Hread & _ & _).
  destruct (scores_read_as_written (num := spec_float) negativeReply)
    as (_ & _ & Hminus).
  assert (minusEverywhere (js "fear:") negativeReply) as Hm
    by (apply minusAfterEvery_sound; vm_compute; reflexivity).
  split; [|split; [exact Hm|]].
  - apply Hread;
      try (apply matchScore_firstScore; vm_compute; reflexivity).
    apply matchConcepts_is_Some. vm_compute. eauto.
  - apply (Hminus "fear"%string); [cbn; tauto|exact Hm].
Defined.

(** ** The concept table *)

Example concept_table :
  (topConcepts <$> aggregate asciiLower conceptBatch jan3_17h)
  = Some (Some [(js "peace", Count 2); (js "2024", Count 1);
                (js "war", Count 1)]).
Proof. vm_compute. reflexivity. Qed.

(** The claim C8 fails as stated: one success, four concepts. *)
Lemma four_concepts_break_the_bound :
  exists data,
    aggregate asciiLower [parseSentimentResponse fourConceptsReply] jan3_17h
      = Some data /\
    messageCount data = 1 /\
    sumCounts (default [] (topConcepts data)) = 4.
Proof. eexists. split; [vm_compute; reflexivity|]. split; reflexivity. Qed.

Lemma concept_counts_bounded_witness :
  (forall s, s ∈ successes conceptBatch -> (length (concepts s) <= 3)%nat) /\
  exists data,
    aggregate asciiLower conceptBatch jan3_17h = Some data /\
    sumCounts (default [] (topConcepts data)) <= messageCount data * 3.
Proof.
  assert (forall s, s ∈ successes conceptBatch -> (length (concepts s) <= 3)%nat)
    as Hle.
  { intros s Hs. apply list_elem_of_In in Hs. cbn in Hs.
    destruct Hs as [<-|[<-|[]]]; cbn; lia. }
  split; [exact Hle|].
  destruct (aggregate asciiLower conceptBatch jan3_17h) as [data|] eqn:E;
    [|vm_compute in E; discriminate].
  exists data. split; [reflexivity|].
  exact (concept_counts_bounded asciiLower conceptBatch jan3_17h data Hle E).
Defined.

(** The claim C4 fails as stated: of 201 concepts seen once each, the one
    seen last is an array index; the table enumerates it first, so it is
    kept and the last of the others is dropped, where the order first
    seen would drop the index. *)
Lemma array_index_outranks_first_seen :
  let l := loweredConcepts asciiLower manyConcepts in
  exists data top,
    aggregate asciiLower manyConcepts jan3_17h = Some data /\
    topConcepts data = Some top /\
    length (firstSeen l) = 201%nat /\
    getOwn top (js "7") = Some (Count 1) /\
    getOwn top (js "c199") = None /\
    getOwn (rankedFirstSeen l) (js "7") = None /\
    getOwn (rankedFirstSeen l) (js "c199") = Some (Count 1).
Proof.
  cbv zeta. do 2 eexists. split; [vm_compute; reflexivity|].
  split; [reflexivity|]. repeat split; vm_compute; reflexivity.
Qed.

Lemma top_concepts_ranked_witness :
  Forall (fun c => inheritedName c = false)
    (loweredConcepts asciiLower conceptBatch) /\
  exists data top,
    aggregate asciiLower conceptBatch jan3_17h = Some data /\
    topConcepts data = Some top /\ (length top <= 200)%nat /\
    forall c,
      getOwn top c =
      if bool_decide (c ∈ loweredConcepts asciiLower conceptBatch)
      then Some (Count (occurrences c (loweredConcepts asciiLower conceptBatch)))
      else None.
Proof.
  assert (Forall (fun c => inheritedName c = false)
            (loweredConcepts asciiLower conceptBatch)) as Hclean
    by (repeat constructor).
  split; [exact Hclean|].
  destruct (aggregate asciiLower conceptBatch jan3_17h) as [data|] eqn:E;
    [|vm_compute in E; discriminate].
  destruct (top_concepts_ranked asciiLower conceptBatch jan3_17h data E)
    as (top & Htop & Hlen & Hrank).
  destruct (Hrank Hclean) as (En & R & _ & _ & _ & Hall).
  exists data, top. repeat (split; [assumption || reflexivity|]).
  apply Hall. vm_compute. lia.
Defined.

(** ** The range query *)

(** A record at 17:00 and one at 18:00; the range 17:30 to 18:30 returns
    the second only, and leaves the two dates at 17:00 and 18:00. *)
Example range_17h30_18h30 :
  getHistoricalMeters 5 sampleStore 1%positive 2%positive sampleDates
  = Some (<[2%positive := jan3_17h + Date.msPerHour]>
            (<[1%positive := jan3_17h]> sampleDates),
          [fromMetadata (sampleMetadata 2) (js "2025-01-03T18:00:00.000Z")]).
Proof. vm_compute. reflexivity. Qed.

Lemma sampleStore_wellStored : wellStored sampleStore.
Proof.
  unfold sampleStore.
  repeat apply wellStored_kvPut; try apply wellStored_empty;
    vm_compute; (split; [discriminate|reflexivity]).
Qed.

Lemma range_query_exact_witness :
  wellStored sampleStore /\
  sampleDates !! 1%positive = Some (jan3_17h + 1800000) /\
  sampleDates !! 2%positive = Some (jan3_17h + 5400000) /\
  Date.fourDigitYear (jan3_17h + 1800000) /\
  Date.fourDigitYear (jan3_17h + 5400000) /\
  (enoughFuel sampleStore (jan3_17h + 1800000) (jan3_17h + 5400000) <= 5)%nat /\
  exists dates' results,
    getHistoricalMeters 5 sampleStore 1%positive 2%positive sampleDates
      = Some (dates', results) /\
    (forall r,
       r ∈ results <->
       exists t entry md,
         sampleStore !! Date.toISOString t = Some entry /\
         kvMetadata entry = Some md /\
         jan3_17h + 1800000 <= t <= jan3_17h + 5400000 /\
         timestamp r = Date.toISOString t /\
         messageCount r = md_messageCount md /\
         happinessAvg r = md_happinessAvg md /\
         sadnessAvg r = md_sadnessAvg md /\
         angerAvg r = md_angerAvg md /\
         fearAvg r = md_fearAvg md /\
         surpriseAvg r = md_surpriseAvg md /\
         disgustAvg r = md_disgustAvg md /\
         topConcepts r = md_topConcepts md) /\
    StronglySorted (fun a b => strLt (timestamp a) (timestamp b) = true)
      results.
Proof.
  assert (Date.fourDigitYear (jan3_17h + 1800000)) as R1
    by (vm_compute; split; [discriminate|reflexivity]).
  assert (Date.fourDigitYear (jan3_17h + 5400000)) as R2
    by (vm_compute; split; [discriminate|reflexivity]).
  assert (enoughFuel sampleStore (jan3_17h + 1800000) (jan3_17h + 5400000)
          <= 5)%nat as Hfuel by (vm_compute; lia).
  repeat (split; [first [exact sampleStore_wellStored | reflexivity
                        | assumption]|]).
  destruct (range_query_exact sampleStore 1%positive 2%positive sampleDates
              (jan3_17h + 1800000) (jan3_17h + 5400000) 5
              sampleStore_wellStored eq_refl eq_refl R1 R2 Hfuel)
    as (dates' & results & Hrun & Hin & Hsorted & _).
  exists dates', results. auto.
Defined.

Lemma range_query_truncates_its_dates_witness :
  sampleDates !! 1%positive = Some (jan3_17h + 1800000) /\
  sampleDates !! 2%positive = Some (jan3_17h + 5400000) /\
  exists results,
    getHistoricalMeters 5 sampleStore 1%positive 2%positive sampleDates
    = Some (<[2%positive := Date.setMinutes (jan3_17h + 5400000) 0 0 0]>
              (<[1%positive := Date.setMinutes (jan3_17h + 1800000) 0 0 0]>
                 sampleDates),
            results).
Proof.
  split; [reflexivity|]. split; [reflexivity|].
  assert (enoughFuel sampleStore (jan3_17h + 1800000) (jan3_17h + 5400000)
          <= 5)%nat as Hfuel by (vm_compute; lia).
  exact (proj1 (range_query_truncates_its_dates sampleStore 1%positive
                  2%positive sampleDates (jan3_17h + 1800000)
                  (jan3_17h + 5400000) eq_refl eq_refl) 5%nat Hfuel).
Defined.

(* ===================================================================== *)
(** * When the stream collector stops, and when it does not *)
(* ===================================================================== *)

Section CollectorLifetime.
Context {St : Type} (options : FirehoseOptions St).

(** X1.  The promise of [connectToFirehose] is resolved after a stream
    of events exactly when the connection has closed, the timer of a
    given (non-zero) duration has fired, or more posts have arrived than
    a given (non-zero) limit allows.  Errors of the transport and
    errors thrown by [onPost] never end the collection. *)
Theorem collection_ends_only_when_told (s : St)
    (events : list StreamEvent) :
  is_Some (resolved (connectToFirehose options s events)) <->
  stops options events.
Proof.
  destruct (tracked_connectToFirehose options s events) as (_ & Hr & Hc & _).
  now rewrite Hr.
Qed.

Lemma resolved_handle (c : Connection St) (ev : StreamEvent) (s : St) :
  (is_Some (resolved c) <-> isClosed c = true) ->
  resolved c = Some s -> resolved (handle options c ev) = Some s.
Proof.
  intros Hr Hs. assert (isClosed c = true) as E by (apply Hr; eauto).
  destruct ev as [post|err| | |]; cbn [handle]; trivial.
  - unfold handleCreate, cleanup, reportError. cbn. rewrite E.
    destruct (_ && _); cbn; trivial.
    destruct (onPost options post (state c)); [|destruct (onError options)];
      cbn; trivial.
  - unfold reportError. destruct (onError options); cbn; trivial.
  - unfold cleanup. now rewrite E.
  - unfold cleanup. rewrite E. now destruct (timeout c).
Qed.

Lemma resolved_later (s s1 : St) (events later : list StreamEvent) :
  resolved (connectToFirehose options s events) = Some s1 ->
  resolved (connectToFirehose options s (events ++ later)) = Some s1.
Proof.
  induction later as [|ev later IH] using rev_ind; intros Hs.
  - now rewrite app_nil_r.
  - rewrite (assoc_L app). unfold connectToFirehose in *.
    rewrite fold_left_app. cbn [fold_left]. apply resolved_handle; auto.
    now destruct (tracked_connectToFirehose options s (events ++ later))
      as (_ & Hr & _).
Qed.

(** X2.  The promise is resolved once: what the caller sees when the
    collection ends is not changed by any event that arrives later. *)
Theorem collection_resolves_once (s s1 : St)
    (events later : list StreamEvent) :
  resolved (connectToFirehose options s events) = Some s1 ->
  resolved (connectToFirehose options s (events ++ later)) = Some s1.
Proof.
  intros Hs. induction later as [|ev later IH] using rev_ind.
  - now rewrite app_nil_r.
  - rewrite (assoc_L app). unfold connectToFirehose in *.
    rewrite fold_left_app. cbn [fold_left].
    destruct (tracked_connectToFirehose options s (events ++ later))
      as (_ & Hr & _).
    now apply resolved_handle.
Qed.
End CollectorLifetime.

(* ===================================================================== *)
(** * What a run of [updateMeters] waits for and how much it scores *)
(* ===================================================================== *)

Section RunFacts.
Context {num : Type} `{Number num} (toLowerCase : jsstring -> jsstring).

Lemma stops_updateMeters (events : list StreamEvent) :
  stops updateMetersOptions events <->
  OnClose ∈ events \/ (2000 < length (createdPosts events))%nat.
Proof.
  unfold stops, updateMetersOptions; cbn.
  intuition (try discriminate; try lia).
Qed.

(** X3.  A run of [updateMeters] connects with a limit of 2000 posts and
    no duration: it goes on waiting exactly as long as the stream has
    neither closed nor announced its 2001st post. *)
Theorem updateMeters_waits_for_the_2001st_post (events : list StreamEvent)
    (provider : jsstring -> ProviderReply) (now : Z) (apiKey : jsstring) :
  updateMeters toLowerCase events provider now apiKey = Pending <->
  (OnClose ∉ events) /\ (length (createdPosts events) <= 2000)%nat.
Proof.
  unfold updateMeters.
  destruct (tracked_connectToFirehose updateMetersOptions [] events)
    as (_ & Hr & Hc & _).
  rewrite Hc, stops_updateMeters in Hr.
  destruct (resolved _) as [posts|].
  - split; [discriminate|]. intros [Hno Hle].
    destruct (proj1 Hr) as [Hcl|Hlim]; [eauto|tauto|lia].
  - split; [intros _|reflexivity].
    split; [intros Hcl|apply Nat.nlt_ge; intros Hlim];
      destruct (proj2 Hr) as [x [=]]; auto.
Qed.

Lemma length_successes (results : list (SentimentResult num)) :
  (length (successes results) <= length results)%nat.
Proof.
  unfold successes. induction results as [|[s|e] results IH];
    cbn [omap list_omap length]; lia.
Qed.

(** X4.  A record that [updateMeters] returns counts at least one scored
    post and at most 2000 of them: the run classifies no more than the
    first 2000 posts of the stream. *)
Theorem updateMeters_scores_at_most_2000 (events : list StreamEvent)
    (provider : jsstring -> ProviderReply) (now : Z) (apiKey : jsstring)
    (data : SentimentData num) :
  updateMeters toLowerCase events provider now apiKey = Returned (Some data) ->
  1 <= messageCount data <= 2000.
Proof.
  unfold updateMeters.
  destruct (resolved _) as [posts|] eqn:Hres; [|discriminate].
  intros [= Hagg]. apply updateMeters_batch in Hres as [_ Hlen].
  pose proof Hagg as [Hm _]%(aggregate_Some toLowerCase).
  pose proof (length_successes
                (List.map (fun post => analyzeSentiment provider (text post) apiKey)
                   posts)) as Hle.
  rewrite length_map in Hle. split; [|lia].
  unfold aggregate in Hagg.
  destruct (Z.ltb_spec 0 (t_messageCount
              (tallyAll toLowerCase
                 (List.map (fun post => analyzeSentiment provider (text post) apiKey)
                    posts)))) as [Hpos|]; [|discriminate].
  injection Hagg as <-. cbn. lia.
Qed.

Lemma tally_counts (results : list (SentimentResult num)) (t : Tally num) :
  let t' := fold_left (tally toLowerCase) results t in
  t_messageCount t' + t_failureCount t' + t_noSentimentCount t'
  = t_messageCount t + t_failureCount t + t_noSentimentCount t
    + Z.of_nat (length results) /\
  t_messageCount t <= t_messageCount t' /\
  t_failureCount t <= t_failureCount t' /\
  t_noSentimentCount t <= t_noSentimentCount t'.
Proof.
  cbv zeta. revert t.
  induction results as [|r results IH]; intros t; cbn [fold_left length].
  - lia.
  - specialize (IH (tally toLowerCase t r)).
    destruct r as [s|e]; cbn [tally] in *.
    + cbn in IH. lia.
    + destruct (negb (strEq e (js "NO SENTIMENT"))); cbn in IH; lia.
Qed.

(** X5.  The three counters of a run partition its batch: every result
    is counted once, as a scored post, as a failure, or as a post
    without sentiment. *)
Theorem every_result_is_counted_once (results : list (SentimentResult num)) :
  let t := tallyAll toLowerCase results in
  t_messageCount t + t_failureCount t + t_noSentimentCount t
  = Z.of_nat (length results) /\
  0 <= t_messageCount t /\ 0 <= t_failureCount t /\
  0 <= t_noSentimentCount t.
Proof.
  cbv zeta. unfold tallyAll.
  pose proof (tally_counts results emptyTally) as Hc. cbn in Hc. lia.
Qed.
End RunFacts.

(* ===================================================================== *)
(** * The counts a record reports *)
(* ===================================================================== *)

Section ExactCounts.
Lemma keys_setOwn o k v :
  List.map fst (setOwn o k v) =
  if bool_decide (k ∈ List.map fst o) then List.map fst o
  else List.map fst o ++ [k].
Proof.
  induction o as [|[k' v'] o IH]; cbn; [reflexivity|].
  destruct (strEq k' k) eqn:E; cbn.
  - apply strEq_true in E as ->.
    now rewrite bool_decide_eq_true_2 by apply list_elem_of_here.
  - apply strEq_false in E. rewrite IH.
    destruct (bool_decide_reflect (k ∈ List.map fst o)) as [Hin|Hnin].
    + now rewrite bool_decide_eq_true_2 by now apply list_elem_of_further.
    + rewrite bool_decide_eq_false_2; [reflexivity|].
      rewrite not_elem_of_cons. split; congruence.
Qed.

Lemma elem_of_setOwn o k v k' v' :
  NoDup (List.map fst o) ->
  (k', v') ∈ setOwn o k v ->
  (k' = k /\ v' = v) \/ (k' <> k /\ (k', v') ∈ o).
Proof.
  induction o as [|[k0 v0] o IH]; cbn; intros Hnd Hin.
  - apply list_elem_of_singleton in Hin as [= -> ->]. auto.
  - apply NoDup_cons in Hnd as [Hk Hnd].
    destruct (strEq k0 k) eqn:E.
    + apply strEq_true in E as ->.
      apply elem_of_cons in Hin as [[= -> ->]|Hin]; [auto|].
      right. split; [|now apply list_elem_of_further].
      intros ->. apply Hk. apply list_elem_of_fmap. now exists (k, v').
    + apply strEq_false in E.
      apply elem_of_cons in Hin as [[= -> ->]|Hin].
      * right. split; [congruence|apply list_elem_of_here].
      * destruct (IH Hnd Hin) as [?|[? ?]]; [auto|].
        right. split; [assumption|now apply list_elem_of_further].
Qed.

Lemma NoDup_keys_setOwn o k v :
  NoDup (List.map fst o) -> NoDup (List.map fst (setOwn o k v)).
Proof.
  intros Hnd. rewrite keys_setOwn.
  destruct (bool_decide_reflect (k ∈ List.map fst o)) as [Hin|Hnin];
    [assumption|].
  apply NoDup_app. split; [assumption|]. split; [|apply NoDup_singleton].
  intros x Hx ->%list_elem_of_singleton. contradiction.
Qed.

Lemma inheritedText_nonempty k text s :
  inheritedText k = Some text -> text ++ s <> [].
Proof.
  unfold inheritedText. destruct (strEq k (js "__proto__")).
  - now intros [= <-].
  - destruct (getOwn _ k) as [[n|name]|]; try discriminate.
    now intros [= <-].
Qed.

Lemma exactCounts_nil : exactCounts [] [].
Proof.
  split; [constructor|]. split.
  - intros k Hk. now apply elem_of_nil in Hk.
  - intros k v Hk. now apply elem_of_nil in Hk.
Qed.

(** One counting step keeps the counts exact. *)
Lemma exactCounts_countKey l o c :
  exactCounts l o -> exactCounts (l ++ [c]) (countKey o c).
Proof.
  intros (Hnd & Hall & Hcells). unfold countKey, assign.
  destruct (strEq c (js "__proto__")) eqn:Ep.
  - (* the setter of [__proto__] ignores the write *)
    apply strEq_true in Ep as ->. split; [assumption|]. split.
    + intros k [Hk| ->%list_elem_of_singleton]%elem_of_app Hne;
        [auto|contradiction].
    + intros k v Hkv. destruct (Hcells k v Hkv) as (Hk & Hne & Hv).
      split; [apply elem_of_app; auto|]. split; [assumption|].
      destruct v as [n|s]; [|assumption].
      rewrite occurrences_snoc, bool_decide_eq_false_2 by congruence.
      destruct Hv. split; [lia|assumption].
  - apply strEq_false in Ep. split; [now apply NoDup_keys_setOwn|]. split.
    + intros k [Hk| ->%list_elem_of_singleton]%elem_of_app Hne;
        rewrite keys_setOwn;
        destruct (bool_decide_reflect (c ∈ List.map fst o));
        rewrite ?elem_of_app, ?list_elem_of_singleton; auto.
    + intros k v Hkv.
      apply elem_of_setOwn in Hkv as [[-> ->]|[Hne Hkv]]; [| |assumption].
      * (* the cell of [c] *)
        split; [apply elem_of_app; right; apply list_elem_of_here|].
        split; [assumption|]. unfold incremented.
        destruct (getOwn o c) as [cell|] eqn:Eg.
        -- apply getOwn_Some_elem in Eg.
           destruct (Hcells c cell Eg) as (Hc & _ & Hv).
           destruct cell as [n|[|x s]]; destruct Hv as [Hv1 Hv2];
             [|congruence|now split].
           pose proof (occurrences_pos c l Hc).
           destruct (Z.eqb_spec n 0); [lia|].
           rewrite occurrences_snoc, bool_decide_eq_true_2 by reflexivity.
           split; [lia|assumption].
        -- apply getOwn_None in Eg.
           assert (c ∉ l) as Hc by (intros Hc; apply Eg; auto).
           unfold inheritedName.
           destruct (inheritedText c) as [text|] eqn:Et.
           ++ split; [reflexivity|]. now apply inheritedText_nonempty with c.
           ++ rewrite occurrences_snoc, bool_decide_eq_true_2 by reflexivity.
              rewrite occurrences_absent by assumption. now split.
      * (* the other cells *)
        destruct (Hcells k v Hkv) as (Hk & Hnp & Hv).
        split; [apply elem_of_app; auto|]. split; [assumption|].
        destruct v as [n|s]; [|assumption].
        rewrite occurrences_snoc, bool_decide_eq_false_2 by congruence.
        destruct Hv. split; [lia|assumption].
Qed.

Lemma exactCounts_fold l l0 o :
  exactCounts l0 o -> exactCounts (l0 ++ l) (fold_left countKey l o).
Proof.
  revert l0 o. induction l as [|c l IH]; intros l0 o Ho; cbn [fold_left].
  - now rewrite app_nil_r.
  - rewrite (assoc_L app _ [c] l : l0 ++ c :: l = (l0 ++ [c]) ++ l).
    apply IH. now apply exactCounts_countKey.
Qed.

(** The table a record reports keeps cells of the counting table. *)
Lemma top200Concepts_subset l o k v :
  exactCounts l o -> (k, v) ∈ top200Concepts o -> (k, v) ∈ o.
Proof.
  intros (Hnd & _ & Hcells) Hin. unfold top200Concepts, sortedConcepts in Hin.
  set (R := sortBy byCountDescending (entries o)) in *.
  assert (R ≡ₚ o) as HR
    by (unfold R; now rewrite sortBy_Permutation, entries_Permutation).
  rewrite fold_assign_fresh in Hin.
  - cbn [app] in Hin. rewrite <- HR. eapply subseteq_take, Hin.
  - cbn [app]. rewrite <- List.firstn_map. apply NoDup_take. now rewrite HR.
  - intros (p & Hp & Hpin%subseteq_take)%list_elem_of_fmap.
    rewrite HR in Hpin. destruct p as [k' v']. cbn in Hp. subst k'.
    now destruct (Hcells _ _ Hpin) as (_ & Hne & _).
Qed.
End ExactCounts.

Section ReportedCounts.
Context {num : Type} `{Number num} (toLowerCase : jsstring -> jsstring).

(** X6.  Whatever the concepts are, every entry of [topConcepts] is a
    lower-cased concept of the batch, and an entry that holds a number
    holds the exact number of occurrences of that concept in the batch.
    An entry that holds a string instead belongs to a name that objects
    inherit (such as [constructor]). *)
Theorem reported_counts_are_exact (results : list (SentimentResult num))
    (now : Z) (data : SentimentData num) :
  aggregate toLowerCase results now = Some data ->
  let l := loweredConcepts toLowerCase results in
  exists top,
    topConcepts data = Some top /\
    forall k v, (k, v) ∈ top ->
      k ∈ l /\
      match v with
      | Count n => n = occurrences k l /\ 1 <= n
      | Text _ => inheritedName k = true
      end.
Proof.
  intros [_ Ht]%aggregate_Some. cbv zeta.
  set (l := loweredConcepts toLowerCase results) in *.
  eexists. split; [exact Ht|]. intros k v Hin.
  pose proof (exactCounts_fold l [] [] exactCounts_nil) as Hex.
  cbn [app] in Hex.
  apply (top200Concepts_subset l) in Hin; [|exact Hex].
  destruct Hex as (_ & _ & Hcells).
  destruct (Hcells k v Hin) as (Hk & _ & Hv). split; [assumption|].
  destruct v as [n|s]; [|tauto].
  destruct Hv as [-> _]. split; [reflexivity|]. now apply occurrences_pos.
Qed.
End ReportedCounts.

(* ===================================================================== *)
(** * What the parser hands on *)
(* ===================================================================== *)

Section TrimFacts.
Lemma elem_of_trim (s : jsstring) (x : N) : x ∈ trim s -> x ∈ s.
Proof.
  unfold trim. rewrite elem_of_reverse.
  intros Hx%elem_of_dropWhile. rewrite elem_of_reverse in Hx.
  now apply elem_of_dropWhile in Hx.
Qed.

(** Trimming leaves nothing to trim. *)
Lemma trim_idempotent (s : jsstring) : trim (trim s) = trim s.
Proof.
  unfold trim. set (d := dropWhile isWhiteSpace s).
  set (r := dropWhile isWhiteSpace (reverse d)).
  assert (dropWhile isWhiteSpace (reverse r) = reverse r) as HA.
  { destruct (reverse r) as [|x xr] eqn:E; [reflexivity|].
    pose proof (takeWhile_dropWhile isWhiteSpace (reverse d)) as Hsplit.
    fold r in Hsplit. apply (f_equal reverse) in Hsplit.
    rewrite reverse_app, reverse_involutive, E in Hsplit. cbn [app] in Hsplit.
    symmetry in Hsplit. apply dropWhile_head in Hsplit.
    cbn. now rewrite Hsplit. }
  rewrite HA, reverse_involutive. f_equal.
  destruct r as [|y r'] eqn:E; [reflexivity|].
  apply dropWhile_head in E. cbn. now rewrite E.
Qed.

Lemma elem_of_split (sep : N) (s piece : jsstring) (x : N) :
  piece ∈ split sep s -> x ∈ piece -> x ∈ s /\ x <> sep.
Proof.
  revert piece. induction s as [|c s IH]; intros piece; cbn [split].
  - intros ->%list_elem_of_singleton Hx. now apply elem_of_nil in Hx.
  - destruct (N.eqb_spec c sep) as [->|Hne].
    + intros [->|Hp]%elem_of_cons Hx; [now apply elem_of_nil in Hx|].
      destruct (IH piece Hp Hx). split; [now apply list_elem_of_further|auto].
    + destruct (split sep s) as [|p0 ps] eqn:E.
      * intros ->%list_elem_of_singleton ->%list_elem_of_singleton.
        split; [apply list_elem_of_here|assumption].
      * intros [->|Hp]%elem_of_cons Hx.
        -- apply elem_of_cons in Hx as [->|Hx];
             [split; [apply list_elem_of_here|assumption]|].
           destruct (IH p0 (list_elem_of_here _ _) Hx).
           split; [now apply list_elem_of_further|auto].
        -- destruct (IH piece (list_elem_of_further _ _ _ Hp) Hx).
           split; [now apply list_elem_of_further|auto].
Qed.
End TrimFacts.

Section HandedOn.
Context {num : Type} `{Number num}.

(** X7.  The concepts of a parsed reply are clean: none is empty, none
    has white space at either end, and none contains a comma or a line
    terminator. *)
Theorem parsed_concepts_are_clean (content : jsstring) (sc : Scores num) :
  parseSentimentResponse content = Success sc ->
  Forall (fun c =>
            c <> [] /\ trim c = c /\
            Forall (fun x => x <> 44%N /\ isLineTerminator x = false) c)
    (concepts sc).
Proof.
  unfold parseSentimentResponse.
  destruct (matchScore "happiness" content); [|discriminate].
  destruct (matchScore "sadness" content); [|discriminate].
  destruct (matchScore "anger" content); [|discriminate].
  destruct (matchScore "fear" content); [|discriminate].
  destruct (matchScore "surprise" content); [|discriminate].
  destruct (matchScore "disgust" content); [|discriminate].
  destruct (matchConcepts content) as [cap|] eqn:Ec; [|discriminate].
  intros [= <-]. cbn [concepts].
  apply capture_Some in Ec as (_ & Hline & _).
  apply Forall_forall. intros c Hc.
  apply list_elem_of_In, List.filter_In in Hc as [Hc Hlen].
  apply list_elem_of_In, list_elem_of_fmap in Hc as (piece & -> & Hpiece).
  split; [|split].
  - intros E. rewrite E in Hlen. discriminate.
  - apply trim_idempotent.
  - apply Forall_forall. intros x Hx%elem_of_trim.
    destruct (elem_of_split _ _ _ _ Hpiece Hx) as [Hin%elem_of_trim Hne].
    split; [assumption|].
    rewrite forallb_forall in Hline.
    apply list_elem_of_In, Hline in Hin. now apply negb_true_iff in Hin.
Qed.

(** X8.  What a parsed reply hands to [parseFloat] is, for each of the
    six scores, a run of digits and dots that is not empty: never a
    sign, an exponent or a word. *)
Theorem scores_are_read_from_digit_runs (content : jsstring)
    (sc : Scores num) :
  parseSentimentResponse content = Success sc ->
  exists h s a f su d,
    digitRun h /\ digitRun s /\ digitRun a /\
    digitRun f /\ digitRun su /\ digitRun d /\
    happiness sc = parseFloat h /\ sadness sc = parseFloat s /\
    anger sc = parseFloat a /\ fear sc = parseFloat f /\
    surprise sc = parseFloat su /\ disgust sc = parseFloat d.
Proof.
  unfold parseSentimentResponse.
  destruct (matchScore "happiness" content) as [h|] eqn:E1; [|discriminate].
  destruct (matchScore "sadness" content) as [s|] eqn:E2; [|discriminate].
  destruct (matchScore "anger" content) as [a|] eqn:E3; [|discriminate].
  destruct (matchScore "fear" content) as [f|] eqn:E4; [|discriminate].
  destruct (matchScore "surprise" content) as [su|] eqn:E5; [|discriminate].
  destruct (matchScore "disgust" content) as [d|] eqn:E6; [|discriminate].
  destruct (matchConcepts content) as [cap|]; [|discriminate].
  intros [= <-]. exists h, s, a, f, su, d. cbn.
  apply capture_Some in E1 as (? & ? & _), E2 as (? & ? & _),
    E3 as (? & ? & _), E4 as (? & ? & _), E5 as (? & ? & _),
    E6 as (? & ? & _).
  unfold digitRun. repeat split; assumption.
Qed.
End HandedOn.

(* ===================================================================== *)
(** * Replies with text around them *)
(* ===================================================================== *)

Lemma search_skip_other {A} (ok : N -> bool) (l0 : N) (lit : jsstring)
    (k : jsstring -> option A) (v s : jsstring) :
  ok l0 = false -> forallb ok v = true ->
  search (literal (l0 :: lit) k) (v ++ s) = search (literal (l0 :: lit) k) s.
Proof.
  intros Hl. induction v as [|d v IH]; [reflexivity|].
  cbn [forallb]. intros [Hd Hv]%andb_true_iff.
  cbn [app]. rewrite search_cons_none; [auto|].
  unfold literal. cbn [startsWith].
  destruct (N.eqb_spec d l0) as [->|]; [congruence|reflexivity].
Qed.

Section FencedFacts.
Context {num : Type} `{Number num}.
Variables before after h s a f su d : jsstring.
Variables (c : N) (cs : jsstring).
Hypotheses (Hh : digitRun h) (Hs : digitRun s) (Ha : digitRun a)
  (Hf : digitRun f) (Hsu : digitRun su) (Hd : digitRun d).
Hypothesis Hc : isWhiteSpace c = false.
Hypothesis Hline :
  forallb (fun x => negb (isLineTerminator x)) (c :: cs) = true.
Hypothesis Haround : passedOver before after.

Let reply := before ++ contractReply h s a f su d (c :: cs) ++ after.

Ltac open_fenced :=
  unfold reply, contractReply, scoreLine;
  rewrite <- ?(assoc_L app); concrete_js; cbn [app];
  destruct Hh as [_ Rh], Hs as [_ Rs], Ha as [_ Ra], Hf as [_ Rf],
    Hsu as [_ Rsu], Hd as [_ Rd], Haround as [Rb Rafter];
  rewrite (search_skip_other (fun x => negb (isLowerLatin x)))
    by (reflexivity || assumption).

Ltac found_fenced Hv :=
  apply search_here; exact (skipSpaces_digitRun _ _ Hv).

Lemma fenced_happiness : matchScore "happiness" reply = Some h.
Proof. unfold matchScore. pose proof Hh. open_fenced. slide. found_fenced H0. Qed.

Lemma fenced_sadness : matchScore "sadness" reply = Some s.
Proof. unfold matchScore. pose proof Hs. open_fenced. slide. found_fenced H0. Qed.

Lemma fenced_anger : matchScore "anger" reply = Some a.
Proof. unfold matchScore. pose proof Ha. open_fenced. slide. found_fenced H0. Qed.

Lemma fenced_fear : matchScore "fear" reply = Some f.
Proof. unfold matchScore. pose proof Hf. open_fenced. slide. found_fenced H0. Qed.

Lemma fenced_surprise : matchScore "surprise" reply = Some su.
Proof. unfold matchScore. pose proof Hsu. open_fenced. slide. found_fenced H0. Qed.

Lemma fenced_disgust : matchScore "disgust" reply = Some d.
Proof. unfold matchScore. pose proof Hd. open_fenced. slide. found_fenced H0. Qed.

Lemma fenced_concepts : matchConcepts reply = Some (c :: cs).
Proof.
  unfold matchConcepts. open_fenced. slide. apply search_here.
  unfold literal. cbn [startsWith N.eqb Pos.eqb andb length drop].
  cbn [skipSpaces]. rewrite Hc. unfold restOfLine, run.
  change (c :: cs ++ after) with ((c :: cs) ++ after).
  rewrite takeWhile_whole; [reflexivity|exact Hline|].
  destruct after as [|x after']; [exact I|]. now rewrite Rafter.
Qed.
End FencedFacts.

Section Fenced.
Context {num : Type} `{Number num}.

(** X9.  A reply in the layout of the contract parses to the same
    scores and concepts whatever stands around it, as long as the text
    before it has no lower-case letter (a Markdown fence, say) and the
    text after it starts on a new line: the scores are [parseFloat] of
    the six runs, the concepts are the trimmed, non-empty pieces
    between the commas of the concepts line. *)
Theorem reply_parses_inside_a_fence (before after h s a f su d : jsstring)
    (c : N) (cs : jsstring) :
  digitRun h -> digitRun s -> digitRun a -> digitRun f -> digitRun su ->
  digitRun d -> isWhiteSpace c = false ->
  forallb (fun x => negb (isLineTerminator x)) (c :: cs) = true ->
  passedOver before after ->
  parseSentimentResponse
    (before ++ contractReply h s a f su d (c :: cs) ++ after) =
  Success {| happiness := parseFloat h; sadness := parseFloat s;
             anger := parseFloat a; fear := parseFloat f;
             surprise := parseFloat su; disgust := parseFloat d;
             concepts := conceptsOf (c :: cs) |}.
Proof.
  intros Hh Hs Ha Hf Hsu Hd Hc Hline Haround.
  unfold parseSentimentResponse.
  rewrite fenced_happiness, fenced_sadness, fenced_anger, fenced_fear,
    fenced_surprise, fenced_disgust, fenced_concepts by assumption.
  reflexivity.
Qed.
End Fenced.

(* ===================================================================== *)
(** * The failures of [analyzeSentiment] *)
(* ===================================================================== *)

Section AnalyzerFailures.
Context {num : Type} `{Number num}.

(** X10.  [analyzeSentiment] gives the reason [NO SENTIMENT] only when a
    key is configured and the provider's reply is that very text.  A
    missing key, an HTTP error and a thrown error have reasons of their
    own, so the aggregator counts them as failures, never as posts
    without sentiment. *)
Theorem only_the_provider_says_no_sentiment
    (provider : jsstring -> ProviderReply) (text apiKey : jsstring) :
  analyzeSentiment (num := num) provider text apiKey = Failure NO_SENTIMENT <->
  apiKey <> [] /\ provider text = Content NO_SENTIMENT.
Proof.
  unfold analyzeSentiment. destruct apiKey as [|k apiKey].
  - split; [discriminate|]. now intros [[] _].
  - destruct (provider text) as [err|status|content].
    + split; [discriminate|]. now intros [_ [=]].
    + split; [discriminate|]. now intros [_ [=]].
    + rewrite (parse_sentinel_iff content). split.
      * intros ->. split; [discriminate|reflexivity].
      * now intros [_ [= ->]].
Qed.

Lemma successes_without_key (provider : jsstring -> ProviderReply)
    (posts : list FirehosePost) :
  successes
    (List.map (fun post => analyzeSentiment (num := num) provider (text post) [])
       posts) = [].
Proof. induction posts as [|p posts IH]; [reflexivity|]. cbn. exact IH. Qed.

(** X11.  Without an API key no post is scored: whatever the stream and
    the provider, a run returns no record, and the namespace is left as
    it was. *)
Theorem no_key_no_record (toLowerCase : jsstring -> jsstring)
    (kv : KVNamespace num) (events : list StreamEvent)
    (provider : jsstring -> ProviderReply) (now : Z) :
  (updateMeters toLowerCase events provider now [] = Pending \/
   updateMeters toLowerCase events provider now [] = Returned None) /\
  (refreshMeters toLowerCase kv events provider now [] = Pending \/
   refreshMeters toLowerCase kv events provider now [] = Returned kv).
Proof.
  unfold refreshMeters, updateMeters.
  destruct (resolved _) as [posts|]; [|auto].
  rewrite aggregate_none by apply successes_without_key. auto.
Qed.
End AnalyzerFailures.

(* ===================================================================== *)
(** * Hour prefixes and what a range query returns *)
(* ===================================================================== *)

Section HourPrefixes.
Import Date DateFacts.

Lemma hourPrefix_inj (h1 h2 : Z) :
  fourDigitYear (msPerHour * h1) -> fourDigitYear (msPerHour * h2) ->
  hourPrefix h1 = hourPrefix h2 -> h1 = h2.
Proof.
  intros R1 R2 He. unfold hourPrefix in He.
  assert (startsWith (toISOString (msPerHour * h1))
            (substring0 (toISOString (msPerHour * h2)) 13) = true) as Hs.
  { rewrite <- He. apply startsWith_prefix. unfold substring0.
    apply prefix_take. }
  apply hour_prefix_iff in Hs; [|assumption..].
  unfold msPerHour in *. zdiv.
Qed.

(** X12.  [generateHourPrefixes] returns one prefix for every hour from
    the hour of [start] to the hour of [end], both included, and no
    other: none when [end] lies in an earlier hour than [start].  The
    prefixes differ from one another, and a key (the ISO string of an
    instant) lies under one of them exactly when its hour is one of
    these hours. *)
Theorem hour_prefixes_cover_the_hours (fuel : nat) (start end_ : DateRef)
    (dates : Dates) (s e : Z) :
  dates !! start = Some s -> dates !! end_ = Some e ->
  fourDigitYear s -> fourDigitYear e ->
  (Z.to_nat (e / msPerHour - s / msPerHour + 1) <= fuel)%nat ->
  exists dates' prefixes,
    generateHourPrefixes fuel start end_ dates = Some (dates', prefixes) /\
    length prefixes = Z.to_nat (e / msPerHour - s / msPerHour + 1) /\
    NoDup prefixes /\
    forall t, fourDigitYear t ->
      (exists p, p ∈ prefixes /\ startsWith (toISOString t) p = true) <->
      s / msPerHour <= t / msPerHour <= e / msPerHour.
Proof.
  intros Hs He Rs Re Hfuel.
  rewrite (generateHourPrefixes_spec fuel start end_ dates s e Hs He Hfuel).
  set (a := s / msPerHour). set (b := e / msPerHour).
  assert (forall h, h ∈ seqZ a (b - a + 1) -> fourDigitYear (msPerHour * h))
    as Hhours.
  { intros h Hh%elem_of_seqZ. apply (fourDigitYear_hour s e); trivial.
    unfold a, b in *. lia. }
  do 2 eexists. split; [reflexivity|]. split; [|split].
  - now rewrite length_map, length_seqZ.
  - apply NoDup_fmap_2_strong; [|apply NoDup_seqZ].
    intros h1 h2 H1 H2. apply hourPrefix_inj; auto.
  - intros t Rt. split.
    + intros (p & (h & -> & Hh)%list_elem_of_fmap & Hp).
      unfold hourPrefix in Hp.
      apply hour_prefix_iff in Hp; [|auto..].
      apply elem_of_seqZ in Hh. unfold msPerHour in *. zdiv.
    + intros Hin. exists (hourPrefix (t / msPerHour)). split.
      * apply list_elem_of_fmap. exists (t / msPerHour).
        split; [reflexivity|]. apply elem_of_seqZ. lia.
      * unfold hourPrefix. apply hour_prefix_iff; trivial.
        -- now apply fourDigitYear_floor.
        -- unfold msPerHour. zdiv.
Qed.
End HourPrefixes.

Section RangeResults.
Context {num : Type} `{Number num} (toLowerCase : jsstring -> jsstring).
Import Date DateFacts.

(** A key whose metadata, if any, holds no [topConcepts]. *)
Local Abbreviation plainKey :=
  (fun key : KVKey num =>
     forall md, metadata key = Some md -> md_topConcepts md = None).

Lemma collectKeys_plain (startIso endIso : jsstring)
    (page : list (KVKey num)) (results : list (SentimentData num)) :
  Forall plainKey page ->
  Forall (fun r => topConcepts r = None) results ->
  Forall (fun r => topConcepts r = None)
    (collectKeys startIso endIso page results).
Proof.
  rewrite collectKeys_spec. intros Hpage Hr.
  apply Forall_app. split; [exact Hr|].
  apply Forall_forall. intros r (key & Hkey & Hk)%list_elem_of_omap.
  rewrite Forall_forall in Hpage. specialize (Hpage key Hkey).
  unfold keptOf in Hk. destruct (metadata key) as [md|]; [|discriminate].
  destruct (_ && _); [|discriminate]. injection Hk as <-. cbn. auto.
Qed.

Lemma plain_pages (kv : KVNamespace num) (prefix : jsstring)
    (cursor_ : option nat) :
  plainStored kv -> Forall plainKey (keys (kvList kv prefix cursor_)).
Proof.
  intros Hplain. apply Forall_forall. intros key Hkey. cbn in Hkey.
  apply subseteq_take, subseteq_drop in Hkey.
  apply elem_of_kvKeysUnder in Hkey as (entry & Hk & Hm & _).
  intros md Hmd. rewrite Hm in Hmd. eauto.
Qed.

Lemma pageLoop_plain (fuel : nat) kv (prefix startIso endIso : jsstring)
    (cursor_ : option nat) (results results' : list (SentimentData num)) :
  plainStored kv ->
  Forall (fun r => topConcepts r = None) results ->
  pageLoop fuel kv prefix startIso endIso cursor_ results = Some results' ->
  Forall (fun r => topConcepts r = None) results'.
Proof.
  intros Hplain. revert cursor_ results. induction fuel as [|fuel IH];
    intros cursor_ results Hr; cbn [pageLoop]; [discriminate|].
  pose proof (collectKeys_plain startIso endIso _ _
                (plain_pages kv prefix cursor_ Hplain) Hr) as Hpage.
  destruct (list_complete _).
  - now intros [= <-].
  - now apply IH.
Qed.

Lemma prefixLoop_plain (fuel : nat) kv (startIso endIso : jsstring)
    (prefixes : list jsstring) (results results' : list (SentimentData num)) :
  plainStored kv ->
  Forall (fun r => topConcepts r = None) results ->
  prefixLoop fuel kv startIso endIso prefixes results = Some results' ->
  Forall (fun r => topConcepts r = None) results'.
Proof.
  intros Hplain. revert results. induction prefixes as [|p prefixes IH];
    intros results Hr; cbn [prefixLoop].
  - now intros [= <-].
  - destruct (pageLoop _ _ _ _ _ _ _) as [page|] eqn:E; [|discriminate].
    cbn. apply IH. eapply pageLoop_plain; eauto.
Qed.

Lemma plainStored_empty : plainStored (∅ : KVNamespace num).
Proof.
  intros k entry md Hk. unfold KVNamespace in *.
  now rewrite lookup_empty in Hk.
Qed.

(** [refreshMeters] writes metadata without concepts: the destructuring
    has split them off. *)
Lemma refreshMeters_plain (kv kv' : KVNamespace num)
    (events : list StreamEvent) (provider : jsstring -> ProviderReply)
    (now : Z) (apiKey : jsstring) :
  plainStored kv ->
  refreshMeters toLowerCase kv events provider now apiKey = Returned kv' ->
  plainStored kv'.
Proof.
  intros Hplain. unfold refreshMeters.
  destruct (updateMeters _ _ _ _ _) as [|[data|]]; [discriminate| |].
  - intros [= <-] k entry md Hk Hm. unfold kvPut, KVNamespace in *.
    destruct (decide (timestamp data = k)) as [Heq|Hne].
    + subst k. rewrite (lookup_insert_eq (M := gmap jsstring)) in Hk.
      injection Hk as <-. cbn in Hm. now injection Hm as <-.
    + rewrite lookup_insert_ne in Hk by assumption. eauto.
  - now intros [= <-].
Qed.

Lemma scheduledRuns_plain (kv kv' : KVNamespace num) (apiKey : jsstring)
    (firings : list Firing) :
  plainStored kv ->
  scheduledRuns toLowerCase kv apiKey firings = Returned kv' ->
  plainStored kv'.
Proof.
  revert kv. induction firings as [|f firings IH]; intros kv Hplain;
    cbn [scheduledRuns].
  - now intros [= <-].
  - unfold scheduled.
    destruct (refreshMeters _ _ _ _ _ _) as [|kv1] eqn:E; [discriminate|].
    apply IH. eapply refreshMeters_plain; eauto.
Qed.

End RangeResults.

Section ReversedRange.
Context {num : Type} `{Number num}.
Import Date DateFacts.

Lemma omap_none {A B} (f : A -> option B) (l : list A) :
  (forall x, x ∈ l -> f x = None) -> omap f l = [].
Proof.
  induction l as [|x l IH]; intros Hf; [reflexivity|].
  cbn [omap list_omap]. rewrite (Hf x) by apply list_elem_of_here.
  apply IH. intros y Hy. apply Hf. now apply list_elem_of_further.
Qed.

Lemma concat_nil {A} (ls : list (list A)) :
  Forall (fun l => l = []) ls -> concat ls = [].
Proof.
  induction 1 as [|l ls -> _ IH]; [reflexivity|]. exact IH.
Qed.

(** X14.  A range whose end lies before its start is answered with no
    record at all, also when both fall in the same hour and keys are
    stored under the prefix of that hour. *)
Theorem reversed_range_is_empty (fuel : nat) (kv : KVNamespace num) (start end_ : DateRef)
    (dates : Dates) (s e : Z) :
  dates !! start = Some s -> dates !! end_ = Some e ->
  fourDigitYear s -> fourDigitYear e -> e < s ->
  (enoughFuel kv s e <= fuel)%nat ->
  exists dates',
    getHistoricalMeters (num := num) fuel kv start end_ dates
    = Some (dates', []).
Proof.
  intros Hs He Rs Re Hlt Hfuel.
  rewrite (getHistoricalMeters_spec fuel kv start end_ dates s e Hs He Hfuel).
  eexists. do 2 f_equal. rewrite concat_nil; [reflexivity|].
  apply Forall_forall. intros l (h & -> & _)%list_elem_of_fmap.
  unfold keptUnder. apply omap_none. intros key _. unfold keptOf.
  destruct (metadata key); [|reflexivity].
  destruct (strGe (name key) (toISOString s)) eqn:E1; [|reflexivity].
  destruct (strLe (name key) (toISOString e)) eqn:E2; [|reflexivity].
  exfalso. unfold strGe in E1. apply strLe_iff in E1, E2.
  pose proof (strCompare_le_trans _ _ _ E1 E2) as Hc.
  rewrite toISOString_compare in Hc by assumption.
  apply Hc. now apply Z.compare_gt_iff.
Qed.
End ReversedRange.

Section Listing.
Context {num : Type} `{Number num}.
Import Date DateFacts.

(** What a range query lists from a namespace the pipeline has filled. *)
Lemma range_query_listing (kv : KVNamespace num) (start end_ : DateRef) (dates : Dates)
    (s e : Z) (fuel : nat) :
  wellStored kv ->
  dates !! start = Some s -> dates !! end_ = Some e ->
  fourDigitYear s -> fourDigitYear e ->
  (enoughFuel kv s e <= fuel)%nat ->
  exists dates' results,
    getHistoricalMeters fuel kv start end_ dates = Some (dates', results) /\
    (forall r,
       r ∈ results <->
       exists t entry md,
         kv !! toISOString t = Some entry /\ kvMetadata entry = Some md /\
         s <= t <= e /\ r = fromMetadata md (toISOString t)) /\
    StronglySorted (fun a b => strLt (timestamp a) (timestamp b) = true)
      results.
Proof.
  intros Hstored Hs He Rs Re Hfuel.
  rewrite (getHistoricalMeters_spec fuel kv start end_ dates s e Hs He Hfuel).
  set (a := s / msPerHour). set (b := e / msPerHour).
  set (kept := concat (List.map (keptUnder kv (toISOString s) (toISOString e))
                         (seqZ a (b - a + 1)))).
  assert (forall h, h ∈ seqZ a (b - a + 1) -> fourDigitYear (msPerHour * h))
    as Hhours.
  { intros h Hh%elem_of_seqZ. apply (fourDigitYear_hour s e); trivial.
    unfold a, b in *. lia. }
  do 2 eexists. split; [reflexivity|]. split.
  - intros r. rewrite elem_of_sortBy. unfold kept.
    rewrite elem_of_concat. split.
    + intros (part & Hr & (h & -> & Hh)%list_elem_of_fmap).
      pose proof Hr as (t & Ht & Rt & Hth & Hin)%keptUnder_hour; auto.
      apply elem_of_keptUnder in Hr as (entry & md & Hk & Hm & Hrec & _).
      exists t, entry, md. rewrite <- Ht. auto.
    + intros (t & entry & md & Hk & Hm & Hin & ->).
      assert (fourDigitYear t) as Rt
        by (now apply (fourDigitYear_between s t e)).
      assert (t / msPerHour ∈ seqZ a (b - a + 1)) as Hh.
      { apply elem_of_seqZ. unfold a, b, msPerHour. zdiv. }
      exists (keptUnder kv (toISOString s) (toISOString e) (t / msPerHour)).
      split; [|apply list_elem_of_fmap; eauto].
      apply elem_of_keptUnder. exists entry, md. cbn.
      repeat split; trivial.
      * apply hour_prefix_iff; auto. unfold msPerHour. zdiv.
      * unfold strGe. rewrite strLe_toISOString by assumption. lia.
      * rewrite strLe_toISOString by assumption. lia.
  - apply sorted_strict; [apply byTimestamp_sorted|].
    rewrite sortBy_Permutation. unfold kept.
    apply NoDup_kept_hours; trivial. apply NoDup_seqZ.
Qed.

(** X23.  Whatever the namespace holds, a range query lists only keys
    that carry metadata, each as the record its metadata gives, and only
    keys that are, as strings, between the ISO strings of the two dates.
    A key without metadata is never listed. *)
Theorem keys_without_metadata_are_skipped (kv : KVNamespace num)
    (start end_ : DateRef) (dates : Dates) (s e : Z) (fuel : nat) :
  dates !! start = Some s -> dates !! end_ = Some e ->
  (enoughFuel kv s e <= fuel)%nat ->
  exists dates' results,
    getHistoricalMeters fuel kv start end_ dates = Some (dates', results) /\
    (forall r, r ∈ results ->
       exists entry md,
         kv !! timestamp r = Some entry /\ kvMetadata entry = Some md /\
         r = fromMetadata md (timestamp r) /\
         strGe (timestamp r) (toISOString s) = true /\
         strLe (timestamp r) (toISOString e) = true) /\
    (forall k entry,
       kv !! k = Some entry -> kvMetadata entry = None ->
       k ∉ List.map timestamp results).
Proof.
  intros Hs He Hfuel.
  rewrite (getHistoricalMeters_spec fuel kv start end_ dates s e Hs He Hfuel).
  do 2 eexists. split; [reflexivity|].
  assert (forall r,
            r ∈ sortBy byTimestamp
                  (concat (List.map
                             (keptUnder kv (toISOString s) (toISOString e))
                             (seqZ (s / msPerHour)
                                (e / msPerHour - s / msPerHour + 1)))) ->
            exists entry md,
              kv !! timestamp r = Some entry /\ kvMetadata entry = Some md /\
              r = fromMetadata md (timestamp r) /\
              strGe (timestamp r) (toISOString s) = true /\
              strLe (timestamp r) (toISOString e) = true) as Hmem.
  { intros r Hr%elem_of_sortBy.
    apply elem_of_concat in Hr as (part & Hr & (h & -> & _)%list_elem_of_fmap).
    apply elem_of_keptUnder in Hr as (entry & md & Hk & Hm & Hrec & _ & Hge & Hle).
    eauto 10. }
  split; [exact Hmem|].
  intros k entry Hk Hnone (r & -> & Hr)%list_elem_of_fmap.
  destruct (Hmem r Hr) as (entry' & md & Hk' & Hm & _).
  unfold KVNamespace in *. congruence.
Qed.

Lemma toISOString_not_empty (t : Z) : toISOString t <> [].
Proof.
  unfold toISOString. intros E.
  apply app_eq_nil in E as [_ E]. discriminate E.
Qed.
End Listing.

Section RoundTrip.
Context {num : Type} `{Number num} (toLowerCase : jsstring -> jsstring).
Import Date DateFacts.

Lemma updateMeters_record (events : list StreamEvent)
    (provider : jsstring -> ProviderReply) (now : Z) (apiKey : jsstring)
    (data : SentimentData num) :
  updateMeters toLowerCase events provider now apiKey = Returned (Some data) ->
  timestamp data = toISOString now /\ is_Some (topConcepts data).
Proof.
  unfold updateMeters. destruct (resolved _) as [posts|]; [|discriminate].
  intros [= Hagg]. unfold aggregate in Hagg.
  destruct (0 <? _); [|discriminate]. injection Hagg as <-. cbn. eauto.
Qed.

(** X15.  What a run stores can be read back.  After [refreshMeters] has
    stored the record of a run, the key of the run holds its
    [topConcepts] and no other key has changed; and every range query
    whose range contains the instant of the run lists a record with the
    run's timestamp, message count and six averages (and without
    [topConcepts]). *)
Theorem stored_run_is_read_back (kv kv' : KVNamespace num)
    (events : list StreamEvent) (provider : jsstring -> ProviderReply)
    (now : Z) (apiKey : jsstring) (data : SentimentData num) :
  wellStored kv -> fourDigitYear now ->
  updateMeters toLowerCase events provider now apiKey = Returned (Some data) ->
  refreshMeters toLowerCase kv events provider now apiKey = Returned kv' ->
  kvGet kv' (timestamp data) = topConcepts data /\
  (forall k, k <> timestamp data -> kv' !! k = kv !! k) /\
  forall (fuel : nat) (start end_ : DateRef) (dates : Dates) (s e : Z),
    dates !! start = Some s -> dates !! end_ = Some e ->
    fourDigitYear s -> fourDigitYear e -> s <= now <= e ->
    (enoughFuel kv' s e <= fuel)%nat ->
    exists dates' results r,
      getHistoricalMeters fuel kv' start end_ dates = Some (dates', results) /\
      r ∈ results /\
      timestamp r = timestamp data /\
      messageCount r = messageCount data /\
      happinessAvg r = happinessAvg data /\
      sadnessAvg r = sadnessAvg data /\
      angerAvg r = angerAvg data /\
      fearAvg r = fearAvg data /\
      surpriseAvg r = surpriseAvg data /\
      disgustAvg r = disgustAvg data /\
      topConcepts r = None.
Proof.
  intros Hstored Rnow Hrun Hrefresh.
  pose proof (refreshMeters_wellStored toLowerCase kv events provider now
                apiKey kv' Hstored Rnow Hrefresh) as Hstored'.
  destruct (updateMeters_record _ _ _ _ _ Hrun) as [Hts [top Htop]].
  unfold refreshMeters in Hrefresh. rewrite Hrun in Hrefresh.
  injection Hrefresh as <-. unfold kvPut, kvGet, KVNamespace in *.
  split; [|split].
  - rewrite lookup_insert_eq. cbn. now rewrite Htop.
  - intros k Hk. now rewrite lookup_insert_ne by congruence.
  - intros fuel start end_ dates s e Hs He Rs Re Hin Hfuel.
    destruct (range_query_listing _ start end_ dates s e fuel Hstored'
                Hs He Rs Re Hfuel) as (dates' & results & Hq & Hmem & _).
    exists dates', results,
      (fromMetadata (sentimentsOf data) (timestamp data)).
    split; [exact Hq|]. split; [|cbn; repeat split; reflexivity].
    apply Hmem. eexists (now : Z), _, _. rewrite <- Hts.
    split; [apply (lookup_insert_eq (M := gmap jsstring))|]. cbn. auto.
Qed.
End RoundTrip.

(* ===================================================================== *)
(** * The HTTP routes *)
(* ===================================================================== *)

Section Routes.
Context {num : Type} `{Number num}.
Import Date DateFacts.

Lemma concepts_is_not_meters (route : jsstring) :
  startsWith route (js "/api/concepts") = true ->
  startsWith route (js "/api/meters") = false.
Proof.
  intros [rest ->]%startsWith_prefix. reflexivity.
Qed.

Lemma fetch_meters (fuel : nat) (route : jsstring)
    (timestampParam : option jsstring) (kv : KVNamespace num) (now : Z)
    (dates' : Dates) (results : list (SentimentData num)) :
  startsWith route (js "/api/meters") = true ->
  getHistoricalMeters fuel kv 2%positive 1%positive
    (<[2%positive := now - 86400000]> (<[1%positive := now]> ∅))
  = Some (dates', results) ->
  fetch fuel route timestampParam (Some kv) now
  = Some (jsonResponse 200 (MetersBody results)).
Proof.
  intros Hroute Hq. unfold fetch. rewrite Hroute.
  change (24 * 60 * 60 * 1000) with 86400000. cbv zeta.
  match goal with
  | |- ?q ≫= _ = _ => assert (q = Some (dates', results)) as -> by exact Hq
  end.
  reflexivity.
Qed.

Lemma day_window (now : Z) :
  (<[2%positive := now - 86400000]> (<[1%positive := now]> ∅) : Dates)
    !! 2%positive = Some (now - 86400000) /\
  (<[2%positive := now - 86400000]> (<[1%positive := now]> ∅) : Dates)
    !! 1%positive = Some now.
Proof.
  unfold Dates. split.
  - apply (lookup_insert_eq (M := gmap positive)).
  - rewrite lookup_insert_ne by discriminate.
    apply (lookup_insert_eq (M := gmap positive)).
Qed.

(** X16.  The route [/api/meters] (any path that starts with it, such
    as [/api/meters/]) answers 200 with exactly the stored records of
    the last 24 hours: a record is listed if and only if the instant of
    its key lies between [now - 24 h] and [now], both included, and a
    listed record holds, field by field, that key as its timestamp and
    what the metadata stored under the key holds (the message count,
    the six averages, the concepts if any); each is listed once, in
    ascending order of time.  On an empty namespace the answer is still
    200, with an empty list. *)
Theorem meters_route_serves_the_last_24_hours (fuel : nat)
    (route : jsstring) (timestampParam : option jsstring)
    (kv : KVNamespace num) (now : Z) :
  startsWith route (js "/api/meters") = true ->
  wellStored kv ->
  fourDigitYear (now - 86400000) -> fourDigitYear now ->
  (enoughFuel kv (now - 86400000) now <= fuel)%nat ->
  exists records,
    fetch fuel route timestampParam (Some kv) now
    = Some (jsonResponse 200 (MetersBody records)) /\
    (forall r,
       r ∈ records <->
       exists t entry md,
         kv !! toISOString t = Some entry /\ kvMetadata entry = Some md /\
         now - 86400000 <= t <= now /\
         timestamp r = toISOString t /\
         messageCount r = md_messageCount md /\
         happinessAvg r = md_happinessAvg md /\
         sadnessAvg r = md_sadnessAvg md /\
         angerAvg r = md_angerAvg md /\
         fearAvg r = md_fearAvg md /\
         surpriseAvg r = md_surpriseAvg md /\
         disgustAvg r = md_disgustAvg md /\
         topConcepts r = md_topConcepts md) /\
    StronglySorted (fun a b => strLt (timestamp a) (timestamp b) = true)
      records /\
    (kv = ∅ -> records = []).
Proof.
  intros Hroute Hstored Rs Re Hfuel.
  destruct (day_window now) as [Hs He].
  destruct (range_query_listing kv 2%positive 1%positive _ _ _ fuel
              Hstored Hs He Rs Re Hfuel)
    as (dates' & results & Hq & Hmem & Hsorted).
  exists results. split; [|split; [|split; [assumption|]]].
  - eapply fetch_meters; eassumption.
  - intros r. rewrite Hmem.
    split; intros (t & entry & md & Hk & Hm & Hin & Hr);
      exists t, entry, md; (repeat (split; [assumption|]));
      now apply fromMetadata_fields.
  - intros ->. destruct results as [|r results]; [reflexivity|].
    destruct (proj1 (Hmem r) (list_elem_of_here _ _))
      as (t & entry & md & Hk & _).
    unfold KVNamespace in *. now rewrite lookup_empty in Hk.
Qed.

(** X17.  The route [/api/concepts] reads back what a run has stored:
    asked for the timestamp of the run it answers 200 with the entries
    of the run's [topConcepts]; asked for a timestamp under which
    nothing is stored it answers 404; and without a timestamp (or with
    an empty one) it answers 400, even when the namespace cannot be
    read. *)
Theorem concepts_route_reads_a_stored_run
    (toLowerCase : jsstring -> jsstring) (kv kv' : KVNamespace num)
    (events : list StreamEvent) (provider : jsstring -> ProviderReply)
    (now : Z) (apiKey : jsstring) (data : SentimentData num)
    (fuel : nat) (route : jsstring) (clock : Z) :
  startsWith route (js "/api/concepts") = true ->
  updateMeters toLowerCase events provider now apiKey = Returned (Some data) ->
  refreshMeters toLowerCase kv events provider now apiKey = Returned kv' ->
  (exists top,
     topConcepts data = Some top /\
     fetch fuel route (Some (timestamp data)) (Some kv') clock
     = Some (jsonResponse 200 (ConceptsBody (entries top)))) /\
  (forall other : jsstring,
     other <> [] -> kv' !! other = None ->
     fetch fuel route (Some other) (Some kv') clock
     = Some (jsonResponse 404 (ErrorBody (js "No data found for timestamp")))) /\
  (forall store : option (KVNamespace num),
     fetch fuel route None store clock
     = Some (jsonResponse 400 (ErrorBody (js "Missing timestamp parameter"))) /\
     fetch fuel route (Some []) store clock
     = Some (jsonResponse 400 (ErrorBody (js "Missing timestamp parameter")))).
Proof.
  intros Hroute Hrun Hrefresh.
  pose proof (concepts_is_not_meters route Hroute) as Hnot.
  destruct (updateMeters_record _ _ _ _ _ _ Hrun) as [Hts [top Htop]].
  unfold fetch. rewrite Hnot, Hroute. split; [|split].
  - unfold refreshMeters in Hrefresh. rewrite Hrun in Hrefresh.
    injection Hrefresh as <-.
    exists top. split; [exact Htop|].
    destruct (timestamp data) as [|c ts] eqn:E.
    { exfalso. symmetry in Hts. now apply toISOString_not_empty in Hts. }
    unfold kvGet, kvPut, KVNamespace in *.
    rewrite (lookup_insert_eq (M := gmap jsstring)). cbn.
    now rewrite Htop.
  - intros other Hne Hnone. destruct other as [|c other]; [congruence|].
    unfold kvGet, KVNamespace in *. now rewrite Hnone.
  - intros store. split; reflexivity.
Qed.

(** X18.  The handler always answers, and with one of four statuses.
    Every answer of an API route is JSON with the header that allows any
    origin; only a path outside [/api/meters] and [/api/concepts] gets
    the bare 404 without body and headers.  The status is 500 only when
    the namespace cannot be read. *)
Theorem fetch_always_answers (fuel : nat) (route : jsstring)
    (timestampParam : option jsstring) (store : option (KVNamespace num))
    (now : Z) :
  (forall kv, store = Some kv ->
     (enoughFuel kv (now - 86400000) now <= fuel)%nat) ->
  exists resp,
    fetch fuel route timestampParam store now = Some resp /\
    (status resp = 200 \/ status resp = 400 \/ status resp = 404 \/
     status resp = 500) /\
    (status resp = 500 -> store = None) /\
    (body resp = NoBody <->
     startsWith route (js "/api/meters") = false /\
     startsWith route (js "/api/concepts") = false) /\
    (body resp <> NoBody -> headers resp = jsonHeaders) /\
    (body resp = NoBody -> status resp = 404 /\ headers resp = []).
Proof.
  intros Hfuel.
  destruct (startsWith route (js "/api/meters")) eqn:Em.
  - destruct store as [kv|].
    + destruct (day_window now) as [Hs He].
      pose proof (getHistoricalMeters_spec fuel kv 2%positive 1%positive _ _ _
                    Hs He (Hfuel kv eq_refl)) as Hq.
      eexists. split; [eapply fetch_meters; eassumption|].
      cbn. intuition (try discriminate; auto).
    + unfold fetch. rewrite Em. eexists. split; [reflexivity|].
      cbn. intuition (try discriminate; auto).
  - unfold fetch. rewrite Em.
    destruct (startsWith route (js "/api/concepts")) eqn:Ec.
    + destruct timestampParam as [[|c ts]|];
        [| destruct store as [kv|];
           [destruct (kvGet kv (c :: ts))|] |];
        (eexists; split; [reflexivity|]);
        cbn; intuition (try discriminate; auto).
    + eexists. split; [reflexivity|].
      cbn. intuition (try discriminate; auto).
Qed.
End Routes.

(* ===================================================================== *)
(** * The command-line helpers *)
(* ===================================================================== *)

Section CorpusFacts.
Context (clock : nat -> Z) (targetCount : option Z).

Local Abbreviation options := (corpusOptions clock targetCount).
Local Abbreviation start := {| posts := []; collected := 0 |}.

Lemma corpus_state (events : list StreamEvent) :
  state (connectToFirehose options start events)
  = {| posts := imap (entryOf clock)
                 (keptPosts targetCount (createdPosts events));
       collected := Z.of_nat (length (keptPosts targetCount
                                        (createdPosts events))) |}.
Proof.
  unfold connectToFirehose.
  induction events as [|ev events IH] using rev_ind.
  { unfold keptPosts. destruct targetCount; cbn; rewrite ?take_nil; reflexivity. }
  rewrite fold_left_app. cbn [fold_left].
  set (c := fold_left (handle options) events (connect options start)) in *.
  unfold createdPosts in *. rewrite omap_app.
  set (created := omap _ events) in *.
  destruct ev as [post|err| | |]; cbn [omap list_omap handle];
    rewrite ?app_nil_r.
  - unfold handleCreate. cbn. rewrite IH. cbn.
    unfold keptPosts. destruct targetCount as [n|].
    + rewrite length_take.
      destruct (Z.leb_spec n (Z.of_nat (Z.to_nat n `min` length created)))
        as [Hfull|Hroom].
      * cbn [state]. rewrite take_app_le by lia. now rewrite length_take.
      * cbn [state]. rewrite !take_ge by (rewrite ?length_app; cbn; lia).
        rewrite imap_app, !length_app, length_imap. cbn.
        rewrite Nat.add_0_r. f_equal. lia.
    + cbn. rewrite imap_app, !length_app, length_imap. cbn.
      rewrite Nat.add_0_r. f_equal. lia.
  - unfold reportError. cbn. exact IH.
  - exact IH.
  - unfold cleanup. destruct (isClosed c); exact IH.
  - destruct (timeout c); [|exact IH].
    unfold cleanup. destruct (isClosed c); exact IH.
Qed.

Lemma stops_corpus (events : list StreamEvent) :
  stops options events <->
  OnClose ∈ events \/
  (OnTimeout ∈ events /\ exists n, targetCount = Some n /\ n <> 0).
Proof.
  unfold stops. cbn. destruct targetCount as [n|]; cbn.
  - destruct (Z.eqb_spec (n * 100) 0) as [Hz|Hnz]; cbn.
    + split.
      * intros [?|[[? _]|[? _]]]; [auto|discriminate|discriminate].
      * intros [?|[_ (n' & [= <-] & Hn)]]; [auto|lia].
    + split.
      * intros [?|[[_ ?]|[? _]]]; [auto| |discriminate].
        right. split; [assumption|]. exists n. split; [reflexivity|lia].
      * intros [?|[? _]]; [auto|]. right. left. auto.
  - split.
    + intros [?|[[? _]|[? _]]]; [auto|discriminate|discriminate].
    + intros [?|[_ (n' & [=] & _)]]. auto.
Qed.

Lemma corpus_stop (before later : list StreamEvent) (ev : StreamEvent) :
  ~ stops options before -> stops options (before ++ [ev]) ->
  corpus clock targetCount (before ++ ev :: later)
  = Returned (imap (entryOf clock)
                (keptPosts targetCount (createdPosts (before ++ [ev])))).
Proof.
  intros Hgo Hstop. unfold corpus.
  assert (resolved (connectToFirehose options start (before ++ [ev]))
          = Some (state (connectToFirehose options start (before ++ [ev]))))
    as Hres.
  { destruct (tracked_connectToFirehose options start before)
      as (_ & Hr & Hc & Ht).
    assert (isClosed (connectToFirehose options start before) = false) as E.
    { destruct (isClosed _); [|reflexivity]. exfalso. now apply Hgo, Hc. }
    unfold connectToFirehose in *. rewrite fold_left_app. cbn [fold_left].
    set (c := fold_left (handle options) before (connect options start)) in *.
    apply stops_snoc in Hstop as [?|Hev]; [contradiction|].
    destruct ev as [post|err| | |]; try contradiction.
    - now destruct Hev as [[=] _].
    - cbn. unfold cleanup. now rewrite E.
    - cbn. rewrite Ht, Hev, E. cbn. unfold cleanup. now rewrite E. }
  rewrite (assoc_L app before [ev] later : before ++ ev :: later
                                          = (before ++ [ev]) ++ later).
  rewrite (resolved_later _ _ _ _ _ Hres), corpus_state. reflexivity.
Qed.

(** X19.  [corpus] saves the first [targetCount] posts of the stream
    that arrive before the collection ends, each with its text, its
    author and the reading of the clock, and no more.  Reaching the
    target does not end the collection: only the closing of the
    connection does, or the timer of [targetCount * 100] ms; with a
    target of 0 or one that is not a number no timer is set, and the
    collection waits for the connection to close. *)
Theorem corpus_saves_the_first_posts (before later : list StreamEvent) :
  OnClose ∉ before -> OnTimeout ∉ before ->
  let saved :=
    imap (entryOf clock) (keptPosts targetCount (createdPosts before)) in
  corpus clock targetCount before = Pending /\
  corpus clock targetCount (before ++ OnClose :: later) = Returned saved /\
  (forall n, targetCount = Some n ->
     (n <> 0 ->
      corpus clock targetCount (before ++ OnTimeout :: later)
      = Returned saved) /\
     (length saved <= Z.to_nat n)%nat) /\
  ((targetCount = None \/ targetCount = Some 0) ->
   OnClose ∉ later ->
   corpus clock targetCount (before ++ later) = Pending).
Proof.
  intros Hc Ht. cbv zeta.
  assert (~ stops options before) as Hgo.
  { rewrite stops_corpus. tauto. }
  assert (forall ev, createdPosts (before ++ [ev]) =
                     createdPosts before ++ createdPosts [ev]) as Hcr
    by (intros ev; unfold createdPosts; apply omap_app).
  split; [|split; [|split]].
  - unfold corpus.
    destruct (tracked_connectToFirehose options start before)
      as (_ & Hr & Hcl & _).
    destruct (resolved _) as [st|]; [|reflexivity].
    exfalso. apply Hgo, Hcl, Hr. eauto.
  - rewrite corpus_stop; trivial.
    + now rewrite Hcr, app_nil_r.
    + apply stops_corpus. left. apply elem_of_app. right.
      apply list_elem_of_here.
  - intros n En. split.
    + intros Hn. rewrite corpus_stop; trivial.
      * now rewrite Hcr, app_nil_r.
      * apply stops_corpus. right. split; [|eauto].
        apply elem_of_app. right. apply list_elem_of_here.
    + rewrite length_imap, En. cbn. rewrite length_take. lia.
  - intros Hno Hlater. unfold corpus.
    destruct (tracked_connectToFirehose options start (before ++ later))
      as (_ & Hr & Hcl & _).
    destruct (resolved _) as [st|]; [|reflexivity].
    exfalso. assert (stops options (before ++ later)) as Hs
      by (apply Hcl, Hr; eauto).
    apply stops_corpus in Hs as [Hs|[_ (n & Hn & Hne)]].
    + apply elem_of_app in Hs as [?|?]; contradiction.
    + destruct Hno as [E|E]; rewrite E in Hn; [discriminate|].
      injection Hn as <-. contradiction.
Qed.
End CorpusFacts.

Section ValidateFacts.
Context {num : Type} `{Number num} (toLowerCase : jsstring -> jsstring).

Lemma validated_fold (results : list (SentimentResult num))
    (v : Validation num) (t : Tally num) :
  processed v = t_messageCount t + t_noSentimentCount t ->
  v_happiness v = sum_happiness t -> v_sadness v = sum_sadness t ->
  v_anger v = sum_anger t -> v_fear v = sum_fear t ->
  v_surprise v = sum_surprise t -> v_disgust v = sum_disgust t ->
  v_conceptCounts v = conceptCounts t ->
  let v' := fold_left (validated toLowerCase) results v in
  let t' := fold_left (tally toLowerCase) results t in
  processed v' = t_messageCount t' + t_noSentimentCount t' /\
  v_happiness v' = sum_happiness t' /\ v_sadness v' = sum_sadness t' /\
  v_anger v' = sum_anger t' /\ v_fear v' = sum_fear t' /\
  v_surprise v' = sum_surprise t' /\ v_disgust v' = sum_disgust t' /\
  v_conceptCounts v' = conceptCounts t'.
Proof.
  cbv zeta. revert v t.
  induction results as [|r results IH]; intros v t; cbn [fold_left].
  - auto 10.
  - intros Hp H1 H2 H3 H4 H5 H6 Hc. apply IH;
      destruct r as [sc|e]; cbn [validated tally];
      try (unfold strEq; destruct (bool_decide (e = js "NO SENTIMENT")));
      cbn; congruence || lia.
Qed.

(** X20.  [validate] adds up the same scores and counts the same
    concepts as the worker does, but it divides by another number: a
    reply [NO SENTIMENT] counts as processed, so each average it shows is
    the sum over the scored posts divided by the number of scored posts
    plus the number of posts without sentiment. *)
Theorem validate_counts_no_sentiment_as_processed
    (results : list (SentimentResult num)) :
  let t := tallyAll toLowerCase results in
  let report := validate toLowerCase results in
  let count := num_of_count (t_messageCount t + t_noSentimentCount t) in
  reported report = t_messageCount t + t_noSentimentCount t /\
  happinessShown report = num_div (sum_happiness t) count /\
  sadnessShown report = num_div (sum_sadness t) count /\
  angerShown report = num_div (sum_anger t) count /\
  fearShown report = num_div (sum_fear t) count /\
  surpriseShown report = num_div (sum_surprise t) count /\
  disgustShown report = num_div (sum_disgust t) count /\
  conceptsShown report =
    take 20 (sortBy byCountDescending (entries (conceptCounts t))).
Proof.
  cbv zeta. unfold validate, tallyAll.
  match goal with
  | |- context [fold_left (validated toLowerCase) results ?v0] =>
      destruct (validated_fold results v0 emptyTally)
        as (Hp & H1 & H2 & H3 & H4 & H5 & H6 & Hc); try reflexivity
  end.
  cbn. rewrite Hp, H1, H2, H3, H4, H5, H6, Hc. auto 10.
Qed.
End ValidateFacts.

(* ===================================================================== *)
(** * The time label of the chart *)
(* ===================================================================== *)

Section LabelFacts.
Import Date DateFacts.
Context (LocalTZA : Z -> bool -> Z) (t z : Z).
Hypothesis steady : steadyZone LocalTZA t z.

Local Abbreviation near u := (t - 180000 < u <= t + 120000).

Lemma steady_LocalTime (u : Z) :
  near u -> LocalTime LocalTZA u = u + z.
Proof. intros Hu. unfold LocalTime. now rewrite (proj1 steady u Hu). Qed.

Lemma steady_UTC (l : Z) :
  near (l - z) -> UTC LocalTZA l = l - z.
Proof.
  intros Hl. unfold UTC. rewrite (proj2 steady l); [reflexivity|lia].
Qed.

(** The three setters, on the local time [l] of an instant near [t]. *)
Lemma steady_setMinutes (u min : Z) :
  near u ->
  near ((u + z) / 3600000 * 3600000 + min * 60000 + (u + z) mod 60000 - z) ->
  setMinutesLocal LocalTZA u min + z
  = (u + z) / 3600000 * 3600000 + min * 60000 + (u + z) mod 60000.
Proof.
  intros Hu Hnew. unfold setMinutesLocal. cbv zeta.
  rewrite (steady_LocalTime u Hu).
  assert (MakeDate (Day (u + z))
            (MakeTime (HourFromTime (u + z)) min (SecFromTime (u + z))
               (msFromTime (u + z)))
          = (u + z) / 3600000 * 3600000 + min * 60000 + (u + z) mod 60000)
    as ->.
  { unfold MakeDate, MakeTime, Day, HourFromTime, SecFromTime, msFromTime,
      msPerDay, msPerHour, msPerMinute, msPerSecond. zdiv. }
  rewrite steady_UTC by assumption. lia.
Qed.

Lemma steady_setSeconds (u : Z) :
  near u ->
  near ((u + z) / 60000 * 60000 + (u + z) mod 1000 - z) ->
  setSecondsLocal LocalTZA u 0 + z
  = (u + z) / 60000 * 60000 + (u + z) mod 1000.
Proof.
  intros Hu Hnew. unfold setSecondsLocal. cbv zeta.
  rewrite (steady_LocalTime u Hu).
  assert (MakeDate (Day (u + z))
            (MakeTime (HourFromTime (u + z)) (MinFromTime (u + z)) 0
               (msFromTime (u + z)))
          = (u + z) / 60000 * 60000 + (u + z) mod 1000) as ->.
  { unfold MakeDate, MakeTime, Day, HourFromTime, MinFromTime, msFromTime,
      msPerDay, msPerHour, msPerMinute, msPerSecond. zdiv. }
  rewrite steady_UTC by assumption. lia.
Qed.

Lemma steady_setMilliseconds (u : Z) :
  near u ->
  near ((u + z) / 1000 * 1000 - z) ->
  setMillisecondsLocal LocalTZA u 0 + z = (u + z) / 1000 * 1000.
Proof.
  intros Hu Hnew. unfold setMillisecondsLocal. cbv zeta.
  rewrite (steady_LocalTime u Hu).
  assert (MakeDate (Day (u + z))
            (MakeTime (HourFromTime (u + z)) (MinFromTime (u + z))
               (SecFromTime (u + z)) 0)
          = (u + z) / 1000 * 1000) as ->.
  { unfold MakeDate, MakeTime, Day, HourFromTime, MinFromTime, SecFromTime,
      msPerDay, msPerHour, msPerMinute, msPerSecond. zdiv. }
  rewrite steady_UTC by assumption. lia.
Qed.

(** The instant the label shows: in local time, the minute of [t]
    rounded to a multiple of five.  It lies near [t]. *)
Lemma steady_roundedDate :
  roundedDate LocalTZA t + z = 300000 * (((t + z) / 60000 + 2) / 5) /\
  near (roundedDate LocalTZA t).
Proof.
  unfold roundedDate. cbv zeta.
  assert (near t) as N0 by lia.
  unfold getMinutesLocal. rewrite (steady_LocalTime t N0).
  set (r := roundedMinutes (MinFromTime (t + z))).
  assert (- 2 <= r - ((t + z) / 60000) mod 60 <= 2 /\
          r = 5 * ((((t + z) / 60000) mod 60 + 2) / 5)) as [Hr Hr5].
  { unfold r, roundedMinutes, MinFromTime, msPerMinute, msPerSecond. zdiv. }
  set (u1 := setMinutesLocal LocalTZA t r).
  assert (u1 + z = (t + z) / 3600000 * 3600000 + r * 60000
                   + (t + z) mod 60000) as E1.
  { apply steady_setMinutes; [exact N0|]. clearbody r. zdiv. }
  assert (near u1) as N1 by (clearbody r u1; zdiv).
  set (u2 := setSecondsLocal LocalTZA u1 0).
  assert (u2 + z = (u1 + z) / 60000 * 60000 + (u1 + z) mod 1000) as E2.
  { apply steady_setSeconds; [exact N1|]. rewrite E1.
    clearbody r u1. zdiv. }
  assert (near u2) as N2.
  { assert (u2 = (u1 + z) / 60000 * 60000 + (u1 + z) mod 1000 - z) as ->
      by lia.
    rewrite E1. clearbody r u1. zdiv. }
  set (u3 := setMillisecondsLocal LocalTZA u2 0).
  assert (u3 + z = (u2 + z) / 1000 * 1000) as E3.
  { apply steady_setMilliseconds; [exact N2|]. rewrite E2, E1.
    clearbody r u1 u2. zdiv. }
  assert (u3 + z = 300000 * (((t + z) / 60000 + 2) / 5)) as E.
  { rewrite E3, E2, E1. clearbody r u1 u2 u3. zdiv. }
  split; [exact E|].
  assert (u3 = 300000 * (((t + z) / 60000 + 2) / 5) - z) as -> by lia.
  zdiv.
Qed.

Lemma two_digits (m : Z) :
  0 <= m < 12 -> padStart 2 48 (decimal (5 * m)) = padDigits 2 (5 * m).
Proof.
  intros Hm.
  assert (m = 0 \/ m = 1 \/ m = 2 \/ m = 3 \/ m = 4 \/ m = 5 \/ m = 6 \/
          m = 7 \/ m = 8 \/ m = 9 \/ m = 10 \/ m = 11) as Hcases by lia.
  intuition subst; reflexivity.
Qed.

End LabelFacts.

(* ===================================================================== *)
(** * The cron trigger *)
(* ===================================================================== *)

Section CronFacts.
Context {num : Type} `{Number num} (toLowerCase : jsstring -> jsstring).
Import Date DateFacts.

Lemma refreshMeters_grows (kv kv' : KVNamespace num)
    (events : list StreamEvent) (provider : jsstring -> ProviderReply)
    (now : Z) (apiKey : jsstring) :
  refreshMeters toLowerCase kv events provider now apiKey = Returned kv' ->
  (size kv' <= S (size kv))%nat /\
  forall k, is_Some (kv !! k) -> is_Some (kv' !! k).
Proof.
  unfold refreshMeters.
  destruct (updateMeters _ _ _ _ _) as [|[data|]]; [discriminate| |].
  - intros [= <-]. unfold kvPut, KVNamespace in *. split.
    + destruct (kv !! timestamp data) eqn:E.
      * rewrite map_size_insert_Some by eauto. lia.
      * rewrite map_size_insert_None by assumption. lia.
    + intros k Hk. apply lookup_insert_is_Some.
      destruct (decide (timestamp data = k)); auto.
  - intros [= <-]. split; [lia|auto].
Qed.

(** X22.  Runs of the cron trigger only add to the namespace.  Started
    on a namespace whose keys are ISO timestamps with metadata (the
    empty one, say), any number of runs leaves such a namespace; no key
    is ever deleted, and each run adds at most one. *)
Theorem scheduled_runs_only_add (kv kv' : KVNamespace num)
    (apiKey : jsstring) (firings : list Firing) :
  wellStored kv ->
  Forall (fun f => fourDigitYear (firedAt f)) firings ->
  scheduledRuns toLowerCase kv apiKey firings = Returned kv' ->
  wellStored kv' /\
  (size kv' <= size kv + length firings)%nat /\
  forall k, is_Some (kv !! k) -> is_Some (kv' !! k).
Proof.
  revert kv. induction firings as [|f firings IH]; intros kv Hstored Hyears;
    cbn [scheduledRuns length].
  - intros [= <-]. split; [assumption|]. split; [lia|auto].
  - apply Forall_cons in Hyears as [Hf Hyears]. unfold scheduled.
    destruct (refreshMeters _ _ _ _ _ _) as [|kv1] eqn:E; [discriminate|].
    intros Hrest.
    pose proof (refreshMeters_wellStored _ _ _ _ _ _ _ Hstored Hf E) as H1.
    destruct (refreshMeters_grows _ _ _ _ _ _ E) as [Hsize Hkeys].
    destruct (IH kv1 H1 Hyears Hrest) as (Hw & Hs & Hk).
    split; [assumption|]. split; [lia|auto].
Qed.
End CronFacts.

(* ===================================================================== *)
(** * The further theorems on the sample inputs *)
(* ===================================================================== *)

Lemma collection_resolves_once_witness :
  resolved (connectToFirehose sampleOptions [] sampleEvents)
    = Some [samplePost "a"; samplePost "b"] /\
  resolved (connectToFirehose sampleOptions []
              (sampleEvents ++ [OnCreate (samplePost "e"); OnClose]))
    = Some [samplePost "a"; samplePost "b"].
Proof.
  split; [reflexivity|].
  apply (collection_resolves_once sampleOptions [] _ sampleEvents).
  reflexivity.
Defined.

Lemma updateMeters_scores_at_most_2000_witness :
  exists data,
    updateMeters asciiLower closingEvents sampleProvider jan3_19h (js "key")
      = Returned (Some data) /\
    1 <= messageCount data <= 2000.
Proof.
  destruct (updateMeters asciiLower closingEvents sampleProvider jan3_19h
              (js "key")) as [|[data|]] eqn:E;
    [vm_compute in E; discriminate| |vm_compute in E; discriminate].
  exists data. split; [reflexivity|].
  exact (updateMeters_scores_at_most_2000 asciiLower closingEvents
           sampleProvider jan3_19h (js "key") data E).
Defined.

Lemma reported_counts_are_exact_witness :
  exists data top,
    aggregate asciiLower conceptBatch jan3_17h = Some data /\
    topConcepts data = Some top /\
    forall k v, (k, v) ∈ top ->
      k ∈ loweredConcepts asciiLower conceptBatch /\
      match v with
      | Count n =>
          n = occurrences k (loweredConcepts asciiLower conceptBatch) /\ 1 <= n
      | Text _ => inheritedName k = true
      end.
Proof.
  destruct (aggregate asciiLower conceptBatch jan3_17h) as [data|] eqn:E;
    [|vm_compute in E; discriminate].
  destruct (reported_counts_are_exact asciiLower conceptBatch jan3_17h data E)
    as (top & Htop & Hcells).
  exists data, top. auto.
Defined.

Lemma parsed_concepts_are_clean_witness :
  exists sc,
    parseSentimentResponse (num := spec_float) reorderedReply = Success sc /\
    Forall (fun c =>
              c <> [] /\ trim c = c /\
              Forall (fun x => x <> 44%N /\ isLineTerminator x = false) c)
      (concepts sc).
Proof.
  destruct (parseSentimentResponse (num := spec_float) reorderedReply)
    as [sc|e] eqn:E; [|vm_compute in E; discriminate].
  exists sc. split; [reflexivity|].
  exact (parsed_concepts_are_clean reorderedReply sc E).
Defined.

Lemma scores_are_read_from_digit_runs_witness :
  exists sc h,
    parseSentimentResponse (num := spec_float) wideReply = Success sc /\
    digitRun h /\ happiness sc = Binary64.parseFloat h.
Proof.
  destruct (parseSentimentResponse (num := spec_float) wideReply)
    as [sc|e] eqn:E; [|vm_compute in E; discriminate].
  destruct (scores_are_read_from_digit_runs wideReply sc E)
    as (h & s & a & f & su & d & Hh & _ & _ & _ & _ & _ & Eh & _).
  exists sc, h. auto.
Defined.

Lemma reply_parses_inside_a_fence_witness :
  passedOver (js "```" ++ [10%N]) ([10%N] ++ js "```") /\
  parseSentimentResponse (num := spec_float) fencedReply =
  Success {| happiness := Binary64.parseFloat (js "7");
             sadness := Binary64.parseFloat (js "1");
             anger := Binary64.parseFloat (js "0");
             fear := Binary64.parseFloat (js "3");
             surprise := Binary64.parseFloat (js "5");
             disgust := Binary64.parseFloat (js "4");
             concepts := [js "peace"; js "Ukraine war"] |}.
Proof.
  assert (forall v, v <> [] -> forallb isDigitOrDot v = true -> digitRun v)
    as Hrun by (intros v ? ?; split; assumption).
  assert (passedOver (js "```" ++ [10%N]) ([10%N] ++ js "```")) as Haround
    by (split; reflexivity).
  assert (digitRun (js "7")) as D7 by (apply Hrun; [discriminate|reflexivity]).
  assert (digitRun (js "1")) as D1 by (apply Hrun; [discriminate|reflexivity]).
  assert (digitRun (js "0")) as D0 by (apply Hrun; [discriminate|reflexivity]).
  assert (digitRun (js "3")) as D3 by (apply Hrun; [discriminate|reflexivity]).
  assert (digitRun (js "5")) as D5 by (apply Hrun; [discriminate|reflexivity]).
  assert (digitRun (js "4")) as D4 by (apply Hrun; [discriminate|reflexivity]).
  split; [exact Haround|].
  exact (reply_parses_inside_a_fence (num := spec_float)
           (js "```" ++ [10%N]) ([10%N] ++ js "```")
           (js "7") (js "1") (js "0") (js "3") (js "5") (js "4")
           112%N (js "eace, Ukraine war,")
           D7 D1 D0 D3 D5 D4 eq_refl eq_refl Haround).
Defined.

Lemma hour_prefixes_cover_the_hours_witness :
  exists dates' prefixes,
    generateHourPrefixes 5 1%positive 2%positive sampleDates
      = Some (dates', prefixes) /\
    length prefixes = 2%nat /\ NoDup prefixes.
Proof.
  assert (Date.fourDigitYear (jan3_17h + 1800000)) as R1
    by (vm_compute; split; [discriminate|reflexivity]).
  assert (Date.fourDigitYear (jan3_17h + 5400000)) as R2
    by (vm_compute; split; [discriminate|reflexivity]).
  destruct (hour_prefixes_cover_the_hours 5 1%positive 2%positive sampleDates
              (jan3_17h + 1800000) (jan3_17h + 5400000) eq_refl eq_refl R1 R2
              ltac:(vm_compute; lia))
    as (dates' & prefixes & Hrun & Hlen & Hnd & _).
  exists dates', prefixes. auto.
Defined.


Lemma reversed_range_is_empty_witness :
  jan3_17h + 1800000 < jan3_17h + 5400000 /\
  exists dates',
    getHistoricalMeters 5 sampleStore 2%positive 1%positive sampleDates
      = Some (dates', []).
Proof.
  split; [reflexivity|].
  assert (Date.fourDigitYear (jan3_17h + 1800000)) as R1
    by (vm_compute; split; [discriminate|reflexivity]).
  assert (Date.fourDigitYear (jan3_17h + 5400000)) as R2
    by (vm_compute; split; [discriminate|reflexivity]).
  exact (reversed_range_is_empty 5 sampleStore 2%positive 1%positive
           sampleDates (jan3_17h + 5400000) (jan3_17h + 1800000)
           eq_refl eq_refl R2 R1 eq_refl ltac:(vm_compute; lia)).
Defined.

Lemma keys_without_metadata_are_skipped_witness :
  exists dates' results,
    getHistoricalMeters 5 sampleStore 1%positive 2%positive sampleDates
      = Some (dates', results) /\
    forall r, r ∈ results -> is_Some (sampleStore !! timestamp r).
Proof.
  destruct (keys_without_metadata_are_skipped sampleStore 1%positive 2%positive
              sampleDates (jan3_17h + 1800000) (jan3_17h + 5400000) 5
              eq_refl eq_refl ltac:(vm_compute; lia))
    as (dates' & results & Hq & Hmem & _).
  exists dates', results. split; [exact Hq|].
  intros r Hr. destruct (Hmem r Hr) as (entry & _ & Hk & _). eauto.
Defined.

Lemma jan3_19h_fourDigitYear : Date.fourDigitYear jan3_19h.
Proof. vm_compute. split; [discriminate|reflexivity]. Qed.

Lemma stored_run_is_read_back_witness :
  exists data kv',
    updateMeters asciiLower closingEvents sampleProvider jan3_19h (js "key")
      = Returned (Some data) /\
    refreshMeters asciiLower sampleStore closingEvents sampleProvider jan3_19h
      (js "key") = Returned kv' /\
    kvGet kv' (timestamp data) = topConcepts data /\
    (forall k, k <> timestamp data -> kv' !! k = sampleStore !! k).
Proof.
  destruct (updateMeters asciiLower closingEvents sampleProvider jan3_19h
              (js "key")) as [|[data|]] eqn:E;
    [vm_compute in E; discriminate| |vm_compute in E; discriminate].
  assert (refreshMeters asciiLower sampleStore closingEvents sampleProvider
            jan3_19h (js "key")
          = Returned (kvPut sampleStore (timestamp data)
                        (default [] (topConcepts data)) (sentimentsOf data)))
    as E' by (unfold refreshMeters; now rewrite E).
  exists data, (kvPut sampleStore (timestamp data)
                  (default [] (topConcepts data)) (sentimentsOf data)).
  split; [reflexivity|]. split; [exact E'|].
  destruct (stored_run_is_read_back asciiLower sampleStore _ closingEvents
              sampleProvider jan3_19h (js "key") data sampleStore_wellStored
              jan3_19h_fourDigitYear E E') as (Hget & Hframe & _).
  auto.
Defined.

Lemma meters_route_serves_the_last_24_hours_witness :
  exists records,
    fetch 30 (js "/api/meters/") None (Some sampleStore) jan3_19h
      = Some (jsonResponse 200 (MetersBody records)) /\
    StronglySorted (fun a b => strLt (timestamp a) (timestamp b) = true)
      records.
Proof.
  assert (Date.fourDigitYear (jan3_19h - 86400000)) as R1
    by (vm_compute; split; [discriminate|reflexivity]).
  destruct (meters_route_serves_the_last_24_hours 30 (js "/api/meters/") None
              sampleStore jan3_19h eq_refl sampleStore_wellStored R1
              jan3_19h_fourDigitYear ltac:(vm_compute; lia))
    as (records & Hfetch & _ & Hsorted & _).
  exists records. auto.
Defined.

Lemma concepts_route_reads_a_stored_run_witness :
  exists (data : SentimentData spec_float) kv' top,
    refreshMeters asciiLower sampleStore closingEvents sampleProvider jan3_19h
      (js "key") = Returned kv' /\
    topConcepts data = Some top /\
    fetch 0 (js "/api/concepts") (Some (timestamp data)) (Some kv') 0
      = Some (jsonResponse 200 (ConceptsBody (entries top))).
Proof.
  destruct (updateMeters asciiLower closingEvents sampleProvider jan3_19h
              (js "key")) as [|[data|]] eqn:E;
    [vm_compute in E; discriminate| |vm_compute in E; discriminate].
  assert (refreshMeters asciiLower sampleStore closingEvents sampleProvider
            jan3_19h (js "key")
          = Returned (kvPut sampleStore (timestamp data)
                        (default [] (topConcepts data)) (sentimentsOf data)))
    as E' by (unfold refreshMeters; now rewrite E).
  destruct (concepts_route_reads_a_stored_run asciiLower sampleStore _
              closingEvents sampleProvider jan3_19h (js "key") data 0
              (js "/api/concepts") 0 eq_refl E E')
    as ((top & Htop & Hfetch) & _).
  exists data, (kvPut sampleStore (timestamp data)
                  (default [] (topConcepts data)) (sentimentsOf data)), top.
  auto.
Defined.

Lemma fetch_always_answers_witness :
  exists resp,
    fetch 30 (js "/api/concepts") (Some (js "2025-01-03T17:00:00.000Z"))
      (Some sampleStore) jan3_19h = Some resp /\
    (status resp = 500 -> Some sampleStore = None) /\
    (body resp <> NoBody -> headers resp = jsonHeaders).
Proof.
  destruct (fetch_always_answers 30 (js "/api/concepts")
              (Some (js "2025-01-03T17:00:00.000Z")) (Some sampleStore)
              jan3_19h)
    as (resp & Hfetch & _ & H500 & _ & Hjson & _).
  - intros kv [= <-]. vm_compute. lia.
  - exists resp. auto.
Defined.

Lemma corpus_saves_the_first_posts_witness :
  corpus sampleClock (Some 2) openEvents = Pending /\
  corpus sampleClock (Some 2) (openEvents ++ [OnTimeout])
  = Returned [entryOf sampleClock 0 (samplePost "a");
              entryOf sampleClock 1 (samplePost "b")].
Proof.
  assert (OnClose ∉ openEvents) as Hc.
  { unfold openEvents. rewrite !not_elem_of_cons. repeat split; try discriminate.
    apply not_elem_of_nil. }
  assert (OnTimeout ∉ openEvents) as Ht.
  { unfold openEvents. rewrite !not_elem_of_cons. repeat split; try discriminate.
    apply not_elem_of_nil. }
  destruct (corpus_saves_the_first_posts sampleClock (Some 2) openEvents []
              Hc Ht) as (Hpending & _ & Htimer & _).
  split; [exact Hpending|].
  destruct (Htimer 2 eq_refl) as [Hsaved _].
  exact (Hsaved ltac:(discriminate)).
Defined.

Lemma scheduled_runs_only_add_witness :
  exists kv',
    scheduledRuns asciiLower sampleStore (js "key") sampleFirings
      = Returned kv' /\
    wellStored kv' /\ (size kv' <= size sampleStore + 2)%nat.
Proof.
  destruct (scheduledRuns asciiLower sampleStore (js "key") sampleFirings)
    as [|kv'] eqn:E; [vm_compute in E; discriminate|].
  assert (Forall (fun f => Date.fourDigitYear (firedAt f)) sampleFirings) as Hy.
  { repeat constructor; try discriminate. }
  destruct (scheduled_runs_only_add asciiLower sampleStore kv' (js "key")
              sampleFirings sampleStore_wellStored Hy E) as (Hw & Hs & _).
  exists kv'. auto.
Defined.

(** ** The time label *)

(** 00:02:59 in New York is shown as 12:00 AM. *)
Example label_drops_the_seconds :
  formatTimeToNearest5Min easternTime march9_0502 = js "12:00 AM".
Proof. vm_compute. reflexivity. Qed.

(** 01:58 in New York on the night the clocks go forward: the minute
    rounds up to 2:00, a local time that night skips, and the label shows
    3:00 AM. *)
Example label_across_the_clock_change :
  formatTimeToNearest5Min easternTime march9_0658 = js "3:00 AM".
Proof. vm_compute. reflexivity. Qed.

